(** * The validator ranking crawler (backend/lib/crawlers/ranking.js)

    A shallow embedding of the ranking pipeline: the scoring of every
    validator, the ordering and rank, the normalised performance, the
    Pareto-dominance pass, the cluster-based hiding, the dashboard totals
    and the scheduler that re-arms the crawler.

    Conventions of the embedding.
    - JavaScript numbers are exact rationals ([Q]) extended with the IEEE
      special values ([JsNum.t]); rounding of doubles is not modelled.
    - Chain integers (balances, eras, points, block numbers) are [Z].
    - Objects used as dictionaries ([validators[accountId]]) are [gmap string].
    - Strings are [string]; a character is one code unit.
    - A [TypeError] that aborts the run is [None] in the [option] monad. *)

From Stdlib Require Import ZArith QArith Qround Qpower Lqa String Ascii List Permutation Sorted Lia.
From stdpp Require Import gmap strings list pretty.
Import ListNotations.
Open Scope Z_scope.

(** ** JavaScript numbers *)

Module JsNum.

Inductive t : Type :=
| Num (q : Q)
| PosInf
| NegInf
| NaN.

Definition ofZ (z : Z) : t := Num (inject_Z z).

Definition add (x y : t) : t :=
  match x, y with
  | NaN, _ | _, NaN => NaN
  | Num a, Num b => Num (a + b)
  | PosInf, NegInf | NegInf, PosInf => NaN
  | PosInf, _ | _, PosInf => PosInf
  | NegInf, _ | _, NegInf => NegInf
  end.

Definition neg (x : t) : t :=
  match x with
  | Num a => Num (- a)
  | PosInf => NegInf
  | NegInf => PosInf
  | NaN => NaN
  end.

Definition sub (x y : t) : t := add x (neg y).

Definition signed_inf (positive : bool) : t :=
  if positive then PosInf else NegInf.

(** [x / y]; a zero divisor is taken as [+0]. *)
Definition div (x y : t) : t :=
  match x, y with
  | NaN, _ | _, NaN => NaN
  | Num a, Num b =>
      if Qeq_bool b 0 then
        if Qeq_bool a 0 then NaN else signed_inf (Qle_bool 0 a)
      else Num (a / b)
  | Num _, _ => Num 0
  | PosInf, Num b => signed_inf (Qle_bool 0 b)
  | NegInf, Num b => signed_inf (negb (Qle_bool 0 b))
  | _, _ => NaN
  end.

(** [x < y] *)
Definition ltb (x y : t) : bool :=
  match x, y with
  | NaN, _ | _, NaN => false
  | Num a, Num b => negb (Qle_bool b a)
  | Num _, PosInf => true
  | Num _, NegInf => false
  | NegInf, NegInf => false
  | NegInf, _ => true
  | PosInf, _ => false
  end.

(** [x > y] *)
Definition gtb (x y : t) : bool := ltb y x.

(** [x <= y] *)
Definition leb (x y : t) : bool :=
  match x, y with
  | NaN, _ | _, NaN => false
  | Num a, Num b => Qle_bool a b
  | NegInf, _ => true
  | _, PosInf => true
  | _, _ => false
  end.

(** [x >= y] *)
Definition geb (x y : t) : bool := leb y x.

(** [x.toFixed(digits)] followed by the reading back of the text
    ([parseFloat]): the nearest multiple of [10^-digits], halves away
    from zero; ["NaN"] and ["Infinity"] print and parse as themselves.
    The value rounded is the exact one: where it is a half, the double of
    the code sits just beside it and may go the other way, so the
    statements below bound the result and do not fix its last digit. *)
Definition round_half_up (q : Q) : Z := Qfloor (q + (1 # 2)).

Definition toFixed (digits : Z) (x : t) : t :=
  match x with
  | Num q =>
      let scale := 10 ^ digits in
      let n := if Qle_bool 0 q
               then round_half_up (q * inject_Z scale)
               else - round_half_up (- q * inject_Z scale) in
      Num (n # Z.to_pos scale)
  | other => other
  end.

End JsNum.

(** ** JavaScript built-ins used by the crawler *)

Module Js.

(** Truthiness of a possibly missing string: [undefined] and [''] are falsy. *)
Definition truthy (s : option string) : bool :=
  match s with
  | Some s => negb (String.eqb s "")
  | None => false
  end.

(** [s || ''] *)
Definition or_empty (s : option string) : string :=
  if truthy s then default "" s else "".

(** [a === b] on possibly missing strings. *)
Definition opt_string_eqb (a b : option string) : bool :=
  match a, b with
  | Some x, Some y => String.eqb x y
  | None, None => true
  | _, _ => false
  end.

Definition is_digit (c : ascii) : bool :=
  let n := nat_of_ascii c in ((48 <=? n) && (n <=? 57))%nat.

(** [s.replace(/\d{1,2}$/g, '')]: the last two characters when both are
    digits, else the last one when it is a digit. *)
Definition strip_trailing_digits (s : string) : string :=
  match list_ascii_of_string (String.rev s) with
  | c1 :: c2 :: rest =>
      if is_digit c1 then
        if is_digit c2
        then String.rev (string_of_list_ascii rest)
        else String.rev (string_of_list_ascii (c2 :: rest))
      else s
  | [c1] => if is_digit c1 then "" else s
  | [] => s
  end.

(** [s.replace(/c$/g, '')] for a literal character [c]. *)
Definition strip_trailing_char (c : ascii) (s : string) : string :=
  match list_ascii_of_string (String.rev s) with
  | c1 :: rest =>
      if Ascii.eqb c1 c then String.rev (string_of_list_ascii rest) else s
  | [] => s
  end.

(** [arr.slice(0, n)]: a negative [n] counts from the end. *)
Definition slice0 {A} (arr : list A) (n : Z) : list A :=
  if 0 <=? n then firstn (Z.to_nat n) arr
  else firstn (length arr - Z.to_nat (- n)) arr.

(** [arr.slice(start)] for a non-negative [start]. *)
Definition slice_from {A} (arr : list A) (start : nat) : list A :=
  skipn start arr.

(** [Array.prototype.sort(comparefn)] as V8 runs it (the crawler uses
    optional chaining, hence Node 14 or later, whose sort is TimSort).
    Every comparison is made as [comparefn(later, earlier)], and the later
    element is moved in front of the earlier one exactly when the result
    is negative.  [sort_insert] places [x], which comes after all of
    [sorted] in the input, in front of the first element it compares
    negative with. *)
Fixpoint sort_insert {A} (comparefn : A -> A -> Z) (x : A) (sorted : list A)
  : list A :=
  match sorted with
  | [] => [x]
  | e :: rest =>
      if comparefn x e <? 0 then x :: e :: rest
      else e :: sort_insert comparefn x rest
  end.

Definition sort {A} (comparefn : A -> A -> Z) (arr : list A) : list A :=
  fold_left (fun sorted x => sort_insert comparefn x sorted) arr [].

(** The text ["[object Object]"] that a plain object converts to when it
    is an operand of [<] or [>]. *)
Definition object_to_primitive {A} (_ : A) : string := "[object Object]".

(** [a < b] on strings: code-unit order. *)
Fixpoint string_ltb (a b : string) : bool :=
  match a, b with
  | _, EmptyString => false
  | EmptyString, String _ _ => true
  | String x a', String y b' =>
      let nx := nat_of_ascii x in
      let ny := nat_of_ascii y in
      if (nx <? ny)%nat then true
      else if (ny <? nx)%nat then false
      else string_ltb a' b'
  end.

(** [a > b] on two plain objects. *)
Definition object_gt {A} (a b : A) : bool :=
  string_ltb (object_to_primitive b) (object_to_primitive a).

End Js.

(** ** Data returned by the chain, the event table and the HTTP endpoint *)

Inductive Judgement : Type :=
| FeePaid
| KnownGood
| Reasonable
| OtherJudgement.

Module Identity.
Record t : Type := {
  display : option string;
  displayParent : option string;
  legal : option string;
  web : option string;
  email : option string;
  twitter : option string;
  riot : option string;
  parent : option string;
  judgements : list (Z * Judgement)
}.
End Identity.

Module Exposure.
Record individual : Type := { who : string; value : Z }.
Record t : Type := { own : Z; total : Z; others : list individual }.
End Exposure.

Module Ledger.
Record t : Type := { total : Z; claimedRewards : list Z }.
End Ledger.

Module Prefs.
Record t : Type := { commission : Z }.
End Prefs.

(** What [api.derive.staking.query] and [waitingInfo.info] hold. *)
Module StakingQuery.
Record t : Type := {
  accountId : string;
  stashId : string;
  controllerId : string;
  exposure : Exposure.t;
  stakingLedger : Ledger.t;
  validatorPrefs : Prefs.t
}.
End StakingQuery.

(** A staking query enriched with [identity] and [active]. *)
Module Validator.
Record t : Type := {
  query : StakingQuery.t;
  identity : Identity.t;
  active : bool
}.
Definition accountId (v : t) : string := StakingQuery.accountId (query v).
Definition stashId (v : t) : string := StakingQuery.stashId (query v).
Definition controllerId (v : t) : string := StakingQuery.controllerId (query v).
Definition exposure (v : t) : Exposure.t := StakingQuery.exposure (query v).
Definition stakingLedger (v : t) : Ledger.t := StakingQuery.stakingLedger (query v).
Definition validatorPrefs (v : t) : Prefs.t := StakingQuery.validatorPrefs (query v).
End Validator.

Module EraPoints.
Record t : Type := { era : Z; eraPoints : Z; validators : gmap string Z }.
End EraPoints.

Module EraPrefs.
Record t : Type := { era : Z; validators : gmap string Prefs.t }.
End EraPrefs.

Module EraSlashes.
Record t : Type := { era : Z; validators : gmap string Z }.
End EraSlashes.

Module EraExposure.
Record t : Type := { era : Z; validators : gmap string Exposure.t }.
End EraExposure.

Record Proposal : Type := { proposer : string; seconds : list string }.

Record Referendum : Type := { votes : list string }.

Record ThousandValidator : Type := { stash : string }.

(** The answers of the chain node to the queries of one run. *)
Record Chain : Type := {
  block_number : Z;
  erasHistoric : list Z;
  currentEra : Z;
  maxNominatorRewardedPerValidator : Z;
  session_validators : list string;
  staking_query : string -> StakingQuery.t;
  waitingInfo : list StakingQuery.t;
  staking_nominators : list (string * list string);
  council_votes : list string;
  derive_erasPoints : list Z -> list EraPoints.t;
  derive_erasPrefs : list Z -> list EraPrefs.t;
  derive_erasSlashes : list Z -> list EraSlashes.t;
  derive_eraExposure : Z -> EraExposure.t;
  democracy_proposals : list Proposal;
  democracy_referendums : list Referendum;
  accounts_info : string -> Identity.t
}.

Record Config : Type := {
  startDelay : Z;
  pollingTime : Z;
  historySize : Z;
  erasPerDay : Z;
  tokenDecimals : Z
}.

(** ** Records produced by the crawler *)

Record CommissionEntry : Type := {
  ce_era : string;
  (** the two-decimal text, kept as the number it denotes; [None] is [null] *)
  ce_commission : option JsNum.t
}.

Record EraPointsEntry : Type := { eph_era : string; points : Z }.

Inductive PayoutStatus : Type := inactive | paid | pending.

Record PayoutEntry : Type := { ph_era : string; status : PayoutStatus }.

Record ParsedIdentity : Type := {
  pi_verifiedIdentity : bool;
  pi_hasSubIdentity : bool;
  pi_name : string;
  pi_identityRating : Z
}.

(** The object returned by the scoring callback. *)
Record Scored : Type := {
  active : bool;
  activeRating : Z;
  name : string;
  hasSubIdentity : bool;
  subAccountsRating : Z;
  verifiedIdentity : bool;
  identityRating : Z;
  stashAddress : string;
  stashCreatedAtBlock : option Z;
  stashParentCreatedAtBlock : option Z;
  addressCreationRating : Z;
  controllerAddress : string;
  includedThousandValidators : bool;
  partOfCluster : bool;
  clusterName : string;
  clusterMembers : Z;
  showClusterMember : bool;
  nominators : Z;
  nominatorsRating : Z;
  commission : Q;
  commissionHistory : list CommissionEntry;
  commissionRating : Z;
  activeEras : Z;
  eraPointsHistory : list EraPointsEntry;
  eraPointsPercent : JsNum.t;
  eraPointsRating : Z;
  performance : JsNum.t;
  slashed : bool;
  slashRating : Z;
  councilBacking : bool;
  activeInGovernance : bool;
  governanceRating : Z;
  payoutHistory : list PayoutEntry;
  payoutRating : Z;
  selfStake : Z;
  otherStake : Z;
  totalStake : Z;
  totalRating : Z
}.

(** [{ rank, relativePerformance, ...validator, dominated }] *)
Record Ranked : Type := {
  rank : Z;
  relativePerformance : JsNum.t;
  scored :> Scored;
  dominated : bool
}.

(** ** Helpers of ranking.js *)

(** [getThousandValidators]: the body of the HTTP answer, or [[]] when the
    request throws ([None]). *)
Definition getThousandValidators (response : option (list ThousandValidator))
  : list ThousandValidator :=
  match response with
  | Some data => data
  | None => []
  end.

Definition isFeePaid (j : Judgement) : bool :=
  match j with FeePaid => true | _ => false end.

Definition isKnownGood (j : Judgement) : bool :=
  match j with KnownGood => true | _ => false end.

Definition isReasonable (j : Judgement) : bool :=
  match j with Reasonable => true | _ => false end.

Definition isVerifiedIdentity (identity : Identity.t) : bool :=
  if (length (Identity.judgements identity) =? 0)%nat then false
  else
    existsb (fun '(_, judgement) => isKnownGood judgement || isReasonable judgement)
      (List.filter (fun '(_, judgement) => negb (isFeePaid judgement))
         (Identity.judgements identity)).

Definition subIdentity (identity : Identity.t) : bool :=
  Js.truthy (Identity.displayParent identity) && Js.truthy (Identity.display identity).

Definition getName (identity : Identity.t) : string :=
  if subIdentity identity
  then (default "" (Identity.displayParent identity) ++ "/"
        ++ default "" (Identity.display identity))%string
  else Js.or_empty (Identity.display identity).

Definition getClusterName (identity : Identity.t) : string :=
  Js.or_empty (Identity.displayParent identity).

Definition getIdentityRating (name : string) (verifiedIdentity hasAllFields : bool) : Z :=
  if verifiedIdentity && hasAllFields then 3
  else if verifiedIdentity && negb hasAllFields then 2
  else if negb (String.eqb name "") then 1
  else 0.

Definition parseIdentity (identity : Identity.t) : ParsedIdentity :=
  let verifiedIdentity := isVerifiedIdentity identity in
  let hasSubIdentity := subIdentity identity in
  let name := getName identity in
  let hasAllFields :=
    Js.truthy (Identity.display identity)
    && Js.truthy (Identity.legal identity)
    && Js.truthy (Identity.web identity)
    && Js.truthy (Identity.email identity)
    && Js.truthy (Identity.twitter identity)
    && Js.truthy (Identity.riot identity) in
  let identityRating := getIdentityRating name verifiedIdentity hasAllFields in
  {| pi_verifiedIdentity := verifiedIdentity;
     pi_hasSubIdentity := hasSubIdentity;
     pi_name := name;
     pi_identityRating := identityRating |}.

(** [new BigNumber(era.toString()).toString(10)] *)
Definition era_text (era : Z) : string := pretty era.

(** [prefs.commission / 10000000] *)
Definition commission_percent (perbill : Z) : Q := inject_Z perbill / 10000000.

Definition getCommissionHistory (accountId : string) (erasPreferences : list EraPrefs.t)
  : list CommissionEntry :=
  fold_left
    (fun commissionHistory prefs =>
       match EraPrefs.validators prefs !! accountId with
       | Some p =>
           commissionHistory ++
           [{| ce_era := era_text (EraPrefs.era prefs);
               ce_commission :=
                 Some (JsNum.toFixed 2
                         (JsNum.Num (commission_percent (Prefs.commission p)))) |}]
       | None =>
           commissionHistory ++
           [{| ce_era := era_text (EraPrefs.era prefs); ce_commission := None |}]
       end)
    erasPreferences [].

(** [commissionHistory[0] > commissionHistory[commissionHistory.length - 1]]:
    both operands are the stored objects. *)
Definition first_exceeds_last (commissionHistory : list CommissionEntry) : bool :=
  match commissionHistory !! 0%nat,
        commissionHistory !! (length commissionHistory - 1)%nat with
  | Some oldest, Some newest => Js.object_gt oldest newest
  | _, _ => false
  end.

Definition getCommissionRating (commission : Q) (commissionHistory : list CommissionEntry)
  : Z :=
  if negb (Qeq_bool commission 100) && negb (Qeq_bool commission 0) then
    if negb (Qle_bool commission 10) then 1
    else if Qle_bool 5 commission then
      if (1 <? length commissionHistory)%nat && first_exceeds_last commissionHistory
      then 3
      else 2
    else if negb (Qle_bool 5 commission) then 3
    else 0
  else 0.

Definition isPending (entry : PayoutEntry) : bool :=
  match status entry with pending => true | _ => false end.

Definition getPayoutRating (payoutHistory : list PayoutEntry) (config : Config) : Z :=
  let pendingEras := Z.of_nat (length (List.filter isPending payoutHistory)) in
  if pendingEras <=? erasPerDay config then 3
  else if pendingEras <=? 3 * erasPerDay config then 2
  else if pendingEras <? 7 * erasPerDay config then 1
  else 0.

Definition getClusterInfo (hasSubIdentity : bool) (validators : list Validator.t)
  (validatorIdentity : Identity.t) : string * Z :=
  if negb hasSubIdentity then
    if Js.truthy (Identity.display validatorIdentity) then
      let display := default "" (Identity.display validatorIdentity) in
      let stringSize := 6%nat in
      let clusterMembers :=
        Z.of_nat (length (List.filter
          (fun v =>
             String.eqb
               (substring 0 stringSize
                  (Js.or_empty (Identity.display (Validator.identity v))))
               (substring 0 stringSize display))
          validators)) in
      let clusterName :=
        Js.strip_trailing_char "_"
          (Js.strip_trailing_char "-" (Js.strip_trailing_digits display)) in
      (clusterName, clusterMembers)
    else ("", 0)
  else
    let clusterMembers :=
      Z.of_nat (length (List.filter
        (fun v =>
           Js.opt_string_eqb (Identity.displayParent (Validator.identity v))
             (Identity.displayParent validatorIdentity))
        validators)) in
    let clusterName := getClusterName validatorIdentity in
    (clusterName, clusterMembers).

(** [getRandom(arr, n)]: [shuffled] is the arrangement of [arr] that the
    randomised sort leaves behind. *)
Definition getRandom (shuffled : list Z -> list Z) (arr : list Z) (n : Z) : list Z :=
  Js.slice0 (shuffled arr) n.

(** ** Data collection *)

(** [erasHistoric.slice(Math.max(erasHistoric.length - config.historySize, 0))] *)
Definition eraIndexes (config : Config) (chain : Chain) : list Z :=
  Js.slice_from (erasHistoric chain)
    (Z.to_nat (Z.max (Z.of_nat (length (erasHistoric chain)) - historySize config) 0)).

(** [erasExposure = erasExposure.concat(eraExposure)] for every era index. *)
Definition collectErasExposure (chain : Chain) (eras : list Z) : list EraExposure.t :=
  fold_left (fun erasExposure eraIndex => erasExposure ++ [derive_eraExposure chain eraIndex])
    eras [].

(** [{ ...validator, identity, active }] *)
Definition enrich (chain : Chain) (isActive : bool) (q : StakingQuery.t) : Validator.t :=
  {| Validator.query := q;
     Validator.identity := accounts_info chain (StakingQuery.accountId q);
     Validator.active := isActive |}.

Definition activeValidators (chain : Chain) : list Validator.t :=
  map (enrich chain true) (map (staking_query chain) (session_validators chain)).

Definition waitingIntentions (chain : Chain) : list Validator.t :=
  map (enrich chain false) (waitingInfo chain).

(** ** Dashboard totals *)

Definition nominatorStakes (validators : list Validator.t) : list Z :=
  flat_map (fun validator => map Exposure.value (Exposure.others (Validator.exposure validator)))
    validators.

(** [(a, b) => (new BigNumber(a).lte(new BigNumber(b)) ? 1 : 0)] *)
Definition stakeComparefn (a b : Z) : Z := if a <=? b then 1 else 0.

(** [nominatorStakes.sort(...)] then [nominatorStakes[0]]; [None] is [undefined]. *)
Definition minimumStake (validators : list Validator.t) : option Z :=
  head (Js.sort stakeComparefn (nominatorStakes validators)).

Definition template_text (x : option Z) : string :=
  match x with
  | Some z => pretty z
  | None => "undefined"
  end.

(** [UPDATE total SET count = '...' WHERE name = '...'] *)
Definition sql_update_total (rowName count : string) (total : gmap string string)
  : gmap string string :=
  alter (fun _ => count) rowName total.

(** The five [UPDATE]s of the dashboard metrics, each of them going
    through; one that throws is caught and logged, and leaves the table as
    it was. *)
Definition updateTotals (chain : Chain) (total : gmap string string) : gmap string string :=
  let validators := activeValidators chain in
  let activeValidatorCount := Z.of_nat (length (session_validators chain)) in
  let waitingValidatorCount := Z.of_nat (length (waitingInfo chain)) in
  let nominatorCount := Z.of_nat (length (staking_nominators chain)) in
  let total := sql_update_total "active_validator_count" (pretty activeValidatorCount) total in
  let total := sql_update_total "waiting_validator_count" (pretty waitingValidatorCount) total in
  let total := sql_update_total "nominator_count" (pretty nominatorCount) total in
  let total := sql_update_total "current_era" (pretty (currentEra chain)) total in
  sql_update_total "minimum_stake" (template_text (minimumStake validators)) total.

(** ** Address creation blocks *)

(** One [SELECT block_number FROM event WHERE method = 'NewAccount' ...]:
    [rows] are the block numbers of the rows found. *)
Definition recordCreation (rows : list Z) (address : string) (creation : gmap string Z)
  : gmap string Z :=
  match rows with
  | block_number :: _ =>
      if negb (block_number =? 0) then <[address := block_number]> creation else creation
  | [] => <[address := 0]> creation
  end.

Definition stashAddressesCreationOf (event_rows : string -> list Z)
  (validators : list Validator.t) : gmap string Z :=
  fold_left
    (fun creation validator =>
       let stashAddress := Validator.stashId validator in
       let creation := recordCreation (event_rows stashAddress) stashAddress creation in
       match Identity.parent (Validator.identity validator) with
       | Some stashParentAddress =>
           recordCreation (event_rows stashParentAddress) stashParentAddress creation
       | None => creation
       end)
    validators ∅.

(** [x <= (blockHeight / 4) * k]; [None] is [NaN]. *)
Definition within_quarters (x : option Z) (blockHeight : Z) (k : Z) : bool :=
  match x with
  | Some b => Qle_bool (inject_Z b) (inject_Z blockHeight / 4 * inject_Z k)
  | None => false
  end.

Definition addressRatingOf (best : option Z) (blockHeight : Z) : Z :=
  if within_quarters best blockHeight 1 then 3
  else if within_quarters best blockHeight 2 then 2
  else if within_quarters best blockHeight 3 then 1
  else 0.

(** [a > b] on two results of [parseInt]. *)
Definition parsed_gt (a b : option Z) : bool :=
  match a, b with
  | Some x, Some y => y <? x
  | _, _ => false
  end.

(** ** Scoring *)

(** The variables the scoring callback assigns to: [clusters],
    [maxPerformance] and [minPerformance]. *)
Record ScoreState : Type := {
  clusters : list string;
  maxPerformance : JsNum.t;
  minPerformance : JsNum.t
}.

Definition initialScoreState : ScoreState :=
  {| clusters := []; maxPerformance := JsNum.Num 0; minPerformance := JsNum.Num 0 |}.

(** The variables of the loop over [erasPoints]. *)
Record EraLoop : Type := {
  loop_eraPointsHistory : list EraPointsEntry;
  loop_payoutHistory : list PayoutEntry;
  loop_activeEras : Z;
  loop_performance : JsNum.t
}.

Definition initialEraLoop : EraLoop :=
  {| loop_eraPointsHistory := [];
     loop_payoutHistory := [];
     loop_activeEras := 0;
     loop_performance := JsNum.Num 0 |}.

Section Scoring.

Variable config : Config.
Variable thousandValidators : list ThousandValidator.
Variable chain : Chain.
Variable erasPoints : list EraPoints.t.
Variable erasPreferences : list EraPrefs.t.
Variable erasSlashes : list EraSlashes.t.
Variable erasExposure : list EraExposure.t.
Variable validators : list Validator.t.
Variable stashAddressesCreation : gmap string Z.

Definition blockHeight : Z := block_number chain.

Definition numActiveValidators : Z := Z.of_nat (length (session_validators chain)).

Definition eraPointsHistoryTotalsSum : Z :=
  fold_left (fun total num => total + num) (map EraPoints.eraPoints erasPoints) 0.

Definition eraPointsAverage : JsNum.t :=
  JsNum.div (JsNum.ofZ eraPointsHistoryTotalsSum) (JsNum.ofZ numActiveValidators).

(** [{ nominator, targets }]; only [targets] is read. *)
Definition nominations : list (list string) := map snd (staking_nominators chain).

Definition participateInGovernance : list string :=
  flat_map (fun p => proposer p :: seconds p) (democracy_proposals chain)
  ++ flat_map votes (democracy_referendums chain).

Definition includes (xs : list string) (x : string) : bool :=
  existsb (String.eqb x) xs.

(** One turn of [erasPoints.forEach]; [None] when the exposure of the era
    or of the stash in it is missing ([TypeError]).  Eras are compared by
    their number, in [claimedRewards.includes(era)] as in
    [eraExposure.era === era]. *)
Definition eraTurn (validator : Validator.t) (stashAddress : string) (commission : Q)
  (loop : EraLoop) (eraPoints : EraPoints.t) : option EraLoop :=
  let era := EraPoints.era eraPoints in
  match EraPoints.validators eraPoints !! stashAddress with
  | Some points =>
      let eraPayoutState :=
        if existsb (Z.eqb era) (Ledger.claimedRewards (Validator.stakingLedger validator))
        then paid else pending in
      eraExposure ← List.find (fun e => EraExposure.era e =? era) erasExposure;
      exposed ← EraExposure.validators eraExposure !! stashAddress;
      let eraTotalStake := Exposure.total exposed in
      let eraPerformance :=
        JsNum.div
          (JsNum.Num (inject_Z points * (1 - commission / 100)))
          (JsNum.Num (inject_Z eraTotalStake / (10 ^ tokenDecimals config))) in
      Some {| loop_eraPointsHistory :=
                loop_eraPointsHistory loop ++ [{| eph_era := era_text era; points := points |}];
              loop_payoutHistory :=
                loop_payoutHistory loop ++ [{| ph_era := era_text era; status := eraPayoutState |}];
              loop_activeEras := loop_activeEras loop + 1;
              loop_performance := JsNum.add (loop_performance loop) eraPerformance |}
  | None =>
      Some {| loop_eraPointsHistory :=
                loop_eraPointsHistory loop ++ [{| eph_era := era_text era; points := 0 |}];
              loop_payoutHistory :=
                loop_payoutHistory loop ++ [{| ph_era := era_text era; status := inactive |}];
              loop_activeEras := loop_activeEras loop;
              loop_performance := JsNum.add (loop_performance loop) (JsNum.Num 0) |}
  end.

Fixpoint eraLoop (validator : Validator.t) (stashAddress : string) (commission : Q)
  (loop : EraLoop) (eras : list EraPoints.t) : option EraLoop :=
  match eras with
  | [] => Some loop
  | eraPoints :: rest =>
      loop' ← eraTurn validator stashAddress commission loop eraPoints;
      eraLoop validator stashAddress commission loop' rest
  end.

(** The callback of [validators.map(...)], with the variables it assigns to
    passed in and out. *)
Definition scoreValidator (st : ScoreState) (validator : Validator.t)
  : option (ScoreState * Scored) :=
  let identity := Validator.identity validator in
  let accountId := Validator.accountId validator in
  (* active *)
  let active := Validator.active validator in
  let activeRating := if active then 2 else 0 in
  (* stash *)
  let stashAddress := Validator.stashId validator in
  (* address creation *)
  let stashCreatedAtBlock := stashAddressesCreation !! stashAddress in
  let stashParentCreatedAtBlock :=
    match Identity.parent identity with
    | Some parentAddress => stashAddressesCreation !! parentAddress
    | None => Some 0
    end in
  let addressCreationRating :=
    match Identity.parent identity with
    | Some _ =>
        let best :=
          if parsed_gt stashParentCreatedAtBlock stashCreatedAtBlock
          then stashCreatedAtBlock
          else stashParentCreatedAtBlock in
        addressRatingOf best blockHeight
    | None => addressRatingOf stashCreatedAtBlock blockHeight
    end in
  (* thousand validators program *)
  let includedThousandValidators :=
    existsb (fun tv => String.eqb (stash tv) stashAddress) thousandValidators in
  (* controller *)
  let controllerAddress := Validator.controllerId validator in
  (* identity *)
  let parsed := parseIdentity identity in
  let verifiedIdentity := pi_verifiedIdentity parsed in
  let hasSubIdentity := pi_hasSubIdentity parsed in
  let name := pi_name parsed in
  let identityRating := pi_identityRating parsed in
  (* sub-accounts *)
  let '(clusterName, clusterMembers) := getClusterInfo hasSubIdentity validators identity in
  let clusters' :=
    if negb (String.eqb clusterName "") && negb (includes (clusters st) clusterName)
    then clusters st ++ [clusterName]
    else clusters st in
  let partOfCluster := 1 <? clusterMembers in
  let subAccountsRating := if hasSubIdentity then 2 else 0 in
  (* nominators *)
  let nominators :=
    if active
    then Z.of_nat (length (Exposure.others (Validator.exposure validator)))
    else Z.of_nat (length (List.filter
           (fun targets => existsb (fun target => String.eqb target accountId) targets)
           nominations)) in
  let nominatorsRating :=
    if (0 <? nominators) && (nominators <=? maxNominatorRewardedPerValidator chain)
    then 2 else 0 in
  (* slashes *)
  let slashes :=
    List.filter (fun s => bool_decide (is_Some (EraSlashes.validators s !! accountId)))
      erasSlashes in
  let slashed := (0 <? length slashes)%nat in
  let slashRating := if slashed then 0 else 2 in
  (* commission *)
  let commission := commission_percent (Prefs.commission (Validator.validatorPrefs validator)) in
  let commissionHistory := getCommissionHistory accountId erasPreferences in
  let commissionRating := getCommissionRating commission commissionHistory in
  (* governance *)
  let councilBacking :=
    match Identity.parent identity with
    | Some parentAddress =>
        includes (council_votes chain) accountId
        || includes (council_votes chain) parentAddress
    | None => includes (council_votes chain) accountId
    end in
  let activeInGovernance :=
    match Identity.parent identity with
    | Some parentAddress =>
        includes participateInGovernance accountId
        || includes participateInGovernance parentAddress
    | None => includes participateInGovernance accountId
    end in
  let governanceRating :=
    if councilBacking && activeInGovernance then 3
    else if councilBacking || activeInGovernance then 2
    else 0 in
  (* era points and frequency of payouts *)
  loop ← eraLoop validator stashAddress commission initialEraLoop erasPoints;
  let eraPointsHistory := loop_eraPointsHistory loop in
  let payoutHistory := loop_payoutHistory loop in
  let activeEras := loop_activeEras loop in
  let performance := loop_performance loop in
  let eraPointsHistoryValidator :=
    fold_left (fun total era => total + points era) eraPointsHistory 0 in
  let eraPointsPercent :=
    JsNum.div (JsNum.ofZ (eraPointsHistoryValidator * 100))
      (JsNum.ofZ eraPointsHistoryTotalsSum) in
  let eraPointsRating :=
    if JsNum.gtb (JsNum.ofZ eraPointsHistoryValidator) eraPointsAverage then 2 else 0 in
  let payoutRating := getPayoutRating payoutHistory config in
  (* stake *)
  let selfStake :=
    if active
    then Exposure.own (Validator.exposure validator)
    else Ledger.total (Validator.stakingLedger validator) in
  let totalStake :=
    if active then Exposure.total (Validator.exposure validator) else selfStake in
  let otherStake := if active then totalStake - selfStake else 0 in
  (* performance *)
  let maxPerformance' :=
    if JsNum.gtb performance (maxPerformance st) then performance else maxPerformance st in
  let minPerformance' :=
    if JsNum.ltb performance (minPerformance st) then performance else minPerformance st in
  let showClusterMember := true in
  (* total rating *)
  let totalRating :=
    activeRating
    + addressCreationRating
    + identityRating
    + subAccountsRating
    + nominatorsRating
    + commissionRating
    + eraPointsRating
    + slashRating
    + governanceRating
    + payoutRating in
  Some
    ({| clusters := clusters';
        maxPerformance := maxPerformance';
        minPerformance := minPerformance' |},
     {| active := active;
        activeRating := activeRating;
        name := name;
        hasSubIdentity := hasSubIdentity;
        subAccountsRating := subAccountsRating;
        verifiedIdentity := verifiedIdentity;
        identityRating := identityRating;
        stashAddress := stashAddress;
        stashCreatedAtBlock := stashCreatedAtBlock;
        stashParentCreatedAtBlock := stashParentCreatedAtBlock;
        addressCreationRating := addressCreationRating;
        controllerAddress := controllerAddress;
        includedThousandValidators := includedThousandValidators;
        partOfCluster := partOfCluster;
        clusterName := clusterName;
        clusterMembers := clusterMembers;
        showClusterMember := showClusterMember;
        nominators := nominators;
        nominatorsRating := nominatorsRating;
        commission := commission;
        commissionHistory := commissionHistory;
        commissionRating := commissionRating;
        activeEras := activeEras;
        eraPointsHistory := eraPointsHistory;
        eraPointsPercent := eraPointsPercent;
        eraPointsRating := eraPointsRating;
        performance := performance;
        slashed := slashed;
        slashRating := slashRating;
        councilBacking := councilBacking;
        activeInGovernance := activeInGovernance;
        governanceRating := governanceRating;
        payoutHistory := payoutHistory;
        payoutRating := payoutRating;
        selfStake := selfStake;
        otherStake := otherStake;
        totalStake := totalStake;
        totalRating := totalRating |}).

(** [validators.map(callback)], from the first validator to the last. *)
Fixpoint scoreAll (st : ScoreState) (vs : list Validator.t)
  : option (ScoreState * list Scored) :=
  match vs with
  | [] => Some (st, [])
  | validator :: rest =>
      '(st1, s) ← scoreValidator st validator;
      '(st2, ss) ← scoreAll st1 rest;
      Some (st2, s :: ss)
  end.

End Scoring.

(** ** Ordering, rank and relative performance *)

(** [(a, b) => (a.totalRating < b.totalRating ? 1 : -1)] *)
Definition ratingComparefn (a b : Scored) : Z :=
  if totalRating a <? totalRating b then 1 else -1.

(** The callback of the second [map]; [index] is the position in the sorted array. *)
Definition withRank (minPerf maxPerf : JsNum.t) (index : nat) (validator : Scored) : Ranked :=
  let relativePerformance :=
    JsNum.toFixed 6
      (JsNum.div (JsNum.sub (performance validator) minPerf)
                 (JsNum.sub maxPerf minPerf)) in
  {| rank := Z.of_nat index + 1;
     relativePerformance := relativePerformance;
     scored := validator;
     dominated := false |}.

Definition rankStage (st : ScoreState) (scoredValidators : list Scored) : list Ranked :=
  imap (withRank (minPerformance st) (maxPerformance st))
    (Js.sort ratingComparefn scoredValidators).

(** ** Pareto dominance *)

(** The four comparisons of the dominance test. *)
Definition dominates (opponent validator : Ranked) : bool :=
  JsNum.geb (relativePerformance opponent) (relativePerformance validator)
  && (selfStake validator <=? selfStake opponent)
  && (activeEras validator <=? activeEras opponent)
  && (totalRating validator <=? totalRating opponent).

(** The loop over [ranking]; [opponent !== validator] compares the array
    slots, every slot holding an object of its own. *)
Definition isDominated (ranking : list Ranked) (index : nat) (validator : Ranked) : bool :=
  existsb (fun '(j, opponent) => negb (j =? index)%nat && dominates opponent validator)
    (imap pair ranking).

Definition dominanceStage (ranking : list Ranked) : list Ranked :=
  imap (fun index validator =>
          {| rank := rank validator;
             relativePerformance := relativePerformance validator;
             scored := scored validator;
             dominated := isDominated ranking index validator |})
    ranking.

(** ** Cluster-based hiding *)

(** The number of members to show for a cluster size; [0.2], [0.4], [0.6]
    and [0.8] are taken as the exact fractions. *)
Definition showFor (clusterSize : Z) : Z :=
  if 50 <? clusterSize then Qfloor (inject_Z clusterSize * (2 # 10))
  else if 20 <? clusterSize then Qfloor (inject_Z clusterSize * (4 # 10))
  else if 10 <? clusterSize then Qfloor (inject_Z clusterSize * (6 # 10))
  else if 2 <? clusterSize then Qfloor (inject_Z clusterSize * (8 # 10))
  else 2.

(** One turn of [for (const cluster of clusters)]: the ranks picked for
    hiding; [None] when no validator carries the cluster name. *)
Definition pickHidden (shuffled : list Z -> list Z) (ranking : list Ranked)
  (cluster : string) : option (list Z) :=
  let members := List.filter (fun v : Ranked => String.eqb (clusterName v) cluster) ranking in
  match members with
  | [] => None
  | first :: _ =>
      let clusterSize := clusterMembers first in
      let show := showFor clusterSize in
      let hide := clusterSize - show in
      let rankingPositions := map rank members in
      Some (getRandom shuffled rankingPositions hide)
  end.

(** The whole loop; [shuffle i] is the arrangement left by the [i]-th call
    of [getRandom]. *)
Fixpoint hideLoop (shuffle : nat -> list Z -> list Z) (ranking : list Ranked)
  (i : nat) (clusterNames : list string) (validatorsToHide : list Z) : option (list Z) :=
  match clusterNames with
  | [] => Some validatorsToHide
  | cluster :: rest =>
      picked ← pickHidden (shuffle i) ranking cluster;
      hideLoop shuffle ranking (S i) rest (validatorsToHide ++ picked)
  end.

(** A copy of the scored object with [showClusterMember] set. *)
Definition setShowClusterMember (shown : bool) (s : Scored) : Scored :=
  {| active := active s;
     activeRating := activeRating s;
     name := name s;
     hasSubIdentity := hasSubIdentity s;
     subAccountsRating := subAccountsRating s;
     verifiedIdentity := verifiedIdentity s;
     identityRating := identityRating s;
     stashAddress := stashAddress s;
     stashCreatedAtBlock := stashCreatedAtBlock s;
     stashParentCreatedAtBlock := stashParentCreatedAtBlock s;
     addressCreationRating := addressCreationRating s;
     controllerAddress := controllerAddress s;
     includedThousandValidators := includedThousandValidators s;
     partOfCluster := partOfCluster s;
     clusterName := clusterName s;
     clusterMembers := clusterMembers s;
     showClusterMember := shown;
     nominators := nominators s;
     nominatorsRating := nominatorsRating s;
     commission := commission s;
     commissionHistory := commissionHistory s;
     commissionRating := commissionRating s;
     activeEras := activeEras s;
     eraPointsHistory := eraPointsHistory s;
     eraPointsPercent := eraPointsPercent s;
     eraPointsRating := eraPointsRating s;
     performance := performance s;
     slashed := slashed s;
     slashRating := slashRating s;
     councilBacking := councilBacking s;
     activeInGovernance := activeInGovernance s;
     governanceRating := governanceRating s;
     payoutHistory := payoutHistory s;
     payoutRating := payoutRating s;
     selfStake := selfStake s;
     otherStake := otherStake s;
     totalStake := totalStake s;
     totalRating := totalRating s |}.

(** [modValidator.showClusterMember = false] *)
Definition hideMember (validator : Ranked) : Ranked :=
  {| rank := rank validator;
     relativePerformance := relativePerformance validator;
     scored := setShowClusterMember false (scored validator);
     dominated := dominated validator |}.

Definition applyHiding (validatorsToHide : list Z) (ranking : list Ranked) : list Ranked :=
  map (fun validator : Ranked =>
         if existsb (Z.eqb (rank validator)) validatorsToHide
         then hideMember validator
         else validator)
    ranking.

Definition hidingStage (shuffle : nat -> list Z -> list Z) (clusterNames : list string)
  (ranking : list Ranked) : option (list Ranked) :=
  validatorsToHide ← hideLoop shuffle ranking 0%nat clusterNames [];
  Some (applyHiding validatorsToHide ranking).

(** ** One run of the crawler *)

(** What one run reads from outside the process. *)
Record World : Type := {
  chain : Chain;
  event_rows : string -> list Z;
  thousand_response : option (list ThousandValidator);
  shuffle : nat -> list Z -> list Z
}.

(** [validators = validators.concat(intentions)] *)
Definition allValidators (w : World) : list Validator.t :=
  activeValidators (chain w) ++ waitingIntentions (chain w).

(** The first [map] of the body of [start], with the data it works on;
    [None] when a callback throws. *)
Definition scoreRun (config : Config) (w : World) : option (ScoreState * list Scored) :=
  let thousandValidators := getThousandValidators (thousand_response w) in
  let eras := eraIndexes config (chain w) in
  let erasPoints := derive_erasPoints (chain w) eras in
  let erasPreferences := derive_erasPrefs (chain w) eras in
  let erasSlashes := derive_erasSlashes (chain w) eras in
  let erasExposure := collectErasExposure (chain w) eras in
  let validators := allValidators w in
  let stashAddressesCreation := stashAddressesCreationOf (event_rows w) validators in
  scoreAll config thousandValidators (chain w) erasPoints erasPreferences erasSlashes
    erasExposure validators stashAddressesCreation initialScoreState validators.

(** The ranking that the body of [start] stores, from the data of one run;
    [None] when the body throws. *)
Definition computeRanking (config : Config) (w : World) : option (list Ranked) :=
  '(st, scoredValidators) ← scoreRun config w;
  let ranking := rankStage st scoredValidators in
  let ranking := dominanceStage ranking in
  hidingStage (shuffle w) (clusters st) ranking.

(** ** The scheduler

    [start] is an async function: between its call and its end the run is
    in flight while the event loop goes on.  The optional initial wait and
    the creation of the provider come before the [try] block and are part of
    that time.  The body of the [try] block touches no timer; what the
    scheduler sees of it is how it completes. *)

Module Scheduler.

(** The event loop as far as the crawler uses it: the clock in ms, the due
    times of the pending [setTimeout] callbacks (each one calls [start]),
    the runs in flight and the error lines logged. *)
Record Loop : Type := {
  clock : Z;
  timers : list Z;
  inflight : nat;
  errors : list string
}.

Inductive Completion (A : Type) : Type :=
| Returned (a : A)
| Thrown (error : string).

Arguments Returned {A} a.
Arguments Thrown {A} error.

(** Statements that read and change the loop and either return or throw. *)
Definition M (A : Type) : Type := Loop -> Loop * Completion A.

Definition ret {A} (a : A) : M A := fun l => (l, Returned a).

Definition bind {A B} (m : M A) (k : A -> M B) : M B :=
  fun l =>
    match m l with
    | (l', Returned a) => k a l'
    | (l', Thrown error) => (l', Thrown error)
    end.

(** [try { body } catch (error) { handler }] *)
Definition tryCatch {A} (body : M A) (handler : string -> M A) : M A :=
  fun l =>
    match body l with
    | (l', Returned a) => (l', Returned a)
    | (l', Thrown error) => handler error l'
    end.

Definition logger_error (line : string) : M unit :=
  fun l =>
    ({| clock := clock l; timers := timers l; inflight := inflight l;
        errors := errors l ++ [line] |}, Returned tt).

(** [setTimeout(() => module.exports.start(...), delay)] *)
Definition setTimeout (delay : Z) : M unit :=
  fun l =>
    ({| clock := clock l; timers := timers l ++ [clock l + delay];
        inflight := inflight l; errors := errors l |}, Returned tt).

(** [start] from the [try] block on. *)
Definition startTail (config : Config) (body : M unit) : M unit :=
  bind
    (tryCatch body
       (fun error => logger_error ("General error in ranking crawler: " ++ error)))
    (fun _ => setTimeout (pollingTime config)).

(** The body of the [try] block, completing as [completion]. *)
Definition pipelineBody (completion : Completion unit) : M unit :=
  fun l => (l, completion).

Definition advance (d : Z) (l : Loop) : Loop :=
  {| clock := clock l + d; timers := timers l; inflight := inflight l;
     errors := errors l |}.

Definition fire (before after : list Z) (l : Loop) : Loop :=
  {| clock := clock l; timers := before ++ after; inflight := S (inflight l);
     errors := errors l |}.

Definition land (l : Loop) : Loop :=
  {| clock := clock l; timers := timers l; inflight := pred (inflight l);
     errors := errors l |}.

(** The moves of the event loop: time passes; a due timer fires and calls
    [start]; a run in flight reaches the end of its body, runs the rest of
    [start] and ends. *)
Inductive step (config : Config) : Loop -> Loop -> Prop :=
| step_tick l d :
    0 <= d ->
    step config l (advance d l)
| step_fire l due before after :
    timers l = before ++ due :: after ->
    due <= clock l ->
    step config l (fire before after l)
| step_settle l completion l' result :
    (0 < inflight l)%nat ->
    startTail config (pipelineBody completion) l = (l', result) ->
    step config l (land l').

(** The crawler's entry point calls [start] once. *)
Definition initial : Loop :=
  {| clock := 0; timers := []; inflight := 1; errors := [] |}.

Definition reachable (config : Config) (l : Loop) : Prop :=
  rtc (step config) initial l.

End Scheduler.

(** ** The banded commission rating as the specification words it *)

(** "the oldest recorded commission in the window exceeds the newest",
    compared as numbers. *)
Definition trendingDown (commissionHistory : list CommissionEntry) : bool :=
  match commissionHistory !! 0%nat,
        commissionHistory !! (length commissionHistory - 1)%nat with
  | Some oldest, Some newest =>
      match ce_commission oldest, ce_commission newest with
      | Some a, Some b => JsNum.gtb a b
      | _, _ => false
      end
  | _, _ => false
  end.

Definition bandedCommissionRating (commission : Q) (commissionHistory : list CommissionEntry)
  : Z :=
  if Qeq_bool commission 0 || Qeq_bool commission 100 then 0
  else if negb (Qle_bool commission 10) then 1
  else if Qle_bool 5 commission && Qle_bool commission 10 then
    if (1 <? length commissionHistory)%nat && trendingDown commissionHistory then 3 else 2
  else 3.

(** ** Sample data *)

Module Sample.

Definition config : Config :=
  {| startDelay := 60000; pollingTime := 300000; historySize := 84; erasPerDay := 4;
     tokenDecimals := 12 |}.

Definition plainIdentity (display : option string) : Identity.t :=
  {| Identity.display := display;
     Identity.displayParent := None;
     Identity.legal := None;
     Identity.web := None;
     Identity.email := None;
     Identity.twitter := None;
     Identity.riot := None;
     Identity.parent := None;
     Identity.judgements := [] |}.

Definition stakingOf (account : string) (perbill own total bonded : Z)
  (others : list Exposure.individual) : StakingQuery.t :=
  {| StakingQuery.accountId := account;
     StakingQuery.stashId := account;
     StakingQuery.controllerId := account;
     StakingQuery.exposure :=
       {| Exposure.own := own; Exposure.total := total; Exposure.others := others |};
     StakingQuery.stakingLedger := {| Ledger.total := bonded; Ledger.claimedRewards := [] |};
     StakingQuery.validatorPrefs := {| Prefs.commission := perbill |} |}.

(** Two waiting validators, [P2P-1] and [P2P-2], 10 % commission, no era
    in the history. *)
Definition waitingPair : Chain :=
  {| block_number := 1000;
     erasHistoric := [];
     currentEra := 0;
     maxNominatorRewardedPerValidator := 256;
     session_validators := [];
     staking_query := fun account => stakingOf account 0 0 0 0 [];
     waitingInfo :=
       [stakingOf "A" 100000000 0 0 5 []; stakingOf "B" 100000000 0 0 5 []];
     staking_nominators := [];
     council_votes := [];
     derive_erasPoints := fun _ => [];
     derive_erasPrefs := fun _ => [];
     derive_erasSlashes := fun _ => [];
     derive_eraExposure :=
       fun era => {| EraExposure.era := era; EraExposure.validators := ∅ |};
     democracy_proposals := [];
     democracy_referendums := [];
     accounts_info :=
       fun account =>
         if String.eqb account "A" then plainIdentity (Some "P2P-1")
         else plainIdentity (Some "P2P-2") |}.

Definition waitingWorld (shuffle : nat -> list Z -> list Z) : World :=
  {| chain := waitingPair;
     event_rows := fun _ => [];
     thousand_response := None;
     shuffle := shuffle |}.

Definition stakedExposure : Exposure.t :=
  {| Exposure.own := 1000000000000;
     Exposure.total := 1000000000000;
     Exposure.others := [] |}.

(** Two active validators over one era: [V1] earned 10 points, [V2] 20,
    each with one token at stake and 3 % commission; [V1] is nominated with
    5 and with 3 units. *)
Definition activePair : Chain :=
  {| block_number := 1000;
     erasHistoric := [7];
     currentEra := 8;
     maxNominatorRewardedPerValidator := 256;
     session_validators := ["V1"; "V2"];
     staking_query :=
       fun account =>
         if String.eqb account "V1"
         then stakingOf account 30000000 1000000000000 1000000000008 1000000000000
                [{| Exposure.who := "N1"; Exposure.value := 5 |};
                 {| Exposure.who := "N2"; Exposure.value := 3 |}]
         else stakingOf account 30000000 1000000000000 1000000000000 1000000000000 [];
     waitingInfo := [];
     staking_nominators := [("N1", ["V1"]); ("N2", ["V1"])];
     council_votes := [];
     derive_erasPoints :=
       map (fun era =>
              {| EraPoints.era := era;
                 EraPoints.eraPoints := 30;
                 EraPoints.validators := <["V1" := 10]> (<["V2" := 20]> ∅) |});
     derive_erasPrefs :=
       map (fun era =>
              {| EraPrefs.era := era;
                 EraPrefs.validators :=
                   <["V1" := {| Prefs.commission := 30000000 |}]>
                     (<["V2" := {| Prefs.commission := 30000000 |}]> ∅) |});
     derive_erasSlashes :=
       map (fun era => {| EraSlashes.era := era; EraSlashes.validators := ∅ |});
     derive_eraExposure :=
       fun era =>
         {| EraExposure.era := era;
            EraExposure.validators :=
              <["V1" := stakedExposure]> (<["V2" := stakedExposure]> ∅) |};
     democracy_proposals := [];
     democracy_referendums := [];
     accounts_info := fun account => plainIdentity (Some account) |}.

Definition activeWorld : World :=
  {| chain := activePair;
     event_rows := fun _ => [];
     thousand_response := None;
     shuffle := fun _ positions => positions |}.

Definition totalRows : gmap string string :=
  <["minimum_stake" := "0"]> (<["current_era" := "0"]> ∅).

(** A trending-down history: 12 % in the oldest era, 7 % in the newest. *)
Definition fallingHistory : list CommissionEntry :=
  [ {| ce_era := "1"; ce_commission := Some (JsNum.Num (1200 # 100)) |};
    {| ce_era := "2"; ce_commission := Some (JsNum.Num (700 # 100)) |} ].

End Sample.

(** ** More sample data *)

Module Family.

(** Three waiting validators that are sub-identities of one parent
    identity displayed as [W3F]. *)
Definition subIdentityOf (parentDisplay display : string) : Identity.t :=
  {| Identity.display := Some display;
     Identity.displayParent := Some parentDisplay;
     Identity.legal := None;
     Identity.web := None;
     Identity.email := None;
     Identity.twitter := None;
     Identity.riot := None;
     Identity.parent := Some "PARENT"%string;
     Identity.judgements := [] |}.

Definition trio : Chain :=
  {| block_number := 1000;
     erasHistoric := [];
     currentEra := 0;
     maxNominatorRewardedPerValidator := 256;
     session_validators := [];
     staking_query := fun account => Sample.stakingOf account 0 0 0 0 [];
     waitingInfo :=
       [Sample.stakingOf "X" 100000000 0 0 5 [];
        Sample.stakingOf "Y" 100000000 0 0 5 [];
        Sample.stakingOf "Z" 100000000 0 0 5 []];
     staking_nominators := [];
     council_votes := [];
     derive_erasPoints := fun _ => [];
     derive_erasPrefs := fun _ => [];
     derive_erasSlashes := fun _ => [];
     derive_eraExposure :=
       fun era => {| EraExposure.era := era; EraExposure.validators := ∅ |};
     democracy_proposals := [];
     democracy_referendums := [];
     accounts_info := fun account => subIdentityOf "W3F" account |}.

Definition world : World :=
  {| chain := trio;
     event_rows := fun _ => [];
     thousand_response := Some [{| stash := "Y" |}];
     shuffle := fun _ positions => rev positions |}.

End Family.

Module Bench.

(** The two active validators of [Sample.activePair] and a waiting
    validator [W] that earned no point in the one era of the window. *)
Definition benched : Chain :=
  {| block_number := block_number Sample.activePair;
     erasHistoric := erasHistoric Sample.activePair;
     currentEra := currentEra Sample.activePair;
     maxNominatorRewardedPerValidator := maxNominatorRewardedPerValidator Sample.activePair;
     session_validators := session_validators Sample.activePair;
     staking_query := staking_query Sample.activePair;
     waitingInfo := [Sample.stakingOf "W" 100000000 0 0 5 []];
     staking_nominators := staking_nominators Sample.activePair;
     council_votes := council_votes Sample.activePair;
     derive_erasPoints := derive_erasPoints Sample.activePair;
     derive_erasPrefs := derive_erasPrefs Sample.activePair;
     derive_erasSlashes := derive_erasSlashes Sample.activePair;
     derive_eraExposure := derive_eraExposure Sample.activePair;
     democracy_proposals := democracy_proposals Sample.activePair;
     democracy_referendums := democracy_referendums Sample.activePair;
     accounts_info := accounts_info Sample.activePair |}.

Definition world : World :=
  {| chain := benched;
     event_rows := fun _ => [];
     thousand_response := None;
     shuffle := fun _ positions => positions |}.

End Bench.

(** ** Storing the ranking *)

(** A row of the [ranking] table, as far as its generation matters: the
    [block_height] and [timestamp] columns and the validator the other
    columns are printed from. *)
Record RankingRow : Type := {
  row_block_height : Z;
  row_validator : Ranked;
  row_timestamp : Z
}.

(** The loop of [INSERT INTO ranking ...]: [accepted table row] tells
    whether the query succeeds on the table as it is; a query that throws is
    logged and the loop goes on. *)
Definition rowOf (height startTime : Z) (validator : Ranked) : RankingRow :=
  {| row_block_height := height;
     row_validator := validator;
     row_timestamp := startTime |}.

Definition insertRanking (accepted : list RankingRow -> RankingRow -> bool) (height startTime : Z)
  (table : list RankingRow) (ranking : list Ranked) : list RankingRow :=
  fold_left
    (fun table validator =>
       let row := rowOf height startTime validator in
       if accepted table row then table ++ [row] else table)
    ranking table.

(** [DELETE FROM ranking WHERE block_height != '...'], which may throw too. *)
Definition cleanOldData (deleted : bool) (height : Z) (table : list RankingRow) : list RankingRow :=
  if deleted then List.filter (fun row => negb (negb (row_block_height row =? height))) table
  else table.

Definition storeRanking (accepted : list RankingRow -> RankingRow -> bool) (deleted : bool)
  (height startTime : Z) (table : list RankingRow) (ranking : list Ranked) : list RankingRow :=
  cleanOldData deleted height (insertRanking accepted height startTime table ranking).

(** ** Predicates of the statements *)

(** Sorted by [totalRating], largest first. *)
Definition descending (l : list Scored) : Prop :=
  StronglySorted (fun a b => totalRating b <= totalRating a) l.

Definition hasRating (r : Z) (s : Scored) : bool := totalRating s =? r.

(** Two scored objects that differ at most in [showClusterMember]. *)
Definition sameScore (a b : Scored) : Prop :=
  setShowClusterMember true a = setShowClusterMember true b.

(** A stored validator [v] against the object [v0] the rank stage made. *)
Record finalOf (v0 v : Ranked) : Prop := {
  final_rank : rank v = rank v0;
  final_relative : relativePerformance v = relativePerformance v0;
  final_score : sameScore v v0
}.

(** The total is the sum of the ten component ratings, each within its range. *)
Definition ratedWithinRanges (s : Scored) : Prop :=
  totalRating s
  = activeRating s + addressCreationRating s + identityRating s + subAccountsRating s
    + nominatorsRating s + commissionRating s + eraPointsRating s + slashRating s
    + governanceRating s + payoutRating s
  /\ In (activeRating s) [0; 2]
  /\ In (subAccountsRating s) [0; 2]
  /\ In (nominatorsRating s) [0; 2]
  /\ In (eraPointsRating s) [0; 2]
  /\ In (slashRating s) [0; 2]
  /\ In (governanceRating s) [0; 2; 3]
  /\ In (addressCreationRating s) [0; 1; 2; 3]
  /\ In (identityRating s) [0; 1; 2; 3]
  /\ In (commissionRating s) [0; 1; 2; 3]
  /\ In (payoutRating s) [0; 1; 2; 3].

(** [identity.display && identity.legal && ... && identity.riot] of [parseIdentity] *)
Definition hasAllFields (identity : Identity.t) : bool :=
  Js.truthy (Identity.display identity)
  && Js.truthy (Identity.legal identity)
  && Js.truthy (Identity.web identity)
  && Js.truthy (Identity.email identity)
  && Js.truthy (Identity.twitter identity)
  && Js.truthy (Identity.riot identity).

Definition pendingCount (payoutHistory : list PayoutEntry) : nat :=
  length (List.filter isPending payoutHistory).

(** An era in which the validator was active: [paid] or [pending]. *)
Definition isActiveEntry (entry : PayoutEntry) : bool :=
  match status entry with inactive => false | _ => true end.

(** The exposure that the era loop reads for [stashAddress] in the era of
    [eraPoints]. *)
Definition exposureFor (erasExposure : list EraExposure.t) (eraPoints : EraPoints.t)
  (stashAddress : string) : option Exposure.t :=
  eraExposure ← List.find (fun e => EraExposure.era e =? EraPoints.era eraPoints) erasExposure;
  EraExposure.validators eraExposure !! stashAddress.

(** Membership of a cluster by name, as the hiding loop filters it, and the
    flag it clears. *)
Definition inCluster (cluster : string) (v : Ranked) : bool :=
  String.eqb (clusterName v) cluster.

Definition isHidden (v : Ranked) : bool := negb (showClusterMember v).

(** The block an address is taken to be created at, from the rows of its
    query: the first row's block number, 0 when there is no row, nothing
    when the first row's block number is falsy. *)
Definition creationOf (rows : list Z) : option Z :=
  match rows with
  | [] => Some 0
  | block_number :: _ => if block_number =? 0 then None else Some block_number
  end.

(** The addresses the creation loop queries: stashes and identity parents. *)
Definition queried (validators : list Validator.t) (address : string) : Prop :=
  exists validator,
    validator ∈ validators
    /\ (Validator.stashId validator = address
        \/ Identity.parent (Validator.identity validator) = Some address).

(** * Properties *)

(** ** The definitions at work *)

(** The samples of the source comment, and two short names. *)
Example cluster_names_of_samples :
  map (fun d => fst (getClusterInfo false [] (Sample.plainIdentity (Some d))))
    ["DISC-SOFT-01"; "BINANCE_KSM_9"; "SNZPool-1"; "P2P-1"; "node123"]%string
  = ["DISC-SOFT"; "BINANCE_KSM"; "SNZPool"; "P2P"; "node1"]%string.
Proof. reflexivity. Qed.

Example showFor_bands :
  map showFor [1; 2; 3; 10; 11; 12; 20; 21; 50; 51; 100]
  = [2; 2; 2; 8; 6; 7; 12; 8; 20; 10; 20].
Proof. reflexivity. Qed.

Example sort_equal_keys_reversed :
  Js.sort (fun a b : Z * string => if fst a <? fst b then 1 else -1)
    [(1, "a"); (2, "b"); (1, "c"); (2, "d")]%string
  = [(2, "d"); (2, "b"); (1, "c"); (1, "a")]%string.
Proof. reflexivity. Qed.

Example sort_stakes_unmoved : Js.sort stakeComparefn [5; 3; 9; 1] = [5; 3; 9; 1].
Proof. reflexivity. Qed.

Example slice0_cases :
  (Js.slice0 [1; 2; 3] (-1), Js.slice0 [1; 2; 3] 2, Js.slice0 [1] (-1), Js.slice0 [1; 2] 5)
  = ([1; 2], [1; 2], [], [1; 2]).
Proof. reflexivity. Qed.

Example toFixed_third :
  JsNum.toFixed 6 (JsNum.div (JsNum.Num 1) (JsNum.Num 3)) = JsNum.Num (333333 # 1000000).
Proof. reflexivity. Qed.

Example zero_over_zero : JsNum.div (JsNum.Num 0) (JsNum.Num 0) = JsNum.NaN.
Proof. reflexivity. Qed.

Example payoutRating_bands :
  map (fun n => getPayoutRating (repeat {| ph_era := "1"; status := pending |} n)
                  Sample.config)
    [0; 4; 5; 12; 13; 27; 28]%nat
  = [3; 3; 2; 2; 1; 1; 0].
Proof. reflexivity. Qed.

Example commissionRating_bands :
  map (fun c => getCommissionRating c []) [0; 3; 5; 7; 10; 21 # 2; 100]%Q
  = [0; 3; 2; 2; 2; 1; 0].
Proof. reflexivity. Qed.

(** ** The sort *)

Section SortFacts.

Context {A : Type}.
Variable comparefn : A -> A -> Z.

Lemma sort_insert_perm (x : A) (sorted : list A) :
  Js.sort_insert comparefn x sorted ≡ₚ x :: sorted.
Proof.
  induction sorted as [|e rest IH]; simpl.
  - reflexivity.
  - destruct (comparefn x e <? 0).
    + reflexivity.
    + rewrite IH. apply Permutation_swap.
Qed.

Lemma sort_from_perm (arr sorted : list A) :
  fold_left (fun acc x => Js.sort_insert comparefn x acc) arr sorted ≡ₚ sorted ++ arr.
Proof.
  revert sorted. induction arr as [|x arr IH]; intros sorted; simpl.
  - by rewrite app_nil_r.
  - rewrite IH, sort_insert_perm. simpl. apply Permutation_middle.
Qed.

Lemma sort_perm (arr : list A) : Js.sort comparefn arr ≡ₚ arr.
Proof. unfold Js.sort. by rewrite sort_from_perm. Qed.

Lemma sort_length (arr : list A) : length (Js.sort comparefn arr) = length arr.
Proof. by rewrite sort_perm. Qed.

Lemma sort_elem_of (x : A) (arr : list A) : x ∈ Js.sort comparefn arr ↔ x ∈ arr.
Proof. by rewrite sort_perm. Qed.

(** When no comparison is ever negative nothing moves. *)
Lemma sort_insert_never_negative (x : A) (sorted : list A) :
  (forall a b, 0 <= comparefn a b) ->
  Js.sort_insert comparefn x sorted = sorted ++ [x].
Proof.
  intros Hnn. induction sorted as [|e rest IH]; simpl; [done|].
  destruct (Z.ltb_spec (comparefn x e) 0) as [Hlt|_].
  - specialize (Hnn x e). lia.
  - by rewrite IH.
Qed.

Lemma sort_never_negative (arr : list A) :
  (forall a b, 0 <= comparefn a b) ->
  Js.sort comparefn arr = arr.
Proof.
  intros Hnn. unfold Js.sort.
  assert (forall sorted,
    fold_left (fun acc x => Js.sort_insert comparefn x acc) arr sorted = sorted ++ arr)
    as Hgen.
  { induction arr as [|x rest IH]; intros sorted; simpl.
    - by rewrite app_nil_r.
    - rewrite IH, sort_insert_never_negative by done. by rewrite <- app_assoc. }
  apply Hgen.
Qed.

End SortFacts.

(** ** The order of the ranking *)

Lemma rating_insert_descending (x : Scored) (sorted : list Scored) :
  descending sorted -> descending (Js.sort_insert ratingComparefn x sorted).
Proof.
  unfold descending. induction 1 as [|e rest Hrest IH He]; simpl.
  - repeat constructor.
  - unfold ratingComparefn at 1.
    destruct (Z.ltb_spec (totalRating x) (totalRating e)) as [Hlt|Hge]; simpl.
    + constructor; [exact IH|].
      apply Forall_forall. intros y Hy.
      rewrite sort_insert_perm in Hy.
      apply elem_of_cons in Hy as [->|Hy]; [lia|].
      rewrite Forall_forall in He. by apply He.
    + constructor; [by constructor|].
      constructor; [lia|].
      eapply Forall_impl; [exact He|]. simpl. intros; lia.
Qed.

Lemma rating_sort_descending (l : list Scored) :
  descending (Js.sort ratingComparefn l).
Proof.
  unfold Js.sort.
  assert (forall sorted, descending sorted ->
    descending (fold_left (fun acc x => Js.sort_insert ratingComparefn x acc) l sorted))
    as Hgen.
  { induction l as [|x rest IH]; intros sorted Hs; simpl; [done|].
    apply IH. by apply rating_insert_descending. }
  apply Hgen. constructor.
Qed.

(** Among equal ratings the element inserted last comes first. *)
Lemma rating_insert_ties (r : Z) (x : Scored) (sorted : list Scored) :
  List.filter (hasRating r) (Js.sort_insert ratingComparefn x sorted)
  = List.filter (hasRating r) (x :: sorted).
Proof.
  induction sorted as [|e rest IH]; [done|].
  cbn [Js.sort_insert]. unfold ratingComparefn at 1.
  destruct (Z.ltb_spec (totalRating x) (totalRating e)) as [Hlt|Hge]; [|done].
  change (1 <? 0) with false. cbv iota.
  cbn [List.filter] in *. rewrite IH.
  unfold hasRating.
  destruct (Z.eqb_spec (totalRating x) r), (Z.eqb_spec (totalRating e) r);
    try done; lia.
Qed.

Lemma rating_sort_ties (r : Z) (l : list Scored) :
  List.filter (hasRating r) (Js.sort ratingComparefn l)
  = rev (List.filter (hasRating r) l).
Proof.
  unfold Js.sort.
  assert (forall sorted,
    List.filter (hasRating r)
      (fold_left (fun acc x => Js.sort_insert ratingComparefn x acc) l sorted)
    = rev (List.filter (hasRating r) l) ++ List.filter (hasRating r) sorted) as Hgen.
  { induction l as [|x rest IH]; intros sorted; simpl; [done|].
    rewrite IH, rating_insert_ties. simpl.
    destruct (hasRating r x); simpl; [|done].
    by rewrite <- app_assoc. }
  rewrite Hgen. simpl. by rewrite app_nil_r.
Qed.

(** ** The stages after scoring *)

Lemma sameScore_field {X} (f : Scored -> X) (a b : Scored) :
  (forall shown s, f (setShowClusterMember shown s) = f s) ->
  sameScore a b -> f a = f b.
Proof.
  intros Hf Hab. rewrite <- (Hf true a), <- (Hf true b). by rewrite Hab.
Qed.

Ltac same_field H f :=
  apply (sameScore_field f) in H; [|by intros ? []].

Lemma rankStage_lookup (st : ScoreState) (l : list Scored) (i : nat) :
  rankStage st l !! i
  = withRank (minPerformance st) (maxPerformance st) i <$> (Js.sort ratingComparefn l !! i).
Proof. apply list_lookup_imap. Qed.

Lemma rankStage_length (st : ScoreState) (l : list Scored) :
  length (rankStage st l) = length l.
Proof. unfold rankStage. by rewrite length_imap, sort_length. Qed.

Lemma dominanceStage_lookup (ranking : list Ranked) (i : nat) (v : Ranked) :
  dominanceStage ranking !! i = Some v ->
  exists v0, ranking !! i = Some v0 /\ finalOf v0 v
             /\ dominated v = isDominated ranking i v0.
Proof.
  unfold dominanceStage. rewrite list_lookup_imap.
  destruct (ranking !! i) as [v0|]; [|done].
  intros [= <-]. exists v0. by repeat split.
Qed.

Lemma applyHiding_lookup (hidden : list Z) (ranking : list Ranked) (i : nat) (v : Ranked) :
  applyHiding hidden ranking !! i = Some v ->
  exists v0, ranking !! i = Some v0 /\ finalOf v0 v /\ dominated v = dominated v0.
Proof.
  unfold applyHiding. rewrite list_lookup_fmap.
  destruct (ranking !! i) as [v0|]; [|done]. simpl.
  intros [= <-]. exists v0. split; [done|].
  destruct (existsb _ _); by repeat split.
Qed.

(** What every stored validator is made of. *)
Lemma computeRanking_lookup (config : Config) (w : World) (ranking : list Ranked) :
  computeRanking config w = Some ranking ->
  exists st scoredValidators,
    scoreRun config w = Some (st, scoredValidators)
    /\ length ranking = length scoredValidators
    /\ forall i v, ranking !! i = Some v ->
         exists v0, rankStage st scoredValidators !! i = Some v0
                    /\ finalOf v0 v
                    /\ dominated v = isDominated (rankStage st scoredValidators) i v0.
Proof.
  unfold computeRanking. intros Hrun.
  destruct (scoreRun config w) as [[st scoredValidators]|]; [|done].
  simpl in Hrun. unfold hidingStage in Hrun.
  destruct (hideLoop _ _ _ _ _) as [hidden|]; [|done].
  simpl in Hrun. injection Hrun as <-.
  exists st, scoredValidators. split; [done|]. split.
  - unfold applyHiding, dominanceStage.
    by rewrite length_map, length_imap, rankStage_length.
  - intros i v Hv.
    apply applyHiding_lookup in Hv as (v1 & Hv1 & [H1 H2 H3] & Hd1).
    apply dominanceStage_lookup in Hv1 as (v0 & Hv0 & [H4 H5 H6] & Hd0).
    exists v0. split; [done|]. split.
    + split; [congruence|congruence|]. unfold sameScore in *. congruence.
    + congruence.
Qed.

(** ** The scoring callback *)

Lemma getIdentityRating_range (name : string) (verified allFields : bool) :
  In (getIdentityRating name verified allFields) [0; 1; 2; 3].
Proof.
  unfold getIdentityRating.
  destruct verified, allFields, (String.eqb name ""); simpl; tauto.
Qed.

Lemma addressRatingOf_range (best : option Z) (height : Z) :
  In (addressRatingOf best height) [0; 1; 2; 3].
Proof.
  unfold addressRatingOf.
  repeat (destruct (within_quarters _ _ _)); simpl; tauto.
Qed.

Lemma getCommissionRating_range (commission : Q) (history : list CommissionEntry) :
  In (getCommissionRating commission history) [0; 1; 2; 3].
Proof.
  unfold getCommissionRating.
  repeat match goal with
         | |- context [if ?b then _ else _] => destruct b
         end; simpl; tauto.
Qed.

Lemma getPayoutRating_range (history : list PayoutEntry) (config : Config) :
  In (getPayoutRating history config) [0; 1; 2; 3].
Proof.
  unfold getPayoutRating.
  repeat match goal with
         | |- context [if ?b then _ else _] => destruct b
         end; simpl; tauto.
Qed.

Section ScoringFacts.

Variable config : Config.
Variable thousandValidators : list ThousandValidator.
Variable chain : Chain.
Variable erasPoints : list EraPoints.t.
Variable erasPreferences : list EraPrefs.t.
Variable erasSlashes : list EraSlashes.t.
Variable erasExposure : list EraExposure.t.
Variable validators : list Validator.t.
Variable stashAddressesCreation : gmap string Z.

Let score := scoreValidator config thousandValidators chain erasPoints erasPreferences
               erasSlashes erasExposure validators stashAddressesCreation.

Let scoreList := scoreAll config thousandValidators chain erasPoints erasPreferences
                   erasSlashes erasExposure validators stashAddressesCreation.

(** Every element of the scored array is the callback's answer for the
    validator at the same position. *)
Lemma scoreAll_Forall2 (vs : list Validator.t) (st st' : ScoreState) (ss : list Scored) :
  scoreList st vs = Some (st', ss) ->
  Forall2 (fun v s => exists st0 st1, score st0 v = Some (st1, s)) vs ss.
Proof.
  revert st st' ss. induction vs as [|v rest IH]; intros st st' ss; simpl.
  - intros [= <- <-]. constructor.
  - unfold scoreList in *. simpl.
    destruct (scoreValidator _ _ _ _ _ _ _ _ _ st v) as [[st1 s]|] eqn:Hv; [|done].
    simpl.
    destruct (scoreAll _ _ _ _ _ _ _ _ _ st1 rest) as [[st2 ss']|] eqn:Hrest; [|done].
    simpl. intros [= <- <-]. constructor; [by exists st, st1|].
    by eapply IH.
Qed.

Lemma scoreValidator_rated (st st' : ScoreState) (v : Validator.t) (s : Scored) :
  score st v = Some (st', s) -> ratedWithinRanges s.
Proof.
  unfold score, scoreValidator.
  destruct (getClusterInfo _ _ _) as [cName cMembers].
  destruct (eraLoop _ _ _ _ _ _ _) as [loop|]; [|done].
  simpl. intros [= <- <-]. unfold ratedWithinRanges. simpl.
  split; [reflexivity|].
  split; [destruct (Validator.active v); simpl; tauto|].
  split; [destruct (subIdentity _); simpl; tauto|].
  split; [destruct (_ && _); simpl; tauto|].
  split; [destruct (JsNum.gtb _ _); simpl; tauto|].
  split; [destruct (_ <? _)%nat; simpl; tauto|].
  split.
  { destruct (Identity.parent _);
      repeat match goal with
             | |- context [if ?b then _ else _] => destruct b
             end; simpl; tauto. }
  split; [destruct (Identity.parent _); apply addressRatingOf_range|].
  split; [apply getIdentityRating_range|].
  split; [apply getCommissionRating_range|apply getPayoutRating_range].
Qed.

Lemma scoreValidator_stash (st st' : ScoreState) (v : Validator.t) (s : Scored) :
  score st v = Some (st', s) -> stashAddress s = Validator.stashId v.
Proof.
  unfold score, scoreValidator.
  destruct (getClusterInfo _ _ _) as [cName cMembers].
  destruct (eraLoop _ _ _ _ _ _ _) as [loop|]; [|done].
  simpl. by intros [= <- <-].
Qed.

Lemma scoreValidator_shown (st st' : ScoreState) (v : Validator.t) (s : Scored) :
  score st v = Some (st', s) -> showClusterMember s = true.
Proof.
  unfold score, scoreValidator.
  destruct (getClusterInfo _ _ _) as [cName cMembers].
  destruct (eraLoop _ _ _ _ _ _ _) as [loop|]; [|done].
  simpl. by intros [= <- <-].
Qed.

Lemma scoreValidator_thousand (st st' : ScoreState) (v : Validator.t) (s : Scored) :
  score st v = Some (st', s) ->
  includedThousandValidators s
  = existsb (fun tv => String.eqb (stash tv) (Validator.stashId v)) thousandValidators.
Proof.
  unfold score, scoreValidator.
  destruct (getClusterInfo _ _ _) as [cName cMembers].
  destruct (eraLoop _ _ _ _ _ _ _) as [loop|]; [|done].
  simpl. by intros [= <- <-].
Qed.

Lemma eraTurn_histories (v : Validator.t) (stashAddress : string) (commission : Q)
  (loop loop' : EraLoop) (eraPoints : EraPoints.t) :
  eraTurn config erasExposure v stashAddress commission loop eraPoints = Some loop' ->
  map eph_era (loop_eraPointsHistory loop')
  = map eph_era (loop_eraPointsHistory loop) ++ [era_text (EraPoints.era eraPoints)]
  /\ map ph_era (loop_payoutHistory loop')
     = map ph_era (loop_payoutHistory loop) ++ [era_text (EraPoints.era eraPoints)].
Proof.
  unfold eraTurn.
  destruct (EraPoints.validators eraPoints !! stashAddress) as [pts|].
  - destruct (List.find _ erasExposure) as [eraExposure|]; [|done]. simpl.
    destruct (EraExposure.validators eraExposure !! stashAddress) as [exposed|]; [|done].
    simpl. intros [= <-]. simpl. by rewrite !map_app.
  - intros [= <-]. simpl. by rewrite !map_app.
Qed.

Lemma eraLoop_histories (v : Validator.t) (stashAddress : string) (commission : Q)
  (eras : list EraPoints.t) (loop loop' : EraLoop) :
  eraLoop config erasExposure v stashAddress commission loop eras = Some loop' ->
  map eph_era (loop_eraPointsHistory loop')
  = map eph_era (loop_eraPointsHistory loop) ++ map era_text (map EraPoints.era eras)
  /\ map ph_era (loop_payoutHistory loop')
     = map ph_era (loop_payoutHistory loop) ++ map era_text (map EraPoints.era eras).
Proof.
  revert loop. induction eras as [|eraPoints rest IH]; intros loop; simpl.
  - intros [= <-]. by rewrite !app_nil_r.
  - destruct (eraTurn _ _ _ _ _ loop eraPoints) as [loop1|] eqn:Hturn; [|done].
    simpl. intros Hrest.
    apply eraTurn_histories in Hturn as [Hp Hq].
    apply IH in Hrest as [Hp' Hq'].
    rewrite Hp', Hq', Hp, Hq, <- !app_assoc. done.
Qed.

Lemma scoreValidator_histories (st st' : ScoreState) (v : Validator.t) (s : Scored) :
  score st v = Some (st', s) ->
  map eph_era (eraPointsHistory s) = map era_text (map EraPoints.era erasPoints)
  /\ map ph_era (payoutHistory s) = map era_text (map EraPoints.era erasPoints)
  /\ commissionHistory s = getCommissionHistory (Validator.accountId v) erasPreferences.
Proof.
  unfold score, scoreValidator.
  destruct (getClusterInfo _ _ _) as [cName cMembers].
  destruct (eraLoop _ _ _ _ _ _ _) as [loop|] eqn:Hloop; [|done].
  simpl. intros [= <- <-]. simpl.
  apply eraLoop_histories in Hloop as [Hp Hq]. by rewrite Hp, Hq.
Qed.

Lemma scoreValidator_extremes (st st' : ScoreState) (v : Validator.t) (s : Scored) :
  score st v = Some (st', s) ->
  maxPerformance st'
  = (if JsNum.gtb (performance s) (maxPerformance st)
     then performance s else maxPerformance st)
  /\ minPerformance st'
     = (if JsNum.ltb (performance s) (minPerformance st)
        then performance s else minPerformance st).
Proof.
  unfold score, scoreValidator.
  destruct (getClusterInfo _ _ _) as [cName cMembers].
  destruct (eraLoop _ _ _ _ _ _ _) as [loop|]; [|done].
  simpl. by intros [= <- <-].
Qed.

(** With performances that are non-negative numbers, [minPerformance]
    keeps its initial 0 and [maxPerformance] ends as the greatest of its
    initial value and the performances. *)
Lemma scoreAll_extremes (vs : list Validator.t) (st st' : ScoreState) (ss : list Scored)
  (m : Q) :
  scoreList st vs = Some (st', ss) ->
  (forall s, s ∈ ss -> exists p, performance s = JsNum.Num p /\ (0 <= p)%Q) ->
  maxPerformance st = JsNum.Num m ->
  minPerformance st = JsNum.Num 0 ->
  minPerformance st' = JsNum.Num 0
  /\ exists top,
       maxPerformance st' = JsNum.Num top
       /\ (m <= top)%Q
       /\ (forall s p, s ∈ ss -> performance s = JsNum.Num p -> (p <= top)%Q)
       /\ (top = m \/ exists s, s ∈ ss /\ performance s = JsNum.Num top).
Proof.
  revert st st' ss m. induction vs as [|v rest IH]; intros st st' ss m; simpl.
  - intros [= <- <-] _ Hmax Hmin. split; [done|].
    exists m. split; [done|]. split; [lra|]. split; [|by left].
    intros s p Hs. by apply elem_of_nil in Hs.
  - unfold scoreList in *. simpl.
    destruct (scoreValidator _ _ _ _ _ _ _ _ _ st v) as [[st1 s]|] eqn:Hv; [|done].
    simpl.
    destruct (scoreAll _ _ _ _ _ _ _ _ _ st1 rest) as [[st2 ss']|] eqn:Hrest; [|done].
    simpl. intros [= <- <-] Hperf Hmax Hmin.
    apply scoreValidator_extremes in Hv as [Hmax1 Hmin1].
    destruct (Hperf s) as (p & Hp & Hp0); [by left|].
    rewrite Hp, Hmax in Hmax1. rewrite Hp, Hmin in Hmin1.
    simpl in Hmax1, Hmin1.
    apply Qle_bool_iff in Hp0 as Hp0b. rewrite Hp0b in Hmin1. simpl in Hmin1.
    destruct (Qle_bool p m) eqn:Hpm; simpl in Hmax1.
    + apply Qle_bool_iff in Hpm.
      destruct (IH st1 st2 ss' m Hrest) as (Hmin2 & top & Htop & Hle & Hall & Hatt);
        [by intros; apply Hperf; right|done|done|].
      split; [done|]. exists top. split; [done|]. split; [done|]. split.
      * intros s0 p0 [->|Hin]%elem_of_cons Hs0; [|by eapply Hall].
        rewrite Hp in Hs0. injection Hs0 as <-. lra.
      * destruct Hatt as [->|(s0 & Hin & Hs0)]; [by left|].
        right. exists s0. split; [by right|done].
    + assert (~ (p <= m)%Q) as Hlt.
      { intros Hle%Qle_bool_iff. congruence. }
      destruct (IH st1 st2 ss' p Hrest) as (Hmin2 & top & Htop & Hle & Hall & Hatt);
        [by intros; apply Hperf; right|done|done|].
      split; [done|]. exists top. split; [done|]. split; [lra|]. split.
      * intros s0 p0 [->|Hin]%elem_of_cons Hs0; [|by eapply Hall].
        rewrite Hp in Hs0. by injection Hs0 as <-.
      * right. destruct Hatt as [->|(s0 & Hin & Hs0)].
        -- exists s. split; [by left|done].
        -- exists s0. split; [by right|done].
Qed.

End ScoringFacts.

Lemma getCommissionHistory_eras (accountId : string) (erasPreferences : list EraPrefs.t) :
  map ce_era (getCommissionHistory accountId erasPreferences)
  = map era_text (map EraPrefs.era erasPreferences).
Proof.
  unfold getCommissionHistory.
  set (turn := fun (history : list CommissionEntry) (prefs : EraPrefs.t) => _).
  assert (forall history,
    map ce_era (fold_left turn erasPreferences history)
    = map ce_era history ++ map era_text (map EraPrefs.era erasPreferences)) as Hgen.
  { induction erasPreferences as [|prefs rest IH]; intros history; simpl.
    - by rewrite app_nil_r.
    - rewrite IH. unfold turn.
      destruct (EraPrefs.validators prefs !! accountId);
        by rewrite map_app, <- app_assoc. }
  by rewrite Hgen.
Qed.

Lemma eraIndexes_length (config : Config) (chain : Chain) :
  0 <= historySize config ->
  length (eraIndexes config chain)
  = Z.to_nat (Z.min (historySize config) (Z.of_nat (length (erasHistoric chain)))).
Proof.
  intros Hsize. unfold eraIndexes, Js.slice_from. rewrite length_skipn. lia.
Qed.

(** Every stored validator is the callback's answer for some validator of
    the run, up to [showClusterMember]. *)
Lemma stored_from_scoring (config : Config) (w : World) (ranking : list Ranked)
  (v : Ranked) :
  computeRanking config w = Some ranking ->
  v ∈ ranking ->
  exists st0 st1 validator s,
    validator ∈ allValidators w
    /\ scoreValidator config (getThousandValidators (thousand_response w)) (chain w)
         (derive_erasPoints (chain w) (eraIndexes config (chain w)))
         (derive_erasPrefs (chain w) (eraIndexes config (chain w)))
         (derive_erasSlashes (chain w) (eraIndexes config (chain w)))
         (collectErasExposure (chain w) (eraIndexes config (chain w)))
         (allValidators w)
         (stashAddressesCreationOf (event_rows w) (allValidators w))
         st0 validator = Some (st1, s)
    /\ sameScore v s.
Proof.
  intros Hrun Hv.
  apply computeRanking_lookup in Hrun as (st & scoredValidators & Hscore & _ & Hlookup).
  apply list_elem_of_lookup in Hv as [i Hi].
  apply Hlookup in Hi as (v0 & Hv0 & [_ _ Hsame] & _).
  rewrite rankStage_lookup in Hv0.
  destruct (Js.sort ratingComparefn scoredValidators !! i) as [s|] eqn:Hs; [|done].
  injection Hv0 as <-. simpl in Hsame.
  apply list_elem_of_lookup_2, sort_elem_of in Hs.
  unfold scoreRun in Hscore. apply scoreAll_Forall2 in Hscore.
  apply list_elem_of_lookup in Hs as [k Hk].
  destruct (Forall2_lookup_r _ _ _ _ _ Hscore Hk) as (validator & Hval & st0 & st1 & Hsc).
  exists st0, st1, validator, s. split; [|done].
  by eapply list_elem_of_lookup_2.
Qed.

(** ** Total rating *)

(** C7: for every validator of the stored ranking, [totalRating] is the sum
    of the ten component ratings and of nothing else, and every component
    lies in its range: [activeRating], [subAccountsRating],
    [nominatorsRating], [eraPointsRating] and [slashRating] in {0, 2},
    [governanceRating] in {0, 2, 3}, the others in {0, 1, 2, 3}. *)
Theorem totalRating_sum_of_components (config : Config) (w : World)
  (ranking : list Ranked) (v : Ranked) :
  computeRanking config w = Some ranking ->
  v ∈ ranking ->
  ratedWithinRanges v.
Proof.
  intros Hrun Hv.
  destruct (stored_from_scoring _ _ _ _ Hrun Hv) as (st0 & st1 & validator & s & _ & Hs & Hsame).
  apply scoreValidator_rated in Hs.
  same_field Hsame ratedWithinRanges. by rewrite Hsame.
Qed.

Lemma totalRating_sum_of_components_witness :
  exists ranking,
    computeRanking Sample.config Sample.activeWorld = Some ranking
    /\ Forall (fun v : Ranked => ratedWithinRanges v) ranking.
Proof.
  eexists. split; [vm_compute; reflexivity|].
  apply Forall_forall. intros v Hv.
  eapply (totalRating_sum_of_components Sample.config Sample.activeWorld); [|exact Hv].
  vm_compute; reflexivity.
Defined.

(** ** The thousand-validator programme *)

(** C8: when the HTTP request fails the run goes on with an empty list of
    candidates, exactly as a run whose request answered [[]], and every
    validator of the stored ranking has [includedThousandValidators = false]. *)
Theorem thousand_outage_not_fatal (config : Config) (w : World) :
  thousand_response w = None ->
  getThousandValidators (thousand_response w) = []
  /\ computeRanking config w
     = computeRanking config
         {| chain := chain w; event_rows := event_rows w;
            thousand_response := Some []; shuffle := shuffle w |}
  /\ forall ranking (v : Ranked),
       computeRanking config w = Some ranking ->
       v ∈ ranking ->
       includedThousandValidators v = false.
Proof.
  intros Hfail. split; [by rewrite Hfail|]. split.
  - destruct w as [c rows response sh]. simpl in Hfail. by subst response.
  - intros ranking v Hrun Hv.
    destruct (stored_from_scoring _ _ _ _ Hrun Hv)
      as (st0 & st1 & validator & s & _ & Hs & Hsame).
    apply scoreValidator_thousand in Hs. rewrite Hfail in Hs. simpl in Hs.
    same_field Hsame includedThousandValidators. by rewrite Hsame.
Qed.

Lemma thousand_outage_not_fatal_witness :
  exists ranking,
    computeRanking Sample.config Sample.activeWorld = Some ranking
    /\ length ranking = 2%nat
    /\ Forall (fun v : Ranked => includedThousandValidators v = false) ranking.
Proof.
  destruct (thousand_outage_not_fatal Sample.config Sample.activeWorld eq_refl)
    as (_ & _ & Hall).
  eexists. split; [vm_compute; reflexivity|]. split; [reflexivity|].
  apply Forall_forall. intros v Hv.
  eapply Hall; [|exact Hv]. vm_compute; reflexivity.
Defined.

(** ** The history arrays *)

(** C10: provided [_erasPoints] and [_erasPrefs] answer with one record per
    requested era, in the order asked, every validator of the stored ranking
    (active or waiting) has exactly one entry per era of the window in
    [eraPointsHistory], [payoutHistory] and [commissionHistory], in the
    order of the window; the three lengths are
    [min(historySize, totalHistoric)]. *)
Theorem histories_follow_era_window (config : Config) (w : World)
  (ranking : list Ranked) (v : Ranked) :
  0 <= historySize config ->
  map EraPoints.era (derive_erasPoints (chain w) (eraIndexes config (chain w)))
  = eraIndexes config (chain w) ->
  map EraPrefs.era (derive_erasPrefs (chain w) (eraIndexes config (chain w)))
  = eraIndexes config (chain w) ->
  computeRanking config w = Some ranking ->
  v ∈ ranking ->
  let window := eraIndexes config (chain w) in
  let size :=
    Z.to_nat (Z.min (historySize config) (Z.of_nat (length (erasHistoric (chain w))))) in
  map eph_era (eraPointsHistory v) = map era_text window
  /\ map ph_era (payoutHistory v) = map era_text window
  /\ map ce_era (commissionHistory v) = map era_text window
  /\ length (eraPointsHistory v) = size
  /\ length (payoutHistory v) = size
  /\ length (commissionHistory v) = size.
Proof.
  intros Hsize Hpoints Hprefs Hrun Hv window size.
  destruct (stored_from_scoring _ _ _ _ Hrun Hv)
    as (st0 & st1 & validator & s & _ & Hs & Hsame).
  apply scoreValidator_histories in Hs as (Hp & Hq & Hc).
  rewrite Hpoints in Hp, Hq.
  assert (map ce_era (commissionHistory s) = map era_text window) as Hc'.
  { by rewrite Hc, getCommissionHistory_eras, Hprefs. }
  pose proof Hsame as H1. same_field H1 eraPointsHistory.
  pose proof Hsame as H2. same_field H2 payoutHistory.
  pose proof Hsame as H3. same_field H3 commissionHistory.
  rewrite H1, H2, H3.
  assert (length (map era_text window) = size) as Hlen.
  { rewrite length_map. by apply eraIndexes_length. }
  repeat split; try done.
  - by rewrite <- (length_map eph_era), Hp.
  - by rewrite <- (length_map ph_era), Hq.
  - by rewrite <- (length_map ce_era), Hc'.
Qed.

Lemma histories_follow_era_window_witness :
  exists ranking,
    computeRanking Sample.config Sample.activeWorld = Some ranking
    /\ Forall (fun v : Ranked =>
                 map eph_era (eraPointsHistory v) = ["7"]
                 /\ map ph_era (payoutHistory v) = ["7"]
                 /\ map ce_era (commissionHistory v) = ["7"]
                 /\ length (commissionHistory v) = 1%nat) ranking.
Proof.
  eexists. split; [vm_compute; reflexivity|].
  apply Forall_forall. intros v Hv.
  edestruct (histories_follow_era_window Sample.config Sample.activeWorld)
    as (Hp & Hq & Hc & _ & _ & Hl); [| | | |exact Hv|];
    [vm_compute; discriminate|reflexivity|reflexivity|vm_compute; reflexivity|].
  repeat split; assumption.
Defined.

(** ** Commission rating *)

(** Two plain objects never compare greater: both convert to the same text. *)
Lemma first_exceeds_last_false (history : list CommissionEntry) :
  first_exceeds_last history = false.
Proof.
  unfold first_exceeds_last.
  destruct (history !! 0%nat); [|done].
  by destruct (history !! (length history - 1)%nat).
Qed.

(** Between 5 and 10 the rating is 2 whatever the history. *)
Lemma getCommissionRating_middle_band (commission : Q) (history : list CommissionEntry) :
  (5 <= commission)%Q -> (commission <= 10)%Q ->
  getCommissionRating commission history = 2.
Proof.
  intros H5 H10. unfold getCommissionRating.
  rewrite first_exceeds_last_false, andb_false_r.
  assert (Qeq_bool commission 100 = false) as ->.
  { apply not_true_iff_false. intros Heq%Qeq_bool_iff.
    rewrite Heq in H10. by apply Qle_bool_iff in H10. }
  assert (Qeq_bool commission 0 = false) as ->.
  { apply not_true_iff_false. intros Heq%Qeq_bool_iff.
    rewrite Heq in H5. by apply Qle_bool_iff in H5. }
  apply Qle_bool_iff in H5, H10. by rewrite H5, H10.
Qed.

(** Apart from the upgrade the crawler follows the bands. *)
Lemma getCommissionRating_banded (commission : Q) (history : list CommissionEntry) :
  trendingDown history = false ->
  getCommissionRating commission history = bandedCommissionRating commission history.
Proof.
  intros Htrend. unfold getCommissionRating, bandedCommissionRating.
  rewrite Htrend, first_exceeds_last_false, !andb_false_r.
  destruct (Qeq_bool commission 100), (Qeq_bool commission 0),
    (Qle_bool commission 10), (Qle_bool 5 commission); reflexivity.
Qed.

(** C1: for a commission between 5 and 10 and a history of more than one
    entry whose oldest commission exceeds the newest, the banded algorithm
    rates 3 and the crawler rates 2: its comparison is made on the two
    history objects, not on their commissions. *)
Theorem commission_trend_not_rewarded (commission : Q) (history : list CommissionEntry) :
  (5 <= commission)%Q -> (commission <= 10)%Q ->
  (1 < length history)%nat ->
  trendingDown history = true ->
  getCommissionRating commission history = 2
  /\ bandedCommissionRating commission history = 3.
Proof.
  intros H5 H10 Hlen Htrend. split; [by apply getCommissionRating_middle_band|].
  unfold bandedCommissionRating. rewrite Htrend.
  assert (Qeq_bool commission 100 = false) as ->.
  { apply not_true_iff_false. intros Heq%Qeq_bool_iff. lra. }
  assert (Qeq_bool commission 0 = false) as ->.
  { apply not_true_iff_false. intros Heq%Qeq_bool_iff. lra. }
  apply Qle_bool_iff in H5, H10. rewrite H5, H10.
  apply Nat.ltb_lt in Hlen. by rewrite Hlen.
Qed.

Lemma commission_trend_not_rewarded_witness :
  getCommissionRating 7 Sample.fallingHistory = 2
  /\ bandedCommissionRating 7 Sample.fallingHistory = 3.
Proof.
  apply (commission_trend_not_rewarded 7 Sample.fallingHistory).
  - unfold Qle. simpl. lia.
  - unfold Qle. simpl. lia.
  - simpl. lia.
  - reflexivity.
Defined.

(** ** Minimum stake *)

Lemma stakeComparefn_never_negative (a b : Z) : 0 <= stakeComparefn a b.
Proof. unfold stakeComparefn. destruct (a <=? b); lia. Qed.

(** The sort leaves the stakes as collected, so the first one is taken. *)
Lemma minimumStake_first (validators : list Validator.t) :
  minimumStake validators = head (nominatorStakes validators).
Proof.
  unfold minimumStake.
  by rewrite sort_never_negative by apply stakeComparefn_never_negative.
Qed.

(** C4: when a nominator found after the first one stakes less than the
    first, the row [minimum_stake] is still set to the first stake, not to
    the smallest. *)
Theorem minimum_stake_row_not_smallest (chain : Chain) (total : gmap string string)
  (first smaller : Z) (rest : list Z) :
  nominatorStakes (activeValidators chain) = first :: rest ->
  smaller ∈ rest ->
  smaller < first ->
  is_Some (total !! "minimum_stake"%string) ->
  minimumStake (activeValidators chain) = Some first
  /\ updateTotals chain total !! "minimum_stake"%string = Some (pretty first)
  /\ exists stake, stake ∈ nominatorStakes (activeValidators chain) /\ stake < first.
Proof.
  intros Hstakes Hin Hless [old Hrow].
  assert (minimumStake (activeValidators chain) = Some first) as Hmin.
  { by rewrite minimumStake_first, Hstakes. }
  split; [done|]. split.
  - unfold updateTotals, sql_update_total.
    rewrite lookup_alter_eq, !lookup_alter_ne, Hrow, Hmin by done. done.
  - exists smaller. rewrite Hstakes. split; [by right|done].
Qed.

Lemma minimum_stake_row_not_smallest_witness :
  nominatorStakes (activeValidators Sample.activePair) = [5; 3]
  /\ minimumStake (activeValidators Sample.activePair) = Some 5
  /\ updateTotals Sample.activePair Sample.totalRows !! "minimum_stake"%string
     = Some "5"%string.
Proof.
  split; [reflexivity|].
  destruct (minimum_stake_row_not_smallest Sample.activePair Sample.totalRows 5 3 [3])
    as (Hmin & Hrow & _); [| | | |by split].
  - reflexivity.
  - by left.
  - lia.
  - by eexists.
Defined.

(** ** Cluster hiding *)

Lemma permutation_of_pair (a b : Z) (l : list Z) :
  [a; b] ≡ₚ l -> l = [a; b] \/ l = [b; a].
Proof.
  intros Hperm. apply Permutation_length_2_inv in Hperm. tauto.
Qed.

(** C3: two waiting validators named [P2P-1] and [P2P-2] each have
    [clusterMembers = 1], share the cluster name [P2P], and whatever the
    shuffle one of them ends with [showClusterMember = false]. *)
Theorem singleton_members_hidden (shuffle : nat -> list Z -> list Z) :
  (forall i positions, positions ≡ₚ shuffle i positions) ->
  exists ranking,
    computeRanking Sample.config (Sample.waitingWorld shuffle) = Some ranking
    /\ Forall (fun v : Ranked => clusterMembers v = 1 /\ clusterName v = "P2P"%string) ranking
    /\ length (List.filter (fun v : Ranked => negb (showClusterMember v)) ranking) = 1%nat.
Proof.
  intros Hshuffle.
  destruct (permutation_of_pair _ _ _ (Hshuffle 0%nat [1; 2])) as [Hs|Hs];
    eexists; (split; [vm_compute; rewrite Hs; vm_compute; reflexivity|]);
    split; try reflexivity; repeat constructor.
Qed.

Lemma singleton_members_hidden_witness :
  exists ranking,
    computeRanking Sample.config (Sample.waitingWorld (fun _ positions => positions))
    = Some ranking
    /\ map (fun v : Ranked => (stashAddress v, clusterMembers v, showClusterMember v)) ranking
       = [("B"%string, 1, false); ("A"%string, 1, true)].
Proof.
  destruct (singleton_members_hidden (fun _ positions => positions))
    as (ranking & Hrun & _ & _); [reflexivity|].
  exists ranking. split; [exact Hrun|].
  vm_compute in Hrun. injection Hrun as <-. reflexivity.
Defined.

(** ** Order and rank *)

Lemma StronglySorted_lookup {A} (R : A -> A -> Prop) (l : list A) (i j : nat) (a b : A) :
  StronglySorted R l -> l !! i = Some a -> l !! j = Some b -> (i < j)%nat -> R a b.
Proof.
  intros Hsorted. revert i j.
  induction Hsorted as [|x rest Hrest IH Hx]; intros i j Hi Hj Hlt; [done|].
  destruct j as [|j]; [lia|]. simpl in Hj.
  destruct i as [|i]; simpl in Hi.
  - injection Hi as <-. rewrite Forall_forall in Hx.
    apply Hx. by eapply list_elem_of_lookup_2.
  - eapply IH; eauto. lia.
Qed.

Lemma filter_map_commute {A B} (p : B -> bool) (f : A -> B) (l : list A) :
  List.filter p (map f l) = map f (List.filter (fun a => p (f a)) l).
Proof.
  induction l as [|a l IH]; simpl; [done|].
  destruct (p (f a)); simpl; by rewrite IH.
Qed.

Lemma setShowClusterMember_shown (s : Scored) :
  showClusterMember s = true -> setShowClusterMember true s = s.
Proof. destruct s. simpl. by intros ->. Qed.

(** Up to [showClusterMember] the stored ranking is the sorted array. *)
Lemma stored_scores (config : Config) (w : World) (ranking : list Ranked)
  (st : ScoreState) (scoredValidators : list Scored) :
  computeRanking config w = Some ranking ->
  scoreRun config w = Some (st, scoredValidators) ->
  map (fun v : Ranked => setShowClusterMember true v) ranking
  = Js.sort ratingComparefn scoredValidators.
Proof.
  intros Hrun Hscore.
  destruct (computeRanking_lookup _ _ _ Hrun) as (st' & ss' & Hscore' & Hlen & Hlookup).
  rewrite Hscore in Hscore'. injection Hscore' as <- <-.
  apply list_eq. intros i. rewrite list_lookup_fmap.
  destruct (ranking !! i) as [v|] eqn:Hv; simpl.
  - apply Hlookup in Hv as (v0 & Hv0 & [_ _ Hsame] & _).
    rewrite rankStage_lookup in Hv0.
    destruct (Js.sort ratingComparefn scoredValidators !! i) as [s|] eqn:Hs; [|done].
    injection Hv0 as <-. simpl in Hsame. unfold sameScore in Hsame.
    rewrite Hsame. f_equal. apply setShowClusterMember_shown.
    apply list_elem_of_lookup_2, sort_elem_of in Hs.
    unfold scoreRun in Hscore. apply scoreAll_Forall2 in Hscore.
    apply list_elem_of_lookup in Hs as [k Hk].
    destruct (Forall2_lookup_r _ _ _ _ _ Hscore Hk) as (validator & _ & st0 & st1 & Hsc).
    by eapply scoreValidator_shown.
  - symmetry. apply lookup_ge_None. rewrite sort_length, <- Hlen.
    by apply lookup_ge_None.
Qed.

Lemma scoreRun_stashes (config : Config) (w : World) (st : ScoreState)
  (scoredValidators : list Scored) :
  scoreRun config w = Some (st, scoredValidators) ->
  map stashAddress scoredValidators = map Validator.stashId (allValidators w).
Proof.
  unfold scoreRun. intros Hscore. apply scoreAll_Forall2 in Hscore.
  induction Hscore as [|v s vs ss (st0 & st1 & Hs) _ IH]; simpl; [done|].
  apply scoreValidator_stash in Hs. by rewrite Hs, IH.
Qed.

(** C5, as the crawler has it: the stored ranking lists the validators by
    descending [totalRating]; [rank] is the position, 1 to N; a smaller rank
    never has a smaller [totalRating]; and validators of equal [totalRating]
    come in the reverse of their input order. *)
Theorem ranking_descending_dense_ranks (config : Config) (w : World)
  (ranking : list Ranked) :
  computeRanking config w = Some ranking ->
  length ranking = length (allValidators w)
  /\ (forall i (v : Ranked), ranking !! i = Some v -> rank v = Z.of_nat i + 1)
  /\ (forall i j (v v' : Ranked),
        ranking !! i = Some v -> ranking !! j = Some v' -> (i < j)%nat ->
        totalRating v' <= totalRating v)
  /\ (forall v v' : Ranked,
        v ∈ ranking -> v' ∈ ranking -> rank v < rank v' ->
        totalRating v' <= totalRating v)
  /\ exists st scoredValidators,
       scoreRun config w = Some (st, scoredValidators)
       /\ map stashAddress scoredValidators = map Validator.stashId (allValidators w)
       /\ forall r,
            map stashAddress (List.filter (hasRating r) (map scored ranking))
            = rev (map stashAddress (List.filter (hasRating r) scoredValidators)).
Proof.
  intros Hrun.
  destruct (computeRanking_lookup _ _ _ Hrun) as (st & ss & Hscore & Hlen & Hlookup).
  pose proof (stored_scores _ _ _ _ _ Hrun Hscore) as Hsorted.
  pose proof (scoreRun_stashes _ _ _ _ Hscore) as Hstash.
  assert (forall i (v : Ranked), ranking !! i = Some v -> rank v = Z.of_nat i + 1) as Hrank.
  { intros i v Hv. apply Hlookup in Hv as (v0 & Hv0 & [Hr _ _] & _).
    rewrite rankStage_lookup in Hv0.
    destruct (Js.sort ratingComparefn ss !! i); [|done].
    injection Hv0 as <-. by rewrite Hr. }
  assert (forall i j (v v' : Ranked),
    ranking !! i = Some v -> ranking !! j = Some v' -> (i < j)%nat ->
    totalRating v' <= totalRating v) as Hdesc.
  { intros i j v v' Hv Hv' Hlt.
    pose proof (rating_sort_descending ss) as Hd. rewrite <- Hsorted in Hd.
    unfold descending in Hd.
    pose proof (StronglySorted_lookup _ _ i j (setShowClusterMember true v)
                  (setShowClusterMember true v') Hd) as Hij.
    rewrite !list_lookup_fmap, Hv, Hv' in Hij. by apply Hij. }
  split.
  { rewrite Hlen, <- (length_map stashAddress), Hstash. by rewrite length_map. }
  split; [exact Hrank|]. split; [exact Hdesc|]. split.
  - intros v v' Hv Hv' Hlt.
    apply list_elem_of_lookup in Hv as [i Hi], Hv' as [j Hj].
    apply (Hdesc i j); try done.
    rewrite (Hrank _ _ Hi), (Hrank _ _ Hj) in Hlt. lia.
  - exists st, ss. split; [done|]. split; [done|]. intros r.
    rewrite <- map_rev, <- rating_sort_ties, <- Hsorted.
    rewrite !filter_map_commute, !map_map. done.
Qed.

Lemma ranking_descending_dense_ranks_witness :
  exists ranking,
    computeRanking Sample.config Sample.activeWorld = Some ranking
    /\ map rank ranking = [1; 2]
    /\ forall v v' : Ranked,
         v ∈ ranking -> v' ∈ ranking -> rank v < rank v' ->
         totalRating v' <= totalRating v.
Proof.
  eexists. split; [vm_compute; reflexivity|]. split; [reflexivity|].
  edestruct (ranking_descending_dense_ranks Sample.config Sample.activeWorld)
    as (_ & _ & _ & Hmono & _); [vm_compute; reflexivity|].
  exact Hmono.
Defined.

(** C5 fails as stated: [A] precedes [B] in the input, both are rated 11,
    and [B] is stored with rank 1, [A] with rank 2. *)
Lemma equal_ratings_reverse_input_order :
  map Validator.stashId (allValidators (Sample.waitingWorld (fun _ positions => positions)))
  = ["A"%string; "B"%string]
  /\ exists ranking,
       computeRanking Sample.config (Sample.waitingWorld (fun _ positions => positions))
       = Some ranking
       /\ map (fun v : Ranked => (stashAddress v, totalRating v, rank v)) ranking
          = [("B"%string, 11, 1); ("A"%string, 11, 2)].
Proof.
  split; [reflexivity|]. eexists. split; [vm_compute; reflexivity|]. reflexivity.
Qed.

(** ** Pareto dominance *)

Lemma dominates_final (o0 o v0 v : Ranked) :
  finalOf o0 o -> finalOf v0 v -> dominates o v = dominates o0 v0.
Proof.
  intros [_ Ho Hso] [_ Hv Hsv]. unfold dominates. rewrite Ho, Hv.
  pose proof Hso as H1. same_field H1 selfStake.
  pose proof Hso as H2. same_field H2 activeEras.
  pose proof Hso as H3. same_field H3 totalRating.
  pose proof Hsv as H4. same_field H4 selfStake.
  pose proof Hsv as H5. same_field H5 activeEras.
  pose proof Hsv as H6. same_field H6 totalRating.
  by rewrite H1, H2, H3, H4, H5, H6.
Qed.

Lemma isDominated_true (ranking : list Ranked) (i : nat) (v : Ranked) :
  isDominated ranking i v = true
  <-> exists j o, j <> i /\ ranking !! j = Some o /\ dominates o v = true.
Proof.
  unfold isDominated. rewrite existsb_exists. split.
  - intros ([j o] & Hin & Hcond).
    apply list_elem_of_In, elem_of_lookup_imap in Hin as (k & o' & [= -> ->] & Hk).
    apply andb_true_iff in Hcond as [Hne Hdom].
    exists k, o'. split; [|done].
    apply negb_true_iff, Nat.eqb_neq in Hne. done.
  - intros (j & o & Hne & Hj & Hdom). exists (j, o). split.
    + apply list_elem_of_In, elem_of_lookup_imap. by exists j, o.
    + apply andb_true_iff. split; [|done].
      by apply negb_true_iff, Nat.eqb_neq.
Qed.

Lemma dominates_true (o v : Ranked) :
  dominates o v = true
  <-> JsNum.geb (relativePerformance o) (relativePerformance v) = true
      /\ selfStake v <= selfStake o
      /\ activeEras v <= activeEras o
      /\ totalRating v <= totalRating o.
Proof.
  unfold dominates. rewrite !andb_true_iff, !Z.leb_le. tauto.
Qed.

Lemma geb_same_number (q : Q) : JsNum.geb (JsNum.Num q) (JsNum.Num q) = true.
Proof. simpl. apply Qle_bool_iff. apply Qle_refl. Qed.

(** C6, as the crawler has it: a stored validator is [dominated] exactly
    when another slot of the ranking holds a validator at least as good in
    relative performance, self stake, active eras and total rating; two
    validators equal on the four, with a relative performance that is a
    number, are both [dominated]. *)
Theorem dominated_iff_weakly_worse (config : Config) (w : World)
  (ranking : list Ranked) :
  computeRanking config w = Some ranking ->
  (forall i (v : Ranked),
     ranking !! i = Some v ->
     (dominated v = true
      <-> exists j (o : Ranked),
            j <> i /\ ranking !! j = Some o
            /\ JsNum.geb (relativePerformance o) (relativePerformance v) = true
            /\ selfStake v <= selfStake o
            /\ activeEras v <= activeEras o
            /\ totalRating v <= totalRating o))
  /\ (forall i j (v o : Ranked) (q : Q),
        i <> j -> ranking !! i = Some v -> ranking !! j = Some o ->
        relativePerformance v = JsNum.Num q -> relativePerformance o = JsNum.Num q ->
        selfStake o = selfStake v -> activeEras o = activeEras v ->
        totalRating o = totalRating v ->
        dominated v = true /\ dominated o = true).
Proof.
  intros Hrun.
  destruct (computeRanking_lookup _ _ _ Hrun) as (st & ss & Hscore & Hlen & Hlookup).
  assert (forall i (v : Ranked),
    ranking !! i = Some v ->
    (dominated v = true
     <-> exists j (o : Ranked), j <> i /\ ranking !! j = Some o /\ dominates o v = true))
    as Hiff.
  { intros i v Hv.
    destruct (Hlookup _ _ Hv) as (v0 & Hv0 & Hfin & Hdom).
    rewrite Hdom, isDominated_true. split.
    - intros (j & o0 & Hne & Hj & Hd).
      assert (is_Some (ranking !! j)) as [o Ho].
      { apply lookup_lt_is_Some. rewrite Hlen, <- (rankStage_length st).
        apply lookup_lt_is_Some. by eexists. }
      destruct (Hlookup _ _ Ho) as (o0' & Ho0' & Hfino & _).
      rewrite Hj in Ho0'. injection Ho0' as <-.
      exists j, o. repeat split; try done.
      by rewrite (dominates_final _ _ _ _ Hfino Hfin).
    - intros (j & o & Hne & Hj & Hd).
      destruct (Hlookup _ _ Hj) as (o0 & Ho0 & Hfino & _).
      exists j, o0. repeat split; try done.
      by rewrite <- (dominates_final _ _ _ _ Hfino Hfin). }
  split.
  - intros i v Hv. rewrite (Hiff _ _ Hv).
    split; intros (j & o & Hne & Hj & Hd); exists j, o; repeat split; try done;
      by apply dominates_true.
  - intros i j v o q Hne Hv Ho Hrv Hro Hs Ha Ht. split.
    + apply (Hiff _ _ Hv). exists j, o. repeat split; [done..|].
      apply dominates_true. rewrite Hrv, Hro, Hs, Ha, Ht.
      split; [apply geb_same_number|lia].
    + apply (Hiff _ _ Ho). exists i, v. repeat split; [done..|].
      apply dominates_true. rewrite Hrv, Hro, Hs, Ha, Ht.
      split; [apply geb_same_number|lia].
Qed.

Lemma dominated_iff_weakly_worse_witness :
  exists ranking,
    computeRanking Sample.config Sample.activeWorld = Some ranking
    /\ map (fun v : Ranked => (stashAddress v, dominated v)) ranking
       = [("V2"%string, false); ("V1"%string, true)]
    /\ forall i (v : Ranked),
         ranking !! i = Some v ->
         (dominated v = true
          <-> exists j (o : Ranked),
                j <> i /\ ranking !! j = Some o
                /\ JsNum.geb (relativePerformance o) (relativePerformance v) = true
                /\ selfStake v <= selfStake o
                /\ activeEras v <= activeEras o
                /\ totalRating v <= totalRating o).
Proof.
  eexists. split; [vm_compute; reflexivity|]. split; [reflexivity|].
  edestruct (dominated_iff_weakly_worse Sample.config Sample.activeWorld)
    as (Hiff & _); [vm_compute; reflexivity|].
  exact Hiff.
Defined.

(** C6 fails as stated: the two waiting validators are equal on the four
    dimensions (their relative performance is [NaN]) and neither is
    [dominated]. *)
Lemma identical_validators_not_dominated :
  exists ranking,
    computeRanking Sample.config (Sample.waitingWorld (fun _ positions => positions))
    = Some ranking
    /\ map (fun v : Ranked =>
              (relativePerformance v, selfStake v, activeEras v, totalRating v, dominated v))
         ranking
       = [(JsNum.NaN, 5, 0, 11, false); (JsNum.NaN, 5, 0, 11, false)].
Proof.
  eexists. split; [vm_compute; reflexivity|]. reflexivity.
Qed.

(** ** Relative performance *)

(** [(p - 0) / (top - 0)] printed with six decimals, for [0 <= p <= top]. *)
Lemma normalised_performance (p top : Q) :
  (0 <= p)%Q -> (p <= top)%Q -> (0 < top)%Q ->
  exists n,
    JsNum.toFixed 6
      (JsNum.div (JsNum.sub (JsNum.Num p) (JsNum.Num 0))
                 (JsNum.sub (JsNum.Num top) (JsNum.Num 0)))
    = JsNum.Num (n # 1000000)
    /\ 0 <= n <= 1000000
    /\ (p == top -> n = 1000000)
    /\ (p == 0 -> n = 0)
    /\ (p / top - (1 # 2000000) <= n # 1000000)%Q
    /\ (n # 1000000 <= p / top + (1 # 2000000))%Q.
Proof.
  intros Hp Hle Htop. unfold JsNum.sub, JsNum.neg, JsNum.add, JsNum.div.
  assert (Qeq_bool (top + - 0) 0 = false) as ->.
  { apply not_true_iff_false. intros Heq%Qeq_bool_iff. lra. }
  set (x := ((p + - 0) / (top + - 0))%Q).
  assert (0 <= x)%Q as Hx0.
  { unfold x. apply Qle_shift_div_l; lra. }
  assert (x <= 1)%Q as Hx1.
  { unfold x. apply Qle_shift_div_r; lra. }
  unfold JsNum.toFixed. change (10 ^ 6) with 1000000.
  change (Z.to_pos 1000000) with 1000000%positive.
  apply Qle_bool_iff in Hx0 as Hx0b. rewrite Hx0b.
  exists (JsNum.round_half_up (x * inject_Z 1000000)). split; [done|].
  unfold JsNum.round_half_up. change (inject_Z 1000000) with 1000000%Q.
  assert (x == p / top)%Q as Hx by (unfold x; field; lra).
  pose proof (Qfloor_le (x * 1000000 + (1 # 2))) as Hlow.
  pose proof (Qlt_floor (x * 1000000 + (1 # 2))) as Hhigh.
  rewrite inject_Z_plus in Hhigh. change (inject_Z 1) with 1%Q in Hhigh.
  repeat split.
  - change 0 with (Qfloor 0). apply Qfloor_resp_le. lra.
  - change 1000000 with (Qfloor (1000000 + (1 # 2))) at 2. apply Qfloor_resp_le. lra.
  - intros Heq.
    assert (x * 1000000 + (1 # 2) == 1000000 + (1 # 2))%Q as ->; [|done].
    assert (x == 1)%Q as ->; [|lra].
    unfold x. rewrite Heq. field. lra.
  - intros Heq.
    assert (x * 1000000 + (1 # 2) == 1 # 2)%Q as ->; [|done].
    assert (x == 0)%Q as ->; [|lra].
    unfold x. rewrite Heq. field. lra.
  - rewrite (Qmake_Qdiv _ 1000000). change (inject_Z (Z.pos 1000000)) with 1000000%Q.
    rewrite <- Hx. apply Qle_shift_div_l; lra.
  - rewrite (Qmake_Qdiv _ 1000000). change (inject_Z (Z.pos 1000000)) with 1000000%Q.
    rewrite <- Hx. apply Qle_shift_div_r; lra.
Qed.

Lemma stored_performances (config : Config) (w : World) (ranking : list Ranked)
  (st : ScoreState) (scoredValidators : list Scored) :
  computeRanking config w = Some ranking ->
  scoreRun config w = Some (st, scoredValidators) ->
  (forall s, s ∈ scoredValidators ->
     exists v : Ranked, v ∈ ranking /\ performance v = performance s)
  /\ (forall v : Ranked, v ∈ ranking ->
        relativePerformance v
        = JsNum.toFixed 6
            (JsNum.div (JsNum.sub (performance v) (minPerformance st))
                       (JsNum.sub (maxPerformance st) (minPerformance st)))).
Proof.
  intros Hrun Hscore. split.
  - intros s Hs. pose proof (stored_scores _ _ _ _ _ Hrun Hscore) as Hsorted.
    apply (sort_elem_of ratingComparefn) in Hs. rewrite <- Hsorted in Hs.
    apply list_elem_of_fmap in Hs as (v & -> & Hv). by exists v.
  - intros v Hv.
    destruct (computeRanking_lookup _ _ _ Hrun) as (st' & ss' & Hscore' & _ & Hlookup).
    rewrite Hscore in Hscore'. injection Hscore' as <- <-.
    apply list_elem_of_lookup in Hv as [i Hi].
    apply Hlookup in Hi as (v0 & Hv0 & [_ Hrel Hsame] & _).
    rewrite rankStage_lookup in Hv0.
    destruct (Js.sort ratingComparefn scoredValidators !! i) as [s|]; [|done].
    injection Hv0 as <-. simpl in Hrel, Hsame.
    same_field Hsame performance. by rewrite Hrel, Hsame.
Qed.

(** C2, as the crawler has it: [minPerformance] starts at 0, so with
    performances that are non-negative numbers, one of them positive, every
    stored validator has for [relativePerformance] a number of millionths
    between 0 and 1 that is less than one millionth away from
    [performance / top], [top] being the greatest performance; it is 1 for
    a validator of performance [top] and 0 for a validator of performance
    0.  Nothing is said of a least performer whose performance is positive:
    it gets its share of [top], which may print as 0. *)
Theorem relativePerformance_over_maximum (config : Config) (w : World)
  (ranking : list Ranked) :
  computeRanking config w = Some ranking ->
  (forall v : Ranked, v ∈ ranking ->
     exists p, performance v = JsNum.Num p /\ (0 <= p)%Q) ->
  (exists (v : Ranked) p, v ∈ ranking /\ performance v = JsNum.Num p /\ (0 < p)%Q) ->
  exists top,
    (0 < top)%Q
    /\ (exists v : Ranked, v ∈ ranking /\ performance v = JsNum.Num top)
    /\ forall (v : Ranked) p,
         v ∈ ranking -> performance v = JsNum.Num p ->
         (p <= top)%Q
         /\ exists n,
              relativePerformance v = JsNum.Num (n # 1000000)
              /\ 0 <= n <= 1000000
              /\ (p / top - (1 # 1000000) < n # 1000000)%Q
              /\ (n # 1000000 < p / top + (1 # 1000000))%Q
              /\ (p == top -> n = 1000000)
              /\ (p == 0 -> n = 0).
Proof.
  intros Hrun Hnum (vpos & ppos & Hvpos & Hppos & Hpos).
  destruct (computeRanking_lookup _ _ _ Hrun) as (st & ss & Hscore & _ & _).
  destruct (stored_performances _ _ _ _ _ Hrun Hscore) as [Hback Hrel].
  pose proof (stored_scores _ _ _ _ _ Hrun Hscore) as Hsorted.
  assert (forall v : Ranked, v ∈ ranking ->
            exists s, s ∈ ss /\ performance s = performance v) as Hforth.
  { intros v Hv. exists (setShowClusterMember true v). split; [|by destruct v as [? ? []]].
    apply (sort_elem_of ratingComparefn). rewrite <- Hsorted.
    apply list_elem_of_fmap. by exists v. }
  unfold scoreRun in Hscore.
  eapply (scoreAll_extremes _ _ _ _ _ _ _ _ _ _ _ _ _ 0%Q) in Hscore as
    (Hmin & top & Hmax & Htop0 & Hall & Hatt); [|..|reflexivity|reflexivity].
  2:{ intros s Hs. destruct (Hback s Hs) as (v & Hv & Hpv).
      rewrite <- Hpv. by apply Hnum. }
  assert (0 < top)%Q as Htop.
  { destruct (Hforth _ Hvpos) as (s & Hs & Hps).
    rewrite Hppos in Hps. specialize (Hall _ _ Hs Hps). lra. }
  exists top. split; [done|]. split.
  { destruct Hatt as [->|(s & Hs & Hps)]; [lra|].
    destruct (Hback s Hs) as (v & Hv & Hpv). exists v. split; [done|]. congruence. }
  intros v p Hv Hp.
  assert (p <= top)%Q as Hle.
  { destruct (Hforth _ Hv) as (s & Hs & Hps). rewrite Hp in Hps. by eapply Hall. }
  assert (0 <= p)%Q as Hp0.
  { destruct (Hnum _ Hv) as (p' & Hp' & Hp0). rewrite Hp in Hp'. by injection Hp' as ->. }
  pose proof (Hrel _ Hv) as Hformula. rewrite Hp, Hmin, Hmax in Hformula.
  split; [done|].
  destruct (normalised_performance p top Hp0 Hle Htop)
    as (n & Hn & Hrange & Hone & Hzero & Hlow & Hhigh).
  exists n. rewrite Hformula.
  split; [done|]. split; [done|].
  split; [lra|]. split; [lra|]. by split.
Qed.

Lemma relativePerformance_over_maximum_witness :
  exists ranking,
    computeRanking Sample.config Sample.activeWorld = Some ranking
    /\ map relativePerformance ranking
       = [JsNum.Num (1000000 # 1000000); JsNum.Num (500000 # 1000000)]
    /\ exists top,
         (0 < top)%Q
         /\ exists v : Ranked, v ∈ ranking /\ performance v = JsNum.Num top.
Proof.
  eexists. split; [vm_compute; reflexivity|]. split; [reflexivity|].
  edestruct (relativePerformance_over_maximum Sample.config Sample.activeWorld)
    as (top & Htop & Hatt & _).
  - vm_compute; reflexivity.
  - intros v Hv.
    repeat (apply elem_of_cons in Hv as [->|Hv]);
      [eexists; split; [reflexivity|by vm_compute]..|by apply elem_of_nil in Hv].
  - eexists _, _. split; [by left|]. split; [reflexivity|by vm_compute].
  - exists top. by split.
Defined.

(** C2 fails as stated: of two validators with performances 9.7 and 19.4
    the least performer gets 0.5, not 0; and with two validators of equal
    performance both get [NaN], not 0. *)
Lemma least_performer_not_zero :
  (exists (least best : Ranked),
     computeRanking Sample.config Sample.activeWorld = Some [best; least]
     /\ JsNum.ltb (performance least) (performance best) = true
     /\ relativePerformance least = JsNum.Num (500000 # 1000000))
  /\ exists ranking,
       computeRanking Sample.config (Sample.waitingWorld (fun _ positions => positions))
       = Some ranking
       /\ map (fun v : Ranked => (performance v, relativePerformance v)) ranking
          = [(JsNum.Num 0, JsNum.NaN); (JsNum.Num 0, JsNum.NaN)].
Proof.
  split.
  - eexists _, _. split; [vm_compute; reflexivity|]. split; reflexivity.
  - eexists. split; [vm_compute; reflexivity|]. reflexivity.
Qed.

(** ** The scheduler *)

(** Whatever the body does, the rest of [start] returns normally and adds
    one timer, due [pollingTime] after the moment the body ended. *)
Lemma startTail_returns (config : Config) (body : Scheduler.M unit) (l : Scheduler.Loop) :
  exists l',
    Scheduler.startTail config body l = (l', Scheduler.Returned tt)
    /\ Scheduler.timers l'
       = Scheduler.timers (fst (body l))
         ++ [Scheduler.clock (fst (body l)) + pollingTime config]
    /\ Scheduler.inflight l' = Scheduler.inflight (fst (body l))
    /\ Scheduler.clock l' = Scheduler.clock (fst (body l)).
Proof.
  unfold Scheduler.startTail, Scheduler.bind, Scheduler.tryCatch.
  destruct (body l) as [l1 [[]|error]]; simpl; eexists; split; reflexivity || done.
Qed.

Lemma scheduler_invariant (config : Config) (l : Scheduler.Loop) :
  Scheduler.reachable config l ->
  (Scheduler.inflight l + length (Scheduler.timers l) = 1)%nat.
Proof.
  unfold Scheduler.reachable. revert l.
  apply rtc_ind_r; [done|]. intros l1 l2 Hreach Hstep IH.
  destruct Hstep as [l1 d Hd|l1 due before after Htimers Hdue|l1 completion l' result Hfly Htail].
  - done.
  - rewrite Htimers, length_app in IH. simpl in *.
    rewrite length_app. lia.
  - destruct (startTail_returns config (Scheduler.pipelineBody completion) l1)
      as (l'' & Htail' & Htimers & Hin & _).
    rewrite Htail in Htail'. injection Htail' as <- _.
    simpl in *. rewrite Htimers, length_app. simpl. rewrite Hin. lia.
Qed.

(** C9: in every state the event loop can reach, at most one run is in
    flight, and no timer is pending while it is; when the body of a run in
    flight completes, by returning or by throwing, the rest of [start]
    returns normally and arms one timer due [pollingTime] ms later, after
    which no run is in flight until that timer fires. *)
Theorem run_rearms_without_overlap (config : Config) (l : Scheduler.Loop) :
  Scheduler.reachable config l ->
  (Scheduler.inflight l <= 1)%nat
  /\ ((0 < Scheduler.inflight l)%nat -> Scheduler.timers l = [])
  /\ forall completion,
       (0 < Scheduler.inflight l)%nat ->
       exists l',
         Scheduler.startTail config (Scheduler.pipelineBody completion) l
         = (l', Scheduler.Returned tt)
         /\ Scheduler.timers l' = [Scheduler.clock l + pollingTime config]
         /\ Scheduler.step config l (Scheduler.land l')
         /\ Scheduler.inflight (Scheduler.land l') = 0%nat
         /\ Scheduler.reachable config (Scheduler.land l').
Proof.
  intros Hreach. pose proof (scheduler_invariant _ _ Hreach) as Hinv.
  assert ((0 < Scheduler.inflight l)%nat -> Scheduler.timers l = []) as Hnone.
  { intros Hfly. destruct (Scheduler.timers l); [done|]. simpl in Hinv. lia. }
  split; [lia|]. split; [done|].
  intros completion Hfly.
  destruct (startTail_returns config (Scheduler.pipelineBody completion) l)
    as (l' & Htail & Htimers & Hin & _).
  simpl in Htimers, Hin. rewrite (Hnone Hfly) in Htimers. simpl in Htimers.
  assert (Scheduler.step config l (Scheduler.land l')) as Hstep.
  { by eapply Scheduler.step_settle. }
  exists l'. split; [done|]. split; [done|]. split; [done|]. split.
  - simpl. rewrite Hin. lia.
  - unfold Scheduler.reachable in *. by eapply rtc_r.
Qed.

Lemma run_rearms_without_overlap_witness :
  exists l',
    Scheduler.startTail Sample.config
      (Scheduler.pipelineBody (Scheduler.Thrown "RPC-CORE: disconnected"))
      Scheduler.initial
    = (l', Scheduler.Returned tt)
    /\ Scheduler.timers l' = [300000].
Proof.
  destruct (run_rearms_without_overlap Sample.config Scheduler.initial (rtc_refl _ _))
    as (_ & _ & Hsettle).
  destruct (Hsettle (Scheduler.Thrown "RPC-CORE: disconnected") (Nat.lt_0_1))
    as (l' & Htail & Htimers & _).
  exists l'. split; [exact Htail|exact Htimers].
Defined.

(** * Further properties of the crawler *)

(** ** Identity *)

(** An identity is verified exactly when one of its judgements is
    [KnownGood] or [Reasonable]; the empty-list test and the [FeePaid]
    filter change nothing. *)
Theorem isVerifiedIdentity_iff (identity : Identity.t) :
  isVerifiedIdentity identity = true
  <-> exists registrar judgement,
        (registrar, judgement) ∈ Identity.judgements identity
        /\ (judgement = KnownGood \/ judgement = Reasonable).
Proof.
  unfold isVerifiedIdentity.
  destruct (Identity.judgements identity) as [|first rest] eqn:Hj.
  - simpl. split; [done|]. intros (r & j & Hin & _). by apply elem_of_nil in Hin.
  - change (length (first :: rest) =? 0)%nat with false. cbv iota.
    rewrite existsb_exists. split.
    + intros ([r j] & Hin & Hgood). apply filter_In in Hin as [Hin _].
      exists r, j. split; [by apply list_elem_of_In|].
      destruct j; simpl in Hgood; auto; discriminate.
    + intros (r & j & Hin & Hgood). exists (r, j). split.
      * apply filter_In. split; [by apply list_elem_of_In|].
        by destruct Hgood as [-> | ->].
      * by destruct Hgood as [-> | ->].
Qed.

Lemma getName_empty_iff (identity : Identity.t) :
  getName identity = ""%string <-> Js.truthy (Identity.display identity) = false.
Proof.
  unfold getName, subIdentity, Js.or_empty, Js.truthy.
  destruct (Identity.displayParent identity) as [[|c p]|],
           (Identity.display identity) as [[|d n]|]; simpl; split; done.
Qed.

(** The four levels of [identityRating]: 3 for a verified identity with all
    six fields, 2 for a verified one without, 1 for an unverified one with a
    display name, 0 for an unverified one without (a [displayParent] alone
    gives no name). *)
Theorem identityRating_levels (identity : Identity.t) :
  let rating := pi_identityRating (parseIdentity identity) in
  (rating = 3 <-> isVerifiedIdentity identity = true /\ hasAllFields identity = true)
  /\ (rating = 2 <-> isVerifiedIdentity identity = true /\ hasAllFields identity = false)
  /\ (rating = 1 <-> isVerifiedIdentity identity = false
                     /\ Js.truthy (Identity.display identity) = true)
  /\ (rating = 0 <-> isVerifiedIdentity identity = false
                     /\ Js.truthy (Identity.display identity) = false).
Proof.
  simpl. fold (hasAllFields identity). unfold getIdentityRating.
  pose proof (getName_empty_iff identity) as Hname.
  destruct (isVerifiedIdentity identity), (hasAllFields identity); simpl;
    destruct (String.eqb_spec (getName identity) "") as [Heq|Hne];
    destruct (Js.truthy (Identity.display identity)); simpl;
    repeat split; intros; try done; try lia; try tauto;
    try (exfalso; destruct Hname as [H1 H2];
         first [by specialize (H1 Heq) | by apply Hne, H2]).
Qed.

(** ** Payout rating *)

(** Only pending eras count, and more pending eras never give a better
    rating. *)
Theorem getPayoutRating_antitone (config : Config) (h1 h2 : list PayoutEntry) :
  (pendingCount h1 <= pendingCount h2)%nat ->
  getPayoutRating h2 config <= getPayoutRating h1 config.
Proof.
  unfold pendingCount, getPayoutRating. intros Hle.
  repeat match goal with
         | |- context [?a <=? ?b] => destruct (Z.leb_spec a b)
         | |- context [?a <? ?b] => destruct (Z.ltb_spec a b)
         end; lia.
Qed.

Lemma getPayoutRating_antitone_witness :
  getPayoutRating [{| ph_era := "1"; status := pending |}; {| ph_era := "2"; status := paid |}]
    Sample.config
  <= getPayoutRating [{| ph_era := "1"; status := inactive |}] Sample.config.
Proof.
  apply getPayoutRating_antitone. unfold pendingCount. simpl. lia.
Defined.

(** ** Cluster bands *)

Lemma showFor_range (clusterSize : Z) :
  2 <= clusterSize ->
  2 <= showFor clusterSize <= clusterSize.
Proof.
  intros Hsize. unfold showFor.
  repeat match goal with
         | |- context [?a <? ?b] => destruct (Z.ltb_spec a b)
         end;
    unfold Qfloor, Qmult, inject_Z; simpl Qnum; simpl Qden;
    try lia;
    match goal with
    | |- context [(?n / ?d)%Z] =>
        pose proof (Z.div_mod n d ltac:(lia));
        pose proof (Z.mod_pos_bound n d ltac:(lia))
    end; lia.
Qed.

(** From size 2 on, at least two members and at most all of them are shown,
    so the number to hide lies between 0 and the size less 2. *)
Theorem showFor_bounds (clusterSize : Z) :
  2 <= clusterSize ->
  2 <= showFor clusterSize <= clusterSize
  /\ 0 <= clusterSize - showFor clusterSize <= clusterSize - 2.
Proof. intros Hsize. pose proof (showFor_range clusterSize Hsize). lia. Qed.

Lemma showFor_bounds_witness :
  2 <= showFor 12 <= 12 /\ 0 <= 12 - showFor 12 <= 12 - 2.
Proof. apply showFor_bounds. lia. Defined.

(** ** The era window *)

(** The window is the tail of the historic eras: empty when [historySize]
    is not positive, the whole list when [historySize] reaches its length. *)
Theorem eraIndexes_tail (config : Config) (chain : Chain) :
  (exists older, erasHistoric chain = older ++ eraIndexes config chain)
  /\ (historySize config <= 0 -> eraIndexes config chain = [])
  /\ (Z.of_nat (length (erasHistoric chain)) <= historySize config ->
      eraIndexes config chain = erasHistoric chain).
Proof.
  unfold eraIndexes, Js.slice_from. split; [|split].
  - eexists. symmetry. apply take_drop.
  - intros Hsize. apply drop_ge. lia.
  - intros Hsize.
    replace (Z.to_nat _) with 0%nat by lia. done.
Qed.

(** ** The era loop *)

Section EraLoopFacts.

Variable config : Config.
Variable erasExposure : list EraExposure.t.
Variable validator : Validator.t.
Variable stashAddress : string.
Variable commission : Q.

Let turn := eraTurn config erasExposure validator stashAddress commission.
Let run := eraLoop config erasExposure validator stashAddress commission.

(** What one turn does, by presence of the stash in the era. *)
Lemma eraTurn_cases (loop loop' : EraLoop) (eraPoints : EraPoints.t) :
  turn loop eraPoints = Some loop' ->
  match EraPoints.validators eraPoints !! stashAddress with
  | Some pts =>
      exists exposed entryStatus,
        exposureFor erasExposure eraPoints stashAddress = Some exposed
        /\ entryStatus <> inactive
        /\ loop_activeEras loop' = loop_activeEras loop + 1
        /\ loop_eraPointsHistory loop'
           = loop_eraPointsHistory loop
             ++ [{| eph_era := era_text (EraPoints.era eraPoints); points := pts |}]
        /\ loop_payoutHistory loop'
           = loop_payoutHistory loop
             ++ [{| ph_era := era_text (EraPoints.era eraPoints); status := entryStatus |}]
        /\ loop_performance loop'
           = JsNum.add (loop_performance loop)
               (JsNum.div
                  (JsNum.Num (inject_Z pts * (1 - commission / 100)))
                  (JsNum.Num (inject_Z (Exposure.total exposed)
                              / (10 ^ tokenDecimals config))))
  | None =>
      loop_activeEras loop' = loop_activeEras loop
      /\ loop_eraPointsHistory loop'
         = loop_eraPointsHistory loop
           ++ [{| eph_era := era_text (EraPoints.era eraPoints); points := 0 |}]
      /\ loop_payoutHistory loop'
         = loop_payoutHistory loop
           ++ [{| ph_era := era_text (EraPoints.era eraPoints); status := inactive |}]
      /\ loop_performance loop' = JsNum.add (loop_performance loop) (JsNum.Num 0)
  end.
Proof.
  unfold turn, eraTurn, exposureFor.
  destruct (EraPoints.validators eraPoints !! stashAddress) as [pts|].
  - destruct (List.find _ erasExposure) as [eraExposure|]; [|done]. simpl.
    destruct (EraExposure.validators eraExposure !! stashAddress) as [exposed|]; [|done].
    simpl. intros [= <-]. simpl. eexists _, _. split; [done|].
    split; [|by repeat split].
    by destruct (existsb _ _).
  - intros [= <-]. by repeat split.
Qed.

(** A turn throws exactly when the stash has points in the era and no
    exposure is found for it. *)
Lemma eraTurn_is_Some (loop : EraLoop) (eraPoints : EraPoints.t) :
  is_Some (turn loop eraPoints)
  <-> (is_Some (EraPoints.validators eraPoints !! stashAddress) ->
       is_Some (exposureFor erasExposure eraPoints stashAddress)).
Proof.
  unfold turn, eraTurn, exposureFor.
  destruct (EraPoints.validators eraPoints !! stashAddress) as [pts|].
  - destruct (List.find _ erasExposure) as [eraExposure|]; simpl.
    + destruct (EraExposure.validators eraExposure !! stashAddress); simpl.
      * split; [by eexists|by eexists].
      * split; [by intros []|]. intros H. by destruct H as [? ?]; [eexists|].
    + split; [by intros []|]. intros H. by destruct H as [? ?]; [eexists|].
  - split; [|by eexists]. by intros _ [].
Qed.

Lemma eraLoop_is_Some (eras : list EraPoints.t) (loop : EraLoop) :
  is_Some (run loop eras)
  <-> forall eraPoints, eraPoints ∈ eras ->
        is_Some (EraPoints.validators eraPoints !! stashAddress) ->
        is_Some (exposureFor erasExposure eraPoints stashAddress).
Proof.
  revert loop. induction eras as [|eraPoints rest IH]; intros loop; simpl.
  - split; [|by eexists]. intros _ ? Hin. by apply elem_of_nil in Hin.
  - unfold run in *. simpl.
    destruct (eraTurn _ _ _ _ _ loop eraPoints) as [loop1|] eqn:Hturn; simpl.
    + rewrite IH. split.
      * intros Hrest ep [->|Hin]%elem_of_cons; [|by apply Hrest].
        apply (eraTurn_is_Some loop). unfold turn. rewrite Hturn. by eexists.
      * intros Hall ep Hin. apply Hall. by right.
    + split; [by intros []|]. intros Hall. exfalso.
      assert (is_Some (turn loop eraPoints)) as [? Hs].
      { apply eraTurn_is_Some. apply Hall. by left. }
      unfold turn in Hs. congruence.
Qed.

(** [activeEras] counts the entries of [payoutHistory] that are not
    [inactive], and the two histories grow together, an [inactive] entry
    beside 0 points. *)
Lemma eraLoop_counts (eras : list EraPoints.t) (loop loop' : EraLoop) :
  run loop eras = Some loop' ->
  loop_activeEras loop = Z.of_nat (length (List.filter isActiveEntry (loop_payoutHistory loop))) ->
  Forall2 (fun (p : PayoutEntry) (e : EraPointsEntry) =>
             ph_era p = eph_era e /\ (status p = inactive -> points e = 0))
    (loop_payoutHistory loop) (loop_eraPointsHistory loop) ->
  loop_activeEras loop' = Z.of_nat (length (List.filter isActiveEntry (loop_payoutHistory loop')))
  /\ Forall2 (fun (p : PayoutEntry) (e : EraPointsEntry) =>
                ph_era p = eph_era e /\ (status p = inactive -> points e = 0))
       (loop_payoutHistory loop') (loop_eraPointsHistory loop').
Proof.
  revert loop. induction eras as [|eraPoints rest IH]; intros loop; simpl.
  - unfold run. simpl. by intros [= <-].
  - unfold run in *. simpl.
    destruct (eraTurn _ _ _ _ _ loop eraPoints) as [loop1|] eqn:Hturn; [|done].
    simpl. intros Hrest Hcount Hpairs. apply (IH loop1 Hrest).
    + apply eraTurn_cases in Hturn.
      destruct (EraPoints.validators eraPoints !! stashAddress) as [pts|].
      * destruct Hturn as (exposed & st & _ & Hst & Ha & _ & Hp & _).
        rewrite Ha, Hp, List.filter_app, length_app, Hcount.
        destruct st; [done|..]; simpl; lia.
      * destruct Hturn as (Ha & _ & Hp & _).
        rewrite Ha, Hp, List.filter_app, length_app, Hcount. simpl. lia.
    + apply eraTurn_cases in Hturn.
      destruct (EraPoints.validators eraPoints !! stashAddress) as [pts|].
      * destruct Hturn as (exposed & st & _ & Hst & _ & He & Hp & _).
        rewrite He, Hp. apply Forall2_app; [done|]. by repeat constructor.
      * destruct Hturn as (_ & He & Hp & _).
        rewrite He, Hp. apply Forall2_app; [done|]. by repeat constructor.
Qed.


End EraLoopFacts.

Lemma div_nonneg (a b : Q) :
  (0 <= a)%Q -> (0 < b)%Q ->
  exists r, JsNum.div (JsNum.Num a) (JsNum.Num b) = JsNum.Num r /\ (0 <= r)%Q.
Proof.
  intros Ha Hb. simpl.
  assert (Qeq_bool b 0 = false) as ->.
  { apply not_true_iff_false. intros Heq%Qeq_bool_iff. lra. }
  eexists. split; [reflexivity|]. apply Qle_shift_div_l; lra.
Qed.

Section EraLoopPerformance.

Variable config : Config.
Variable erasExposure : list EraExposure.t.
Variable validator : Validator.t.
Variable stashAddress : string.
Variable commission : Q.

Lemma eraLoop_performance_nonneg (eras : list EraPoints.t) (loop loop' : EraLoop) (q : Q) :
  eraLoop config erasExposure validator stashAddress commission loop eras = Some loop' ->
  (0 <= commission)%Q -> (commission <= 100)%Q ->
  (forall eraPoints pts, eraPoints ∈ eras ->
     EraPoints.validators eraPoints !! stashAddress = Some pts -> 0 <= pts) ->
  (forall eraPoints exposed, eraPoints ∈ eras ->
     exposureFor erasExposure eraPoints stashAddress = Some exposed ->
     0 < Exposure.total exposed) ->
  loop_performance loop = JsNum.Num q -> (0 <= q)%Q ->
  exists q', loop_performance loop' = JsNum.Num q' /\ (0 <= q')%Q.
Proof.
  revert loop q. induction eras as [|eraPoints rest IH];
    intros loop q Hrun Hc0 Hc100 Hpts Hexp Hq Hq0; simpl in Hrun.
  - injection Hrun as <-. by exists q.
  - destruct (eraTurn _ _ _ _ _ loop eraPoints) as [loop1|] eqn:Hturn; [|done].
    simpl in Hrun. apply eraTurn_cases in Hturn.
    assert (exists q1, loop_performance loop1 = JsNum.Num q1 /\ (0 <= q1)%Q)
      as (q1 & Hq1 & Hq10).
    { destruct (EraPoints.validators eraPoints !! stashAddress) as [pts|] eqn:Hpresent.
      - destruct Hturn as (exposed & st & Hex & _ & _ & _ & _ & Hperf).
        assert (0 <= pts) as Hp by (eapply Hpts; [by left|done]).
        assert (0 < Exposure.total exposed) as Ht by (eapply Hexp; [by left|done]).
        destruct (div_nonneg (inject_Z pts * (1 - commission / 100))
                    (inject_Z (Exposure.total exposed) / 10 ^ tokenDecimals config))
          as (r & Hr & Hr0).
        + apply Qmult_le_0_compat.
          * change 0%Q with (inject_Z 0). by rewrite <- Zle_Qle.
          * assert (commission / 100 <= 1)%Q; [|lra].
            apply Qle_shift_div_r; lra.
        + apply Qlt_shift_div_l.
          * apply Qpower_0_lt. lra.
          * rewrite Qmult_0_l. change 0%Q with (inject_Z 0). by rewrite <- Zlt_Qlt.
        + rewrite Hperf, Hq, Hr. simpl. eexists. split; [reflexivity|lra].
      - destruct Hturn as (_ & _ & _ & Hperf). rewrite Hperf, Hq. simpl.
        eexists. split; [reflexivity|lra]. }
    eapply (IH loop1 q1); eauto.
    + intros ep pts Hin. apply Hpts. by right.
    + intros ep ex Hin. apply Hexp. by right.
Qed.

End EraLoopPerformance.

(** ** What the scoring callback returns *)

Section ScoringInversion.

Variable config : Config.
Variable thousandValidators : list ThousandValidator.
Variable chain : Chain.
Variable erasPoints : list EraPoints.t.
Variable erasPreferences : list EraPrefs.t.
Variable erasSlashes : list EraSlashes.t.
Variable erasExposure : list EraExposure.t.
Variable validators : list Validator.t.
Variable stashAddressesCreation : gmap string Z.

Let score := scoreValidator config thousandValidators chain erasPoints erasPreferences
               erasSlashes erasExposure validators stashAddressesCreation.

Let scoreList := scoreAll config thousandValidators chain erasPoints erasPreferences
                   erasSlashes erasExposure validators stashAddressesCreation.

Let eraRun (v : Validator.t) :=
  eraLoop config erasExposure v (Validator.stashId v)
    (commission_percent (Prefs.commission (Validator.validatorPrefs v)))
    initialEraLoop erasPoints.

Lemma scoreValidator_is_Some (st : ScoreState) (v : Validator.t) :
  is_Some (score st v) <-> is_Some (eraRun v).
Proof.
  unfold score, scoreValidator, eraRun.
  destruct (getClusterInfo _ _ _) as [cName cMembers].
  destruct (eraLoop _ _ _ _ _ _ _) as [loop|]; simpl.
  - split; by eexists.
  - split; by intros [].
Qed.

Lemma scoreValidator_inv (st st' : ScoreState) (v : Validator.t) (s : Scored) :
  score st v = Some (st', s) ->
  exists loop,
    eraRun v = Some loop
    /\ activeEras s = loop_activeEras loop
    /\ performance s = loop_performance loop
    /\ payoutHistory s = loop_payoutHistory loop
    /\ eraPointsHistory s = loop_eraPointsHistory loop
    /\ payoutRating s = getPayoutRating (loop_payoutHistory loop) config
    /\ stashAddress s = Validator.stashId v
    /\ active s = Validator.active v
    /\ selfStake s
       = (if Validator.active v then Exposure.own (Validator.exposure v)
          else Ledger.total (Validator.stakingLedger v))
    /\ totalStake s
       = (if Validator.active v then Exposure.total (Validator.exposure v)
          else Ledger.total (Validator.stakingLedger v))
    /\ otherStake s
       = (if Validator.active v
          then Exposure.total (Validator.exposure v) - Exposure.own (Validator.exposure v)
          else 0)
    /\ hasSubIdentity s = subIdentity (Validator.identity v)
    /\ (clusterName s, clusterMembers s)
       = getClusterInfo (subIdentity (Validator.identity v)) validators (Validator.identity v)
    /\ clusters st'
       = (if negb (String.eqb (clusterName s) "") && negb (includes (clusters st) (clusterName s))
          then clusters st ++ [clusterName s] else clusters st)
    /\ stashCreatedAtBlock s = stashAddressesCreation !! Validator.stashId v
    /\ (Identity.parent (Validator.identity v) = None ->
        addressCreationRating s
        = addressRatingOf (stashAddressesCreation !! Validator.stashId v) (block_number chain)).
Proof.
  unfold score, scoreValidator, eraRun.
  destruct (getClusterInfo _ _ _) as [cName cMembers] eqn:Hcluster.
  destruct (eraLoop _ _ _ _ _ _ _) as [loop|]; [|done].
  simpl. intros [= <- <-]. simpl. exists loop.
  repeat split; try reflexivity; try (by destruct (Validator.active v)).
  intros Hparent. by rewrite Hparent.
Qed.

(** The names collected in [clusters] are the non-empty cluster names of
    the validators scored so far, each once. *)
Lemma scoreAll_clusters (vs : list Validator.t) (st st' : ScoreState) (ss : list Scored) :
  scoreList st vs = Some (st', ss) ->
  NoDup (clusters st) ->
  EmptyString ∉ clusters st ->
  NoDup (clusters st')
  /\ (EmptyString ∉ clusters st')
  /\ (forall c, c ∈ clusters st' <->
        c ∈ clusters st \/ (c <> ""%string /\ exists s, s ∈ ss /\ clusterName s = c)).
Proof.
  revert st st' ss. induction vs as [|v rest IH]; intros st st' ss; simpl.
  - intros [= <- <-] Hnd Hne. split; [done|]. split; [done|].
    intros c. split; [by left|]. intros [H|(_ & s & Hs & _)]; [done|].
    by apply elem_of_nil in Hs.
  - unfold scoreList in *. simpl.
    destruct (scoreValidator _ _ _ _ _ _ _ _ _ st v) as [[st1 s]|] eqn:Hv; [|done].
    simpl.
    destruct (scoreAll _ _ _ _ _ _ _ _ _ st1 rest) as [[st2 ss']|] eqn:Hrest; [|done].
    simpl. intros [= <- <-] Hnd Hne.
    apply scoreValidator_inv in Hv
      as (_ & _ & _ & _ & _ & _ & _ & _ & _ & _ & _ & _ & _ & _ & Hcl & _).
    assert (NoDup (clusters st1) /\ (EmptyString ∉ clusters st1)
            /\ forall c, c ∈ clusters st1
                         <-> c ∈ clusters st \/ (c <> ""%string /\ clusterName s = c))
      as (Hnd1 & Hne1 & Hin1).
    { rewrite Hcl.
      destruct (String.eqb_spec (clusterName s) "") as [Hempty|Hnonempty]; simpl.
      - split; [done|]. split; [done|]. intros c. split; [by left|].
        intros [H|[Hc Hs]]; [done|]. congruence.
      - destruct (includes (clusters st) (clusterName s)) eqn:Hinc; simpl.
        + split; [done|]. split; [done|]. intros c. split; [by left|].
          intros [H|[Hc <-]]; [done|].
          unfold includes in Hinc. apply existsb_exists in Hinc as (x & Hx & Heq).
          apply String.eqb_eq in Heq. subst x. by apply list_elem_of_In.
        + assert (clusterName s ∉ clusters st) as Hfresh.
          { intros Hin. apply not_true_iff_false in Hinc. apply Hinc.
            unfold includes. apply existsb_exists. exists (clusterName s).
            split; [by apply list_elem_of_In|apply String.eqb_refl]. }
          split.
          { apply NoDup_app. split; [done|]. split; [|apply NoDup_singleton].
            intros x Hx ->%list_elem_of_singleton. done. }
          split.
          { rewrite elem_of_app, list_elem_of_singleton. intros [H|H]; [done|congruence]. }
          intros c. rewrite elem_of_app, list_elem_of_singleton. split.
          * intros [H| ->]; [by left|by right].
          * intros [H|[_ <-]]; [by left|by right]. }
    destruct (IH st1 st2 ss' Hrest Hnd1 Hne1) as (Hnd2 & Hne2 & Hin2).
    split; [done|]. split; [done|]. intros c. rewrite Hin2, Hin1. split.
    + intros [[H|[Hc Hs]]|(Hc & s' & Hs' & Hn)].
      * by left.
      * right. split; [done|]. exists s. split; [by left|done].
      * right. split; [done|]. exists s'. split; [by right|done].
    + intros [H|(Hc & s' & [->|Hs']%elem_of_cons & Hn)].
      * by left; left.
      * by left; right.
      * right. split; [done|]. by exists s'.
Qed.

(** The scoring of the whole array fails exactly when the era loop of some
    validator does. *)
Lemma scoreAll_is_Some (vs : list Validator.t) (st : ScoreState) :
  is_Some (scoreList st vs) <-> forall v, v ∈ vs -> is_Some (eraRun v).
Proof.
  revert st. induction vs as [|v rest IH]; intros st; simpl.
  - split; [|by eexists]. intros _ v Hv. by apply elem_of_nil in Hv.
  - unfold scoreList in *. simpl.
    destruct (scoreValidator _ _ _ _ _ _ _ _ _ st v) as [[st1 s]|] eqn:Hv; simpl.
    + destruct (scoreAll _ _ _ _ _ _ _ _ _ st1 rest) as [[st2 ss']|] eqn:Hrest; simpl.
      * split; [|by eexists]. intros _ v' [->|Hin]%elem_of_cons.
        -- apply (scoreValidator_is_Some st). unfold score. rewrite Hv. by eexists.
        -- apply (IH st1); [|done]. rewrite Hrest. by eexists.
      * split; [by intros []|]. intros Hall. exfalso.
        assert (is_Some (scoreAll config thousandValidators chain erasPoints erasPreferences
                           erasSlashes erasExposure validators stashAddressesCreation st1 rest))
          as [? Hs].
        { apply IH. intros v' Hin. apply Hall. by right. }
        congruence.
    + split; [by intros []|]. intros Hall. exfalso.
      assert (is_Some (score st v)) as [? Hs].
      { apply scoreValidator_is_Some. apply Hall. by left. }
      unfold score in Hs. congruence.
Qed.

End ScoringInversion.

(** ** When a run completes *)

Lemma scored_of_stages (st : ScoreState) (scoredValidators : list Scored) :
  map scored (dominanceStage (rankStage st scoredValidators))
  = Js.sort ratingComparefn scoredValidators.
Proof.
  apply list_eq. intros i. unfold dominanceStage.
  rewrite list_lookup_fmap, list_lookup_imap, rankStage_lookup.
  by destruct (Js.sort ratingComparefn scoredValidators !! i).
Qed.

Lemma hideLoop_is_Some (shuffle : nat -> list Z -> list Z) (ranking : list Ranked)
  (names : list string) (i : nat) (hidden : list Z) :
  (forall c, c ∈ names -> exists v : Ranked, v ∈ ranking /\ clusterName v = c) ->
  is_Some (hideLoop shuffle ranking i names hidden).
Proof.
  revert i hidden. induction names as [|c rest IH]; intros i hidden Hall; simpl.
  - by eexists.
  - destruct (Hall c) as (v & Hv & Hc); [by left|].
    unfold pickHidden.
    destruct (List.filter _ ranking) as [|first others] eqn:Hfilter.
    + exfalso. assert (In v (List.filter (fun v : Ranked => String.eqb (clusterName v) c) ranking))
        as Hin.
      { apply filter_In. split; [by apply list_elem_of_In|]. rewrite Hc. apply String.eqb_refl. }
      by rewrite Hfilter in Hin.
    + simpl. apply IH. intros c' Hc'. apply Hall. by right.
Qed.

(** Once every validator is scored, the rest of the run cannot throw:
    every collected cluster name has a member to read the size from. *)
Lemma computeRanking_of_scoreRun (config : Config) (w : World) (st : ScoreState)
  (scoredValidators : list Scored) :
  scoreRun config w = Some (st, scoredValidators) ->
  is_Some (computeRanking config w).
Proof.
  intros Hscore. unfold computeRanking. rewrite Hscore. simpl. unfold hidingStage.
  destruct (hideLoop_is_Some (shuffle w) (dominanceStage (rankStage st scoredValidators))
              (clusters st) 0%nat []) as [hidden ->]; [|by eexists].
  intros c Hc. unfold scoreRun in Hscore.
  destruct (scoreAll_clusters _ _ _ _ _ _ _ _ _ _ _ _ _ Hscore) as (_ & _ & Hin);
    [constructor|by intros ?%elem_of_nil|].
  apply Hin in Hc as [?%elem_of_nil|(_ & s & Hs & Hname)]; [done|].
  apply (sort_elem_of ratingComparefn) in Hs. rewrite <- (scored_of_stages st) in Hs.
  apply list_elem_of_fmap in Hs as (v & -> & Hv). by exists v.
Qed.

(** Once the scoring of the validators has gone through, the rest of the
    body cannot throw: sorting, ranking, the dominance test and the hiding
    loop, whose [clusterMembers[0]] is always there since every name of
    [clusters] comes from a scored validator. *)
Theorem hiding_never_throws (config : Config) (w : World) :
  is_Some (computeRanking config w) <-> is_Some (scoreRun config w).
Proof.
  split.
  - unfold computeRanking. destruct (scoreRun config w); [by eexists|by intros []].
  - intros [[st ss] Hscore]. by eapply computeRanking_of_scoreRun.
Qed.

(** A run stores a ranking exactly when, for every validator and every era
    of the window in which it earned points, the exposure of that era is
    found and lists the validator. *)
Theorem run_completes_iff (config : Config) (w : World) :
  is_Some (computeRanking config w)
  <-> forall validator eraPoints,
        validator ∈ allValidators w ->
        eraPoints ∈ derive_erasPoints (chain w) (eraIndexes config (chain w)) ->
        is_Some (EraPoints.validators eraPoints !! Validator.stashId validator) ->
        is_Some (exposureFor (collectErasExposure (chain w) (eraIndexes config (chain w)))
                   eraPoints (Validator.stashId validator)).
Proof.
  transitivity (is_Some (scoreRun config w)).
  - split.
    + unfold computeRanking. destruct (scoreRun config w); [by eexists|by intros []].
    + intros [[st ss] Hscore]. by eapply computeRanking_of_scoreRun.
  - unfold scoreRun. rewrite scoreAll_is_Some. split.
    + intros Hall validator ep Hv Hep.
      specialize (Hall validator Hv). rewrite eraLoop_is_Some in Hall. by apply Hall.
    + intros Hall validator Hv. apply eraLoop_is_Some. intros ep Hep. by apply Hall.
Qed.

(** ** The stored validators *)

Lemma filter_length_perm {A} (p : A -> bool) (l l' : list A) :
  l ≡ₚ l' -> length (List.filter p l) = length (List.filter p l').
Proof.
  induction 1 as [|x l l' _ IH|x y l|l1 l2 l3 _ IH1 _ IH2]; simpl; try done.
  - destruct (p x); simpl; by rewrite IH.
  - by destruct (p x), (p y).
  - by rewrite IH1.
Qed.

Lemma scoreRun_inputs (config : Config) (w : World) (st : ScoreState)
  (scoredValidators : list Scored) :
  scoreRun config w = Some (st, scoredValidators) ->
  map (fun s => (stashAddress s, active s)) scoredValidators
  = map (fun x => (Validator.stashId x, Validator.active x)) (allValidators w).
Proof.
  unfold scoreRun. intros Hscore. apply scoreAll_Forall2 in Hscore.
  induction Hscore as [|v s vs ss (st0 & st1 & Hs) _ IH]; simpl; [done|].
  apply scoreValidator_inv in Hs as (_ & _ & _ & _ & _ & _ & _ & Hstash & Hactive & _).
  by rewrite Hstash, Hactive, IH.
Qed.

(** The stored ranking holds the validators of the run, each once, with
    their [active] flag: as many active ones as session validators, as many
    waiting ones as intentions. *)
Theorem ranking_is_permutation (config : Config) (w : World) (ranking : list Ranked) :
  computeRanking config w = Some ranking ->
  map (fun v : Ranked => (stashAddress v, active v)) ranking
  ≡ₚ map (fun x => (Validator.stashId x, Validator.active x)) (allValidators w)
  /\ length (List.filter (fun v : Ranked => active v) ranking)
     = length (session_validators (chain w))
  /\ length (List.filter (fun v : Ranked => negb (active v)) ranking)
     = length (waitingInfo (chain w)).
Proof.
  intros Hrun.
  destruct (computeRanking_lookup _ _ _ Hrun) as (st & ss & Hscore & _ & _).
  pose proof (stored_scores _ _ _ _ _ Hrun Hscore) as Hsorted.
  pose proof (scoreRun_inputs _ _ _ _ Hscore) as Hinputs.
  assert (map (fun v : Ranked => (stashAddress v, active v)) ranking
          ≡ₚ map (fun x => (Validator.stashId x, Validator.active x)) (allValidators w))
    as Hperm.
  { rewrite <- Hinputs, <- (sort_perm ratingComparefn ss), <- Hsorted, map_map. done. }
  split; [exact Hperm|].
  assert (forall p : bool -> bool,
    length (List.filter (fun v : Ranked => p (active v)) ranking)
    = length (List.filter (fun x => p (Validator.active x)) (allValidators w))) as Hcount.
  { intros p.
    transitivity (length (List.filter (fun x : string * bool => p (snd x))
                            (map (fun v : Ranked => (stashAddress v, active v)) ranking))).
    { by rewrite filter_map_commute, length_map. }
    rewrite (filter_length_perm _ _ _ Hperm).
    by rewrite filter_map_commute, length_map. }
  unfold allValidators, activeValidators, waitingIntentions in Hcount.
  split.
  - rewrite (Hcount (fun b => b)), List.filter_app, length_app, !filter_map_commute.
    cbn [Validator.active enrich negb].
    rewrite List.filter_true, List.filter_false, !length_map. simpl. lia.
  - rewrite (Hcount negb), List.filter_app, length_app, !filter_map_commute.
    cbn [Validator.active enrich negb].
    rewrite List.filter_true, List.filter_false, !length_map. simpl. lia.
Qed.

Lemma ranking_is_permutation_witness :
  exists ranking,
    computeRanking Sample.config Sample.activeWorld = Some ranking
    /\ map (fun v : Ranked => (stashAddress v, active v)) ranking
       ≡ₚ map (fun x => (Validator.stashId x, Validator.active x))
            (allValidators Sample.activeWorld)
    /\ length (List.filter (fun v : Ranked => active v) ranking)
       = length (session_validators (chain Sample.activeWorld)).
Proof.
  eexists. split; [vm_compute; reflexivity|].
  edestruct (ranking_is_permutation Sample.config Sample.activeWorld)
    as (Hperm & Hactive & _); [vm_compute; reflexivity|].
  split; [exact Hperm|exact Hactive].
Defined.

(** ** History and performance of a stored validator *)




(** [activeEras] is the number of [paid] or [pending] entries of
    [payoutHistory]; the two histories list the same eras, and an era
    marked [inactive] carries 0 points. *)
Theorem activeEras_counts_history (config : Config) (w : World) (ranking : list Ranked)
  (v : Ranked) :
  computeRanking config w = Some ranking ->
  v ∈ ranking ->
  activeEras v = Z.of_nat (length (List.filter isActiveEntry (payoutHistory v)))
  /\ Forall2 (fun (p : PayoutEntry) (e : EraPointsEntry) =>
                ph_era p = eph_era e /\ (status p = inactive -> points e = 0))
       (payoutHistory v) (eraPointsHistory v).
Proof.
  intros Hrun Hv.
  destruct (stored_from_scoring _ _ _ _ Hrun Hv)
    as (st0 & st1 & validator & s & _ & Hs & Hsame).
  apply scoreValidator_inv in Hs as (loop & Hloop & Ha & _ & Hpay & Hpts & _).
  pose proof Hsame as H2. same_field H2 activeEras.
  pose proof Hsame as H3. same_field H3 payoutHistory.
  pose proof Hsame as H4. same_field H4 eraPointsHistory.
  rewrite H2, H3, H4, Ha, Hpay, Hpts.
  eapply eraLoop_counts; [exact Hloop|done|constructor].
Qed.

Lemma activeEras_counts_history_witness :
  exists ranking,
    computeRanking Sample.config Sample.activeWorld = Some ranking
    /\ Forall (fun v : Ranked =>
                 activeEras v = Z.of_nat (length (List.filter isActiveEntry (payoutHistory v))))
         ranking
    /\ map activeEras (map scored ranking) = [1; 1].
Proof.
  eexists. split; [vm_compute; reflexivity|]. split; [|reflexivity].
  apply Forall_forall. intros v Hv.
  edestruct (activeEras_counts_history Sample.config Sample.activeWorld) as (Ha & _);
    [vm_compute; reflexivity|exact Hv|exact Ha].
Defined.

Lemma exposureFor_found (erasExposure : list EraExposure.t) (eraPoints : EraPoints.t)
  (stashAddress : string) (exposed : Exposure.t) :
  exposureFor erasExposure eraPoints stashAddress = Some exposed ->
  exists eraExposure,
    eraExposure ∈ erasExposure
    /\ EraExposure.validators eraExposure !! stashAddress = Some exposed.
Proof.
  unfold exposureFor.
  destruct (List.find _ erasExposure) as [eraExposure|] eqn:Hfind; [|done].
  simpl. intros Hlookup. exists eraExposure. split; [|done].
  apply find_some in Hfind as [Hin _]. by apply list_elem_of_In.
Qed.

(** With era points that are not negative, exposures whose total is
    positive and commissions between 0 and 100 %, every stored performance
    is a number that is not negative. *)
Theorem performance_nonnegative (config : Config) (w : World) (ranking : list Ranked)
  (v : Ranked) :
  computeRanking config w = Some ranking ->
  v ∈ ranking ->
  Forall (fun validator =>
            0 <= Prefs.commission (Validator.validatorPrefs validator) <= 1000000000)
    (allValidators w) ->
  Forall (fun eraPoints => map_Forall (fun _ pts => 0 <= pts) (EraPoints.validators eraPoints))
    (derive_erasPoints (chain w) (eraIndexes config (chain w))) ->
  Forall (fun eraExposure =>
            map_Forall (fun _ exposed => 0 < Exposure.total exposed)
              (EraExposure.validators eraExposure))
    (collectErasExposure (chain w) (eraIndexes config (chain w))) ->
  exists p, performance v = JsNum.Num p /\ (0 <= p)%Q.
Proof.
  intros Hrun Hv Hcommission Hpoints Hexposures.
  destruct (stored_from_scoring _ _ _ _ Hrun Hv)
    as (st0 & st1 & validator & s & Hvalidator & Hs & Hsame).
  apply scoreValidator_inv in Hs as (loop & Hloop & _ & Hp & _).
  same_field Hsame performance. rewrite Hsame, Hp.
  rewrite Forall_forall in Hcommission. specialize (Hcommission _ Hvalidator).
  rewrite Forall_forall in Hpoints. rewrite Forall_forall in Hexposures.
  eapply (eraLoop_performance_nonneg _ _ _ _ _ _ _ _ 0%Q); [exact Hloop|..|reflexivity|lra].
  - unfold commission_percent. apply Qle_shift_div_l; [lra|].
    rewrite Qmult_0_l. change 0%Q with (inject_Z 0). rewrite <- Zle_Qle. lia.
  - unfold commission_percent. apply Qle_shift_div_r; [lra|].
    change (100 * 10000000)%Q with (inject_Z 1000000000). rewrite <- Zle_Qle. lia.
  - intros ep pts Hep Hlookup. by apply (Hpoints ep Hep _ _ Hlookup).
  - intros ep exposed Hep Hfor.
    apply exposureFor_found in Hfor as (ex & Hex & Hlookup).
    by apply (Hexposures ex Hex _ _ Hlookup).
Qed.

Lemma performance_nonnegative_witness :
  exists ranking,
    computeRanking Sample.config Sample.activeWorld = Some ranking
    /\ Forall (fun v : Ranked => exists p, performance v = JsNum.Num p /\ (0 <= p)%Q) ranking.
Proof.
  eexists. split; [vm_compute; reflexivity|].
  apply Forall_forall. intros v Hv.
  eapply (performance_nonnegative Sample.config Sample.activeWorld);
    [vm_compute; reflexivity|exact Hv|..].
  - repeat constructor; by vm_compute.
  - repeat constructor. apply map_Forall_insert_2; [lia|].
    apply map_Forall_insert_2; [lia|]. apply map_Forall_empty.
  - repeat constructor. apply map_Forall_insert_2; [by vm_compute|].
    apply map_Forall_insert_2; [by vm_compute|]. apply map_Forall_empty.
Defined.

(** ** Stake *)

(** The three stake figures of a stored validator: [selfStake] and
    [otherStake] add up to [totalStake]; a waiting validator has no other
    stake and its total is its own bonded stake. *)
Theorem stake_split (config : Config) (w : World) (ranking : list Ranked) (v : Ranked) :
  computeRanking config w = Some ranking ->
  v ∈ ranking ->
  selfStake v + otherStake v = totalStake v
  /\ (active v = false -> otherStake v = 0 /\ totalStake v = selfStake v).
Proof.
  intros Hrun Hv.
  destruct (stored_from_scoring _ _ _ _ Hrun Hv)
    as (st0 & st1 & validator & s & _ & Hs & Hsame).
  apply scoreValidator_inv in Hs
    as (loop & _ & _ & _ & _ & _ & _ & _ & Hactive & Hself & Htotal & Hother & _).
  pose proof Hsame as H1. same_field H1 selfStake.
  pose proof Hsame as H2. same_field H2 otherStake.
  pose proof Hsame as H3. same_field H3 totalStake.
  pose proof Hsame as H4. same_field H4 active.
  rewrite H1, H2, H3, H4, Hself, Htotal, Hother, Hactive.
  destruct (Validator.active validator); split; try lia; try done.
Qed.

Lemma stake_split_witness :
  exists ranking,
    computeRanking Sample.config Sample.activeWorld = Some ranking
    /\ Forall (fun v : Ranked => selfStake v + otherStake v = totalStake v) ranking
    /\ map otherStake (map scored ranking) = [0; 8].
Proof.
  eexists. split; [vm_compute; reflexivity|]. split; [|reflexivity].
  apply Forall_forall. intros v Hv.
  edestruct (stake_split Sample.config Sample.activeWorld) as (Hsum & _);
    [vm_compute; reflexivity|exact Hv|exact Hsum].
Defined.

(** ** Random picks *)

Lemma slice0_elem_of {A} (l : list A) (n : Z) (x : A) : x ∈ Js.slice0 l n -> x ∈ l.
Proof.
  unfold Js.slice0. destruct (0 <=? n); intros (i & Hi & _)%elem_of_take;
    by eapply list_elem_of_lookup_2.
Qed.

Lemma slice0_NoDup {A} (l : list A) (n : Z) : NoDup l -> NoDup (Js.slice0 l n).
Proof.
  unfold Js.slice0. destruct (0 <=? n); intros Hnd;
    (eapply sublist_NoDup; [exact Hnd|apply sublist_take]).
Qed.

Lemma slice0_length {A} (l : list A) (n : Z) :
  length (Js.slice0 l n)
  = if 0 <=? n then Nat.min (Z.to_nat n) (length l)
    else (length l - Z.to_nat (- n))%nat.
Proof.
  unfold Js.slice0. destruct (0 <=? n); rewrite length_take; lia.
Qed.

(** [getRandom(arr, n)] returns elements of [arr], without repetition when
    [arr] has none: [n] of them when [0 <= n <= arr.length], all of them
    when [n] is larger, and all but [-n] of them when [n] is negative. *)
Theorem getRandom_sample (shuffled : list Z -> list Z) (arr : list Z) (n : Z) :
  arr ≡ₚ shuffled arr ->
  (forall x, x ∈ getRandom shuffled arr n -> x ∈ arr)
  /\ (NoDup arr -> NoDup (getRandom shuffled arr n))
  /\ length (getRandom shuffled arr n)
     = if 0 <=? n then Nat.min (Z.to_nat n) (length arr)
       else (length arr - Z.to_nat (- n))%nat.
Proof.
  intros Hperm. unfold getRandom. split; [|split].
  - intros x Hx%slice0_elem_of. by rewrite Hperm.
  - intros Hnd. apply slice0_NoDup. by rewrite <- Hperm.
  - rewrite slice0_length. by rewrite <- (Permutation_length Hperm).
Qed.

Lemma getRandom_sample_witness :
  length (getRandom (fun positions => rev positions) [4; 7; 9] 2) = 2%nat
  /\ length (getRandom (fun positions => rev positions) [4; 7; 9] (-1)) = 2%nat.
Proof.
  destruct (getRandom_sample (fun positions => rev positions) [4; 7; 9] 2)
    as (_ & _ & H2); [apply Permutation_rev|].
  destruct (getRandom_sample (fun positions => rev positions) [4; 7; 9] (-1))
    as (_ & _ & H1); [apply Permutation_rev|].
  split; [exact H2|exact H1].
Defined.

(** ** Counting the hidden members *)

Lemma NoDup_map_filter {A} (f : A -> Z) (p : A -> bool) (l : list A) :
  NoDup (map f l) -> NoDup (map f (List.filter p l)).
Proof.
  induction l as [|a l IH]; simpl; [done|].
  intros [Hfresh Hrest]%NoDup_cons. destruct (p a); simpl; [|by apply IH].
  apply NoDup_cons. split; [|by apply IH].
  intros (b & Hb & Hin)%list_elem_of_fmap. apply Hfresh.
  apply list_elem_of_fmap. exists b. split; [done|].
  apply list_elem_of_In in Hin. apply filter_In in Hin as [Hin _].
  by apply list_elem_of_In.
Qed.

Lemma existsb_Zeqb (x : Z) (l : list Z) : existsb (Z.eqb x) l = true <-> x ∈ l.
Proof.
  rewrite existsb_exists. split.
  - intros (y & Hy & ->%Z.eqb_eq). by apply list_elem_of_In.
  - intros Hx. exists x. split; [by apply list_elem_of_In|apply Z.eqb_refl].
Qed.

(** Distinct picks among distinct keys select as many elements as picks. *)
Lemma picked_count {A} (f : A -> Z) (l : list A) (picked : list Z) :
  NoDup (map f l) -> NoDup picked ->
  (forall x, x ∈ picked -> x ∈ map f l) ->
  length (List.filter (fun a => existsb (Z.eqb (f a)) picked) l) = length picked.
Proof.
  intros Hkeys Hpicked Hsub.
  rewrite <- (length_map f). apply Permutation_length.
  apply NoDup_Permutation; [by apply NoDup_map_filter|done|].
  intros x. split.
  - intros (a & -> & Hin)%list_elem_of_fmap.
    apply list_elem_of_In, filter_In in Hin as [_ Hin]. by apply existsb_Zeqb.
  - intros Hx. pose proof (Hsub x Hx) as Hmem.
    apply list_elem_of_fmap in Hmem as (a & -> & Ha).
    apply list_elem_of_fmap. exists a. split; [done|].
    apply list_elem_of_In, filter_In. split; [by apply list_elem_of_In|].
    by apply existsb_Zeqb.
Qed.

(** The ranks picked in one turn belong to members of the turn's cluster. *)
Lemma pickHidden_members (shuffled : list Z -> list Z) (ranking : list Ranked)
  (cluster : string) (picked : list Z) :
  (forall positions, positions ≡ₚ shuffled positions) ->
  pickHidden shuffled ranking cluster = Some picked ->
  forall r, r ∈ picked ->
    exists v : Ranked, v ∈ ranking /\ rank v = r /\ clusterName v = cluster.
Proof.
  intros Hperm Hpick r Hr. unfold pickHidden in Hpick.
  fold (inCluster cluster) in Hpick.
  destruct (List.filter (inCluster cluster) ranking) as [|first rest] eqn:Hmembers; [done|].
  injection Hpick as <-.
  apply slice0_elem_of in Hr. rewrite <- Hperm in Hr.
  change (r ∈ map rank (first :: rest)) in Hr.
  apply list_elem_of_fmap in Hr as (v & -> & Hv).
  rewrite <- Hmembers in Hv. apply list_elem_of_In, filter_In in Hv as [Hv Hc].
  exists v. split; [by apply list_elem_of_In|]. split; [done|].
  by apply String.eqb_eq.
Qed.

(** What the hiding loop collects: the ranks it started with and the picks
    of every turn. *)
Lemma hideLoop_elem_of (shuffle : nat -> list Z -> list Z) (ranking : list Ranked)
  (names : list string) (i : nat) (start hidden : list Z) :
  hideLoop shuffle ranking i names start = Some hidden ->
  forall r, r ∈ hidden
    <-> r ∈ start
        \/ exists j cluster picked,
             names !! j = Some cluster
             /\ pickHidden (shuffle (i + j)%nat) ranking cluster = Some picked
             /\ r ∈ picked.
Proof.
  revert i start. induction names as [|c rest IH]; intros i start; simpl.
  - intros [= <-] r. split; [by left|]. by intros [H|(j & ? & ? & ? & _)].
  - destruct (pickHidden (shuffle i) ranking c) as [picked|] eqn:Hpick; [|done].
    simpl. intros Hloop r. rewrite (IH _ _ Hloop), elem_of_app. split.
    + intros [[H|H]|(j & c' & p' & Hj & Hp & Hr)].
      * by left.
      * right. exists 0%nat, c, picked. by rewrite Nat.add_0_r.
      * right. exists (S j), c', p'. by rewrite Nat.add_succ_r.
    + intros [H|(j & c' & p' & Hj & Hp & Hr)]; [by left; left|].
      destruct j as [|j]; simpl in Hj.
      * injection Hj as <-. rewrite Nat.add_0_r, Hpick in Hp. injection Hp as <-.
        by left; right.
      * right. exists j, c', p'. by rewrite Nat.add_succ_r in Hp.
Qed.

Lemma NoDup_map_inj {A} (f : A -> Z) (l : list A) (x y : A) :
  NoDup (map f l) -> x ∈ l -> y ∈ l -> f x = f y -> x = y.
Proof.
  intros Hnd [i Hi]%list_elem_of_lookup [j Hj]%list_elem_of_lookup Heq.
  assert (i = j) as ->; [|congruence].
  eapply (NoDup_lookup _ i j (f x) Hnd).
  - by rewrite list_lookup_fmap, Hi.
  - by rewrite list_lookup_fmap, Hj, Heq.
Qed.

Section HidingFacts.

Variable shuffle : nat -> list Z -> list Z.
Variable names : list string.
Variable ranking final : list Ranked.

Hypothesis Hstage : hidingStage shuffle names ranking = Some final.
Hypothesis Hshuffle : forall i positions, positions ≡ₚ shuffle i positions.
Hypothesis Hnames : NoDup names.
Hypothesis Hranks : NoDup (map rank ranking).
Hypothesis Hshown : Forall (fun v : Ranked => showClusterMember v = true) ranking.

(** A validator ends hidden only through a pick made for its own cluster. *)
Lemma hidden_has_cluster (v : Ranked) :
  v ∈ final -> isHidden v = true -> clusterName v ∈ names.
Proof.
  unfold hidingStage in Hstage.
  destruct (hideLoop shuffle ranking 0 names []) as [hidden|] eqn:Hloop; [|done].
  simpl in Hstage. injection Hstage as <-. unfold applyHiding.
  intros (v0 & -> & Hv0)%list_elem_of_fmap.
  destruct (existsb (Z.eqb (rank v0)) hidden) eqn:Hin.
  - intros _. simpl. apply existsb_Zeqb in Hin.
    apply (hideLoop_elem_of _ _ _ _ _ _ Hloop) in Hin
      as [?%elem_of_nil|(j & c & picked & Hj & Hpick & Hr)]; [done|].
    destruct (pickHidden_members _ _ _ _ (Hshuffle _) Hpick _ Hr) as (v' & Hv' & Hrank & Hc).
    rewrite (NoDup_map_inj rank ranking v0 v' Hranks Hv0 Hv') by done.
    rewrite Hc. by eapply list_elem_of_lookup_2.
  - unfold isHidden. rewrite Forall_forall in Hshown. by rewrite (Hshown v0 Hv0).
Qed.

(** In a cluster the loop visits, the members hidden are those picked in
    its turn: as many as [getRandom] returned. *)
Lemma hidden_count (cluster : string) (first : Ranked) (rest : list Ranked) :
  cluster ∈ names ->
  List.filter (inCluster cluster) ranking = first :: rest ->
  let hide := clusterMembers first - showFor (clusterMembers first) in
  0 <= hide <= Z.of_nat (length (first :: rest)) ->
  length (List.filter isHidden (List.filter (inCluster cluster) final)) = Z.to_nat hide.
Proof.
  intros Hcluster Hmembers hide Hhide.
  unfold hidingStage in Hstage.
  destruct (hideLoop shuffle ranking 0 names []) as [hidden|] eqn:Hloop; [|done].
  simpl in Hstage. injection Hstage as <-. unfold applyHiding.
  set (g := fun validator : Ranked =>
              if existsb (Z.eqb (rank validator)) hidden then hideMember validator
              else validator).
  assert (List.filter (inCluster cluster) (map g ranking)
          = map g (List.filter (inCluster cluster) ranking)) as ->.
  { rewrite filter_map_commute. f_equal. apply List.filter_ext. intros v.
    unfold g. by destruct (existsb _ _). }
  rewrite filter_map_commute, length_map, Hmembers.
  apply list_elem_of_lookup in Hcluster as [j Hj].
  assert (exists picked, pickHidden (shuffle j) ranking cluster = Some picked
                         /\ picked = getRandom (shuffle j) (map rank (first :: rest)) hide)
    as (picked & Hpick & Hpicked).
  { unfold pickHidden. fold (inCluster cluster). rewrite Hmembers. by eexists. }
  assert (forall v, v ∈ first :: rest ->
    isHidden (g v) = existsb (Z.eqb (rank v)) picked) as Hsame.
  { intros v Hv. rewrite <- Hmembers in Hv.
    apply list_elem_of_In, filter_In in Hv as [Hv Hc]. apply list_elem_of_In in Hv.
    apply String.eqb_eq in Hc.
    assert (isHidden (g v) = existsb (Z.eqb (rank v)) hidden) as ->.
    { unfold g, isHidden. destruct (existsb _ hidden); [done|].
      rewrite Forall_forall in Hshown. by rewrite (Hshown v Hv). }
    apply Bool.eq_iff_eq_true. rewrite !existsb_Zeqb.
    rewrite (hideLoop_elem_of _ _ _ _ _ _ Hloop). split.
    - intros [?%elem_of_nil|(j' & c' & picked' & Hj' & Hpick' & Hr)]; [done|].
      destruct (pickHidden_members _ _ _ _ (Hshuffle _) Hpick' _ Hr)
        as (v' & Hv' & Hrank & Hc').
      assert (v' = v) as -> by (by eapply (NoDup_map_inj rank ranking)).
      rewrite Hc in Hc'. subst c'.
      assert (j' = j) as -> by (by eapply (NoDup_lookup names)).
      simpl in Hpick'. rewrite Hpick in Hpick'. by injection Hpick' as <-.
    - intros Hr. right. by exists j, cluster, picked. }
  rewrite (List.filter_ext_in _ (fun v : Ranked => existsb (Z.eqb (rank v)) picked)).
  2:{ intros v Hv. apply Hsame. by apply list_elem_of_In. }
  assert (NoDup (map rank (first :: rest))) as Hnd.
  { rewrite <- Hmembers. by apply NoDup_map_filter. }
  rewrite picked_count; [|done|..].
  - rewrite Hpicked. unfold getRandom. rewrite slice0_length.
    rewrite <- (Permutation_length (Hshuffle j _)), length_map.
    destruct (Z.leb_spec 0 hide); lia.
  - rewrite Hpicked. unfold getRandom. apply slice0_NoDup. by rewrite <- (Hshuffle j _).
  - intros x Hx. rewrite Hpicked in Hx. unfold getRandom in Hx.
    apply slice0_elem_of in Hx. by rewrite <- (Hshuffle j _) in Hx.
Qed.

End HidingFacts.

(** What the hiding stage of a run works on. *)
Lemma computeRanking_hiding (config : Config) (w : World) (ranking : list Ranked) :
  computeRanking config w = Some ranking ->
  exists st scoredValidators,
    scoreRun config w = Some (st, scoredValidators)
    /\ hidingStage (shuffle w) (clusters st)
         (dominanceStage (rankStage st scoredValidators)) = Some ranking
    /\ NoDup (clusters st)
    /\ (EmptyString ∉ clusters st)
    /\ (forall c, c ∈ clusters st
          <-> c <> ""%string
              /\ exists v : Ranked,
                   v ∈ dominanceStage (rankStage st scoredValidators) /\ clusterName v = c)
    /\ NoDup (map rank (dominanceStage (rankStage st scoredValidators)))
    /\ Forall (fun v : Ranked => showClusterMember v = true)
         (dominanceStage (rankStage st scoredValidators)).
Proof.
  unfold computeRanking. intros Hrun.
  destruct (scoreRun config w) as [[st ss]|] eqn:Hscore; [|done].
  simpl in Hrun. exists st, ss. split; [done|]. split; [done|].
  pose proof Hscore as Hclusters. unfold scoreRun in Hclusters.
  destruct (scoreAll_clusters _ _ _ _ _ _ _ _ _ _ _ _ _ Hclusters) as (Hnd & Hne & Hin);
    [constructor|by intros ?%elem_of_nil|].
  assert (forall s, s ∈ ss <-> exists v : Ranked,
            v ∈ dominanceStage (rankStage st ss) /\ scored v = s) as Hscored.
  { intros s. rewrite <- (sort_elem_of ratingComparefn), <- (scored_of_stages st).
    rewrite list_elem_of_fmap. split; intros (v & H1 & H2); exists v; by split. }
  split; [done|]. split; [done|]. split.
  { intros c. rewrite Hin. split.
    - intros [?%elem_of_nil|(Hc & s & Hs & Hname)]; [done|]. split; [done|].
      apply Hscored in Hs as (v & Hv & <-). by exists v.
    - intros (Hc & v & Hv & Hname). right. split; [done|]. exists (scored v).
      split; [|done]. apply Hscored. by exists v. }
  split.
  { apply NoDup_alt. intros i j r Hi Hj.
    rewrite list_lookup_fmap in Hi, Hj. unfold dominanceStage in Hi, Hj.
    rewrite list_lookup_imap, rankStage_lookup in Hi, Hj.
    destruct (Js.sort ratingComparefn ss !! i); [|done].
    destruct (Js.sort ratingComparefn ss !! j); [|done].
    simpl in Hi, Hj. injection Hi as <-. injection Hj as Hj. lia. }
  apply Forall_forall. intros v Hv.
  assert (scored v ∈ ss) as Hs by (apply Hscored; by exists v).
  unfold scoreRun in Hscore. apply scoreAll_Forall2 in Hscore.
  apply list_elem_of_lookup in Hs as [k Hk].
  destruct (Forall2_lookup_r _ _ _ _ _ Hscore Hk) as (validator & _ & st0 & st1 & Hsc).
  by eapply scoreValidator_shown.
Qed.

(** A stored validator is hidden only if its cluster name is not empty:
    validators without a display name always stay visible. *)
Theorem unnamed_cluster_never_hidden (config : Config) (w : World)
  (ranking : list Ranked) (v : Ranked) :
  computeRanking config w = Some ranking ->
  (forall i positions, positions ≡ₚ shuffle w i positions) ->
  v ∈ ranking ->
  showClusterMember v = false ->
  clusterName v <> ""%string.
Proof.
  intros Hrun Hshuffle Hv Hhidden.
  destruct (computeRanking_hiding _ _ _ Hrun)
    as (st & ss & _ & Hstage & Hnd & Hne & _ & Hranks & Hshown).
  assert (clusterName v ∈ clusters st) as Hin.
  { eapply hidden_has_cluster; eauto. unfold isHidden. by rewrite Hhidden. }
  intros Hempty. rewrite Hempty in Hin. done.
Qed.

Lemma unnamed_cluster_never_hidden_witness :
  exists ranking,
    computeRanking Sample.config (Sample.waitingWorld (fun _ positions => positions))
    = Some ranking
    /\ Forall (fun v : Ranked => showClusterMember v = false -> clusterName v <> ""%string)
         ranking.
Proof.
  eexists. split; [vm_compute; reflexivity|].
  apply Forall_forall. intros v Hv Hhidden.
  eapply (unnamed_cluster_never_hidden Sample.config
            (Sample.waitingWorld (fun _ positions => positions)));
    [vm_compute; reflexivity|reflexivity|exact Hv|exact Hhidden].
Defined.

(** When the [k >= 2] validators stored under a cluster name all carry
    [clusterMembers = k], exactly [k - show(k)] of them are stored with
    [showClusterMember = false], whatever the shuffle. *)
Theorem consistent_cluster_hidden_count (config : Config) (w : World)
  (ranking : list Ranked) (cluster : string) (k : Z) :
  computeRanking config w = Some ranking ->
  (forall i positions, positions ≡ₚ shuffle w i positions) ->
  cluster <> ""%string ->
  2 <= k ->
  Z.of_nat (length (List.filter (inCluster cluster) ranking)) = k ->
  (forall v : Ranked, v ∈ ranking -> clusterName v = cluster -> clusterMembers v = k) ->
  Z.of_nat (length (List.filter isHidden (List.filter (inCluster cluster) ranking)))
  = k - showFor k.
Proof.
  intros Hrun Hshuffle Hname Hk Hsize Hconsistent.
  destruct (computeRanking_hiding _ _ _ Hrun)
    as (st & ss & _ & Hstage & Hnd & Hne & Hin & Hranks & Hshown).
  set (staged := dominanceStage (rankStage st ss)) in *.
  (* the stored members are the staged members, some with the flag cleared *)
  assert (exists hidden,
    ranking = applyHiding hidden staged) as (hidden & Hfinal).
  { unfold hidingStage in Hstage.
    destruct (hideLoop _ _ _ _ _) as [hidden|]; [|done]. simpl in Hstage.
    injection Hstage as <-. by exists hidden. }
  assert (List.filter (inCluster cluster) ranking
          = map (fun validator : Ranked =>
                   if existsb (Z.eqb (rank validator)) hidden then hideMember validator
                   else validator)
              (List.filter (inCluster cluster) staged)) as Hmembers.
  { rewrite Hfinal. unfold applyHiding. rewrite filter_map_commute. f_equal.
    apply List.filter_ext. intros v. by destruct (existsb _ _). }
  destruct (List.filter (inCluster cluster) staged) as [|first rest] eqn:Hstaged.
  { rewrite Hmembers in Hsize. simpl in Hsize. lia. }
  assert (clusterMembers first = k) as Hfirst.
  { set (g := fun validator : Ranked =>
                if existsb (Z.eqb (rank validator)) hidden then hideMember validator
                else validator) in *.
    assert (g first ∈ ranking) as Hg.
    { apply list_elem_of_In. eapply (proj1 (filter_In (inCluster cluster) _ _)).
      rewrite Hmembers. by left. }
    assert (In first (List.filter (inCluster cluster) staged)) as Hf
      by (rewrite Hstaged; by left).
    apply filter_In in Hf as [_ Hc]. apply String.eqb_eq in Hc.
    assert (clusterMembers (g first) = clusterMembers first
            /\ clusterName (g first) = clusterName first) as [Hm Hn].
    { unfold g. by destruct (existsb _ _). }
    rewrite <- Hm. apply Hconsistent; [done|]. by rewrite Hn. }
  assert (length (first :: rest) = length (List.filter (inCluster cluster) ranking)) as Hlen.
  { by rewrite Hmembers, length_map. }
  pose proof (showFor_range k Hk) as Hshow.
  rewrite (hidden_count (shuffle w) (clusters st) staged ranking Hstage Hshuffle Hnd Hranks
             Hshown cluster first rest); rewrite ?Hfirst; try lia; try done.
  apply Hin. split; [done|]. exists first. split.
  - apply list_elem_of_In. eapply (proj1 (filter_In (inCluster cluster) _ _)).
    rewrite Hstaged. by left.
  - assert (In first (List.filter (inCluster cluster) staged)) as Hf
      by (rewrite Hstaged; by left).
    apply filter_In in Hf as [_ Hc]. by apply String.eqb_eq in Hc.
Qed.

Lemma consistent_cluster_hidden_count_witness :
  exists ranking,
    computeRanking Sample.config Family.world = Some ranking
    /\ map (fun v : Ranked => (stashAddress v, clusterMembers v, showClusterMember v)) ranking
       = [("Z"%string, 3, true); ("Y"%string, 3, true); ("X"%string, 3, false)]
    /\ Z.of_nat (length (List.filter isHidden (List.filter (inCluster "W3F") ranking)))
       = 3 - showFor 3.
Proof.
  eexists. split; [vm_compute; reflexivity|]. split; [reflexivity|].
  eapply (consistent_cluster_hidden_count Sample.config Family.world);
    [vm_compute; reflexivity| | | | |].
  - intros i positions. apply Permutation_rev.
  - done.
  - lia.
  - reflexivity.
  - intros v Hv _.
    repeat (apply elem_of_cons in Hv as [->|Hv]); try reflexivity.
    by apply elem_of_nil in Hv.
Defined.

(** ** Address creation *)

Lemma recordCreation_lookup (rows : list Z) (address other : string) (creation : gmap string Z) :
  creation !! address = None \/ creation !! address = creationOf rows ->
  recordCreation rows address creation !! other
  = if decide (other = address) then creationOf rows else creation !! other.
Proof.
  intros Hprior. unfold recordCreation, creationOf in *.
  destruct rows as [|b rest].
  - rewrite lookup_insert. by repeat case_decide.
  - destruct (Z.eqb_spec b 0) as [->|Hb]; simpl.
    + case_decide as Heq; [|done]. subst other. by destruct Hprior.
    + rewrite lookup_insert. by repeat case_decide.
Qed.

Lemma creation_loop_invariant (event_rows : string -> list Z) (validators : list Validator.t)
  (creation : gmap string Z) (address : string) :
  (forall a, creation !! a = None \/ creation !! a = creationOf (event_rows a)) ->
  let result :=
    fold_left
      (fun creation validator =>
         let stashAddress := Validator.stashId validator in
         let creation := recordCreation (event_rows stashAddress) stashAddress creation in
         match Identity.parent (Validator.identity validator) with
         | Some stashParentAddress =>
             recordCreation (event_rows stashParentAddress) stashParentAddress creation
         | None => creation
         end)
      validators creation in
  (forall a, result !! a = None \/ result !! a = creationOf (event_rows a))
  /\ (queried validators address -> result !! address = creationOf (event_rows address))
  /\ (~ queried validators address -> result !! address = creation !! address)
  /\ (creation !! address = creationOf (event_rows address) ->
      result !! address = creationOf (event_rows address)).
Proof.
  revert creation. induction validators as [|v rest IH]; intros creation Hinv; simpl.
  - split; [done|]. split; [|done]. intros (x & Hx & _). by apply elem_of_nil in Hx.
  - set (c1 := recordCreation (event_rows (Validator.stashId v)) (Validator.stashId v) creation).
    assert (forall a, c1 !! a = None \/ c1 !! a = creationOf (event_rows a)) as Hinv1.
    { intros a. unfold c1. rewrite recordCreation_lookup by apply Hinv.
      case_decide as Heq; [subst a; by right|apply Hinv]. }
    set (c2 := match Identity.parent (Validator.identity v) with
               | Some p => recordCreation (event_rows p) p c1
               | None => c1
               end).
    assert (forall a, c2 !! a = None \/ c2 !! a = creationOf (event_rows a)) as Hinv2.
    { intros a. unfold c2. destruct (Identity.parent (Validator.identity v)) as [p|]; [|done].
      rewrite recordCreation_lookup by apply Hinv1.
      case_decide as Heq; [subst a; by right|apply Hinv1]. }
    assert (forall a, c2 !! a
              = if decide (Identity.parent (Validator.identity v) = Some a)
                then creationOf (event_rows a)
                else if decide (a = Validator.stashId v) then creationOf (event_rows a)
                else creation !! a) as Hc2.
    { intros a. unfold c2. destruct (Identity.parent (Validator.identity v)) as [p|].
      - rewrite recordCreation_lookup by apply Hinv1.
        destruct (decide (a = p)) as [->|Hne].
        + by rewrite decide_True.
        + rewrite decide_False by congruence. unfold c1.
          rewrite recordCreation_lookup by apply Hinv.
          by case_decide; subst.
      - rewrite decide_False by done. unfold c1.
        rewrite recordCreation_lookup by apply Hinv. by case_decide; subst. }
    destruct (IH c2 Hinv2) as (Hall & Hq & Hnq & Hkeep).
    split; [done|]. split; [|split].
    + intros (x & [->|Hx]%elem_of_cons & Hkey).
      * apply Hkeep. rewrite Hc2.
        destruct Hkey as [Hs|Hp]; repeat case_decide; try done; congruence.
      * apply Hq. by exists x.
    + intros Hnot. transitivity (c2 !! address).
      * apply Hnq. intros (x & Hx & Hkey). apply Hnot. exists x. split; [by right|done].
      * rewrite Hc2. rewrite decide_False.
        -- rewrite decide_False; [done|]. intros ->. apply Hnot. exists v. split; [by left|by left].
        -- intros Hp. apply Hnot. exists v. split; [by left|by right].
    + intros Hstart. apply Hkeep. rewrite Hc2. by repeat case_decide.
Qed.

Lemma stashAddressesCreationOf_cases (event_rows : string -> list Z)
  (validators : list Validator.t) (address : string) :
  (queried validators address ->
   stashAddressesCreationOf event_rows validators !! address = creationOf (event_rows address))
  /\ (~ queried validators address ->
      stashAddressesCreationOf event_rows validators !! address = None).
Proof.
  destruct (creation_loop_invariant event_rows validators ∅ address) as (_ & Hq & Hnq & _).
  { intros a. left. apply lookup_empty. }
  split; [exact Hq|]. intros Hnot. unfold stashAddressesCreationOf.
  etransitivity; [exact (Hnq Hnot)|]. apply lookup_empty.
Qed.

(** The creation block recorded for an address depends on the rows of its
    own query only: every stash and identity parent of the run gets the
    first row's block number, or 0 when no [NewAccount] event names it; no
    other address gets an entry. *)
Theorem stashAddressesCreation_lookup (event_rows : string -> list Z)
  (validators : list Validator.t) (address : string) :
  (queried validators address ->
   stashAddressesCreationOf event_rows validators !! address = creationOf (event_rows address))
  /\ (~ queried validators address ->
      stashAddressesCreationOf event_rows validators !! address = None).
Proof. apply stashAddressesCreationOf_cases. Qed.

Lemma addressRatingOf_antitone (older newer height : Z) :
  older <= newer ->
  addressRatingOf (Some newer) height <= addressRatingOf (Some older) height.
Proof.
  intros Hle. unfold addressRatingOf, within_quarters.
  assert (inject_Z older <= inject_Z newer)%Q as Hq by (by rewrite <- Zle_Qle).
  repeat match goal with
         | |- context [Qle_bool ?a ?b] =>
             let H := fresh "H" in
             destruct (Qle_bool a b) eqn:H;
             [apply Qle_bool_iff in H
             |apply not_true_iff_false in H; rewrite Qle_bool_iff in H]
         end; try lia; exfalso; lra.
Qed.

Lemma genesis_rating (height : Z) : 0 <= height -> addressRatingOf (Some 0) height = 3.
Proof.
  intros Hheight. unfold addressRatingOf, within_quarters.
  assert (Qle_bool (inject_Z 0) (inject_Z height / 4 * inject_Z 1) = true) as ->; [|done].
  apply Qle_bool_iff.
  assert (0 <= inject_Z height)%Q by (change 0%Q with (inject_Z 0); by rewrite <- Zle_Qle).
  change (inject_Z 0) with 0%Q. change (inject_Z 1) with 1%Q.
  assert (0 <= inject_Z height / 4)%Q by (apply Qle_shift_div_l; lra). lra.
Qed.

(** An address created earlier is never rated lower; an address of unknown
    creation block is rated 0; block 0 is rated 3 at any block height that
    is not negative. *)
Theorem addressRatingOf_older_better (older newer height : Z) :
  older <= newer ->
  addressRatingOf (Some newer) height <= addressRatingOf (Some older) height
  /\ addressRatingOf None height = 0
  /\ (0 <= height -> addressRatingOf (Some 0) height = 3).
Proof.
  intros Hle. split; [by apply addressRatingOf_antitone|]. split; [done|].
  apply genesis_rating.
Qed.

Lemma addressRatingOf_older_better_witness :
  addressRatingOf (Some 700) 1000 <= addressRatingOf (Some 200) 1000
  /\ addressRatingOf None 1000 = 0
  /\ (0 <= 1000 -> addressRatingOf (Some 0) 1000 = 3).
Proof. apply addressRatingOf_older_better. lia. Defined.

(** A stored validator whose stash is named by no [NewAccount] event and
    which has no identity parent is taken as created at genesis and rated 3
    for address creation. *)
Theorem genesis_stash_rated_best (config : Config) (w : World) (ranking : list Ranked)
  (v : Ranked) :
  computeRanking config w = Some ranking ->
  v ∈ ranking ->
  event_rows w (stashAddress v) = [] ->
  (forall validator, validator ∈ allValidators w ->
     Validator.stashId validator = stashAddress v ->
     Identity.parent (Validator.identity validator) = None) ->
  0 <= block_number (chain w) ->
  stashCreatedAtBlock v = Some 0 /\ addressCreationRating v = 3.
Proof.
  intros Hrun Hv Hrows Hparent Hheight.
  destruct (stored_from_scoring _ _ _ _ Hrun Hv)
    as (st0 & st1 & validator & s & Hvalidator & Hs & Hsame).
  apply scoreValidator_inv in Hs
    as (loop & _ & _ & _ & _ & _ & _ & Hstash & _ & _ & _ & _ & _ & _ & _ & Hcreated & Hrating).
  pose proof Hsame as H1. same_field H1 stashAddress.
  pose proof Hsame as H2. same_field H2 stashCreatedAtBlock.
  pose proof Hsame as H3. same_field H3 addressCreationRating.
  rewrite H1 in Hrows, Hparent. rewrite Hstash in Hrows.
  assert (stashAddressesCreationOf (event_rows w) (allValidators w)
            !! Validator.stashId validator = Some 0) as Hlookup.
  { rewrite (proj1 (stashAddressesCreationOf_cases (event_rows w) (allValidators w)
                      (Validator.stashId validator))).
    - by rewrite Hrows.
    - exists validator. by split; [|left]. }
  rewrite H2, H3, Hcreated, (Hrating (Hparent validator Hvalidator (eq_sym Hstash))), Hlookup.
  split; [done|]. by apply genesis_rating.
Qed.

Lemma genesis_stash_rated_best_witness :
  exists ranking,
    computeRanking Sample.config Sample.activeWorld = Some ranking
    /\ Forall (fun v : Ranked => stashCreatedAtBlock v = Some 0 /\ addressCreationRating v = 3)
         ranking.
Proof.
  eexists. split; [vm_compute; reflexivity|].
  apply Forall_forall. intros v Hv.
  eapply (genesis_stash_rated_best Sample.config Sample.activeWorld);
    [vm_compute; reflexivity|exact Hv|reflexivity| |by vm_compute].
  intros validator Hin _.
  repeat (apply elem_of_cons in Hin as [->|Hin]); try reflexivity.
  by apply elem_of_nil in Hin.
Defined.

(** ** Commission history values *)

Lemma toFixed2_close (x : Q) :
  exists n,
    JsNum.toFixed 2 (JsNum.Num x) = JsNum.Num (n # 100)
    /\ (x - (1 # 200) <= n # 100)%Q /\ (n # 100 <= x + (1 # 200))%Q.
Proof.
  unfold JsNum.toFixed. change (10 ^ 2) with 100.
  change (Z.to_pos 100) with 100%positive. change (inject_Z 100) with 100%Q.
  unfold JsNum.round_half_up.
  destruct (Qle_bool 0 x).
  - set (n := Qfloor (x * 100 + (1 # 2))).
    exists n. split; [done|].
    pose proof (Qfloor_le (x * 100 + (1 # 2))) as Hlow.
    pose proof (Qlt_floor (x * 100 + (1 # 2))) as Hhigh.
    fold n in Hlow, Hhigh. rewrite inject_Z_plus in Hhigh.
    change (inject_Z 1) with 1%Q in Hhigh.
    rewrite (Qmake_Qdiv n 100). change (inject_Z (Z.pos 100)) with 100%Q.
    split.
    + apply Qle_shift_div_l; lra.
    + apply Qle_shift_div_r; lra.
  - set (m := Qfloor (- x * 100 + (1 # 2))).
    exists (- m). split; [done|].
    pose proof (Qfloor_le (- x * 100 + (1 # 2))) as Hlow.
    pose proof (Qlt_floor (- x * 100 + (1 # 2))) as Hhigh.
    fold m in Hlow, Hhigh. rewrite inject_Z_plus in Hhigh.
    change (inject_Z 1) with 1%Q in Hhigh.
    rewrite (Qmake_Qdiv (- m) 100). change (inject_Z (Z.pos 100)) with 100%Q.
    rewrite inject_Z_opp.
    split.
    + apply Qle_shift_div_l; lra.
    + apply Qle_shift_div_r; lra.
Qed.

(** [commissionHistory] has one entry per era record, in order: [null] when
    the validator is absent from the preferences of the era, else the
    commission in percent within half a hundredth of [commission / 10^7]. *)
Theorem commissionHistory_entries (accountId : string) (erasPreferences : list EraPrefs.t) :
  Forall2
    (fun prefs entry =>
       ce_era entry = era_text (EraPrefs.era prefs)
       /\ match EraPrefs.validators prefs !! accountId with
          | Some p =>
              exists q,
                ce_commission entry = Some (JsNum.Num q)
                /\ (commission_percent (Prefs.commission p) - (1 # 200) <= q)%Q
                /\ (q <= commission_percent (Prefs.commission p) + (1 # 200))%Q
          | None => ce_commission entry = None
          end)
    erasPreferences (getCommissionHistory accountId erasPreferences).
Proof.
  unfold getCommissionHistory.
  set (turn := fun (history : list CommissionEntry) (prefs : EraPrefs.t) => _).
  set (R := fun (prefs : EraPrefs.t) (entry : CommissionEntry) => _).
  assert (forall done history,
    Forall2 R done history ->
    Forall2 R (done ++ erasPreferences) (fold_left turn erasPreferences history)) as Hgen.
  { induction erasPreferences as [|prefs rest IH]; intros done history Hdone; simpl.
    - by rewrite app_nil_r.
    - replace (done ++ prefs :: rest) with ((done ++ [prefs]) ++ rest)
        by (by rewrite <- app_assoc).
      apply IH. unfold turn.
      destruct (EraPrefs.validators prefs !! accountId) as [p|] eqn:Hp;
        (apply Forall2_app; [done|]); (constructor; [|constructor]);
        unfold R; rewrite Hp; cbn [ce_era ce_commission].
      + split; [done|].
        destruct (toFixed2_close (commission_percent (Prefs.commission p)))
          as (n & Hn & Hlow & Hhigh).
        exists (n # 100)%Q. by rewrite Hn.
      + done. }
  apply (Hgen [] []). constructor.
Qed.

(** ** The thousand-validator flag *)

(** A stored validator is flagged exactly when the list fetched holds an
    entry with its stash address. *)
Theorem thousand_flag_iff (config : Config) (w : World) (ranking : list Ranked) (v : Ranked) :
  computeRanking config w = Some ranking ->
  v ∈ ranking ->
  (includedThousandValidators v = true
   <-> exists candidate,
         candidate ∈ getThousandValidators (thousand_response w)
         /\ stash candidate = stashAddress v).
Proof.
  intros Hrun Hv.
  destruct (stored_from_scoring _ _ _ _ Hrun Hv)
    as (st0 & st1 & validator & s & _ & Hs & Hsame).
  pose proof (scoreValidator_thousand _ _ _ _ _ _ _ _ _ _ _ _ _ Hs) as Hflag.
  pose proof (scoreValidator_stash _ _ _ _ _ _ _ _ _ _ _ _ _ Hs) as Hstash.
  pose proof Hsame as H1. same_field H1 includedThousandValidators.
  pose proof Hsame as H2. same_field H2 stashAddress.
  rewrite H1, H2, Hflag, Hstash, existsb_exists. split.
  - intros (c & Hc & Heq). exists c. split; [by apply list_elem_of_In|by apply String.eqb_eq].
  - intros (c & Hc & Heq). exists c. split; [by apply list_elem_of_In|by apply String.eqb_eq].
Qed.

Lemma thousand_flag_iff_witness :
  exists ranking,
    computeRanking Sample.config Family.world = Some ranking
    /\ map (fun v : Ranked => (stashAddress v, includedThousandValidators v)) ranking
       = [("Z"%string, false); ("Y"%string, true); ("X"%string, false)]
    /\ Forall (fun v : Ranked =>
                 includedThousandValidators v = true
                 <-> exists candidate,
                       candidate ∈ [{| stash := "Y" |}] /\ stash candidate = stashAddress v)
         ranking.
Proof.
  eexists. split; [vm_compute; reflexivity|]. split; [reflexivity|].
  apply Forall_forall. intros v Hv.
  eapply (thousand_flag_iff Sample.config Family.world); [vm_compute; reflexivity|exact Hv].
Defined.

(** ** Clusters of sub-identities *)

Lemma filter_length_pos {A} (f : A -> bool) (l : list A) (x : A) :
  x ∈ l -> f x = true -> 1 <= Z.of_nat (length (List.filter f l)).
Proof.
  intros Hx Hf.
  assert (In x (List.filter f l)) as Hin
    by (apply List.filter_In; split; [by apply list_elem_of_In|done]).
  destruct (List.filter f l); [done|simpl; lia].
Qed.

Lemma subIdentity_parent (identity : Identity.t) :
  subIdentity identity = true ->
  exists parent,
    Identity.displayParent identity = Some parent /\ getClusterName identity = parent.
Proof.
  unfold subIdentity, getClusterName, Js.or_empty.
  destruct (Identity.displayParent identity) as [parent|]; simpl; [|done].
  destruct (String.eqb parent ""); simpl; [done|]. intros _. by exists parent.
Qed.

(** Two stored validators with a sub-identity and the same cluster name
    carry the same [clusterMembers], which counts each of them. *)
Theorem sub_identity_cluster_size (config : Config) (w : World) (ranking : list Ranked)
  (u v : Ranked) :
  computeRanking config w = Some ranking ->
  u ∈ ranking ->
  v ∈ ranking ->
  hasSubIdentity u = true ->
  hasSubIdentity v = true ->
  clusterName u = clusterName v ->
  clusterMembers u = clusterMembers v /\ 1 <= clusterMembers u.
Proof.
  intros Hrun Hu Hv Hsubu Hsubv Hname.
  destruct (stored_from_scoring _ _ _ _ Hrun Hu)
    as (su0 & su1 & vu & su & Hvu & Hscoreu & Hsameu).
  destruct (stored_from_scoring _ _ _ _ Hrun Hv)
    as (sv0 & sv1 & vv & sv & Hvv & Hscorev & Hsamev).
  apply scoreValidator_inv in Hscoreu
    as (loopu & _ & _ & _ & _ & _ & _ & _ & _ & _ & _ & _ & Hsu & Hcu & _).
  apply scoreValidator_inv in Hscorev
    as (loopv & _ & _ & _ & _ & _ & _ & _ & _ & _ & _ & _ & Hsv & Hcv & _).
  pose proof Hsameu as H1. same_field H1 hasSubIdentity.
  pose proof Hsameu as H2. same_field H2 clusterName.
  pose proof Hsameu as H3. same_field H3 clusterMembers.
  pose proof Hsamev as H4. same_field H4 hasSubIdentity.
  pose proof Hsamev as H5. same_field H5 clusterName.
  pose proof Hsamev as H6. same_field H6 clusterMembers.
  rewrite H1, Hsu in Hsubu. rewrite H4, Hsv in Hsubv.
  rewrite Hsubu in Hcu. rewrite Hsubv in Hcv.
  destruct (subIdentity_parent _ Hsubu) as (pu & Hpu & Hnu).
  destruct (subIdentity_parent _ Hsubv) as (pv & Hpv & Hnv).
  unfold getClusterInfo in Hcu, Hcv. simpl in Hcu, Hcv.
  injection Hcu as Hcnu Hcmu. injection Hcv as Hcnv Hcmv.
  assert (pu = pv) as <- by congruence.
  rewrite H3, H6, Hcmu, Hcmv, Hpu, Hpv. split; [done|].
  apply (filter_length_pos _ _ vu); [done|].
  rewrite Hpu. simpl. apply String.eqb_refl.
Qed.

Lemma sub_identity_cluster_size_witness :
  exists ranking,
    computeRanking Sample.config Family.world = Some ranking
    /\ map (fun v : Ranked => (clusterName v, clusterMembers v)) ranking
       = [("W3F"%string, 3); ("W3F"%string, 3); ("W3F"%string, 3)]
    /\ forall u v : Ranked, u ∈ ranking -> v ∈ ranking ->
       clusterMembers u = clusterMembers v /\ 1 <= clusterMembers u.
Proof.
  eexists. split; [vm_compute; reflexivity|]. split; [reflexivity|].
  intros u v Hu Hv.
  eapply (sub_identity_cluster_size Sample.config Family.world);
    [vm_compute; reflexivity|exact Hu|exact Hv| | |];
    repeat (apply elem_of_cons in Hu as [->|Hu]);
    repeat (apply elem_of_cons in Hv as [->|Hv]);
    try reflexivity; try (by apply elem_of_nil in Hu); by apply elem_of_nil in Hv.
Defined.

(** ** Storing the ranking *)

Lemma insertRanking_rows (accepted : list RankingRow -> RankingRow -> bool)
  (height startTime : Z) (ranking : list Ranked) (table : list RankingRow) :
  exists kept,
    kept `sublist_of` ranking
    /\ insertRanking accepted height startTime table ranking
       = table ++ map (rowOf height startTime) kept.
Proof.
  unfold insertRanking. revert table.
  induction ranking as [|validator rest IH]; intros table; simpl.
  - exists []. by rewrite app_nil_r.
  - destruct (accepted table _) eqn:Haccepted.
    + destruct (IH (table ++ [rowOf height startTime validator])) as (kept & Hsub & Heq).
      exists (validator :: kept). split; [by constructor|].
      rewrite Heq. by rewrite <- app_assoc.
    + destruct (IH table) as (kept & Hsub & Heq).
      exists kept. split; [by constructor|done].
Qed.

Lemma insertRanking_turn (accepted : list RankingRow -> RankingRow -> bool)
  (height startTime : Z) (table : list RankingRow) (ranking : list Ranked)
  (i : nat) (validator : Ranked) :
  ranking !! i = Some validator ->
  insertRanking accepted height startTime table (take (S i) ranking)
  = (let before := insertRanking accepted height startTime table (take i ranking) in
     if accepted before (rowOf height startTime validator)
     then before ++ [rowOf height startTime validator]
     else before).
Proof.
  intros Hi. rewrite (take_S_r _ _ _ Hi). unfold insertRanking.
  by rewrite fold_left_app.
Qed.

Lemma insertRanking_by_row (accepted : list RankingRow -> RankingRow -> bool)
  (ok : RankingRow -> bool) (height startTime : Z) (ranking : list Ranked)
  (table : list RankingRow) :
  (forall t row, accepted t row = ok row) ->
  insertRanking accepted height startTime table ranking
  = table ++ map (rowOf height startTime)
               (List.filter (fun validator => ok (rowOf height startTime validator)) ranking).
Proof.
  intros Hok. unfold insertRanking. revert table.
  induction ranking as [|validator rest IH]; intros table; simpl.
  - by rewrite app_nil_r.
  - rewrite Hok. destruct (ok _); rewrite IH; [|done].
    by rewrite <- app_assoc.
Qed.

Lemma cleanOldData_new_rows (deleted : bool) (height startTime : Z)
  (table : list RankingRow) (kept : list Ranked) :
  cleanOldData deleted height (table ++ map (rowOf height startTime) kept)
  = (if deleted
     then List.filter (fun row => row_block_height row =? height) table
     else table)
    ++ map (rowOf height startTime) kept.
Proof.
  unfold cleanOldData. destruct deleted; [|done].
  rewrite List.filter_app. f_equal.
  - apply List.filter_ext. intros row. by rewrite negb_involutive.
  - induction kept as [|validator rest IH]; [done|].
    simpl. rewrite Z.eqb_refl. simpl. by rewrite IH.
Qed.

(** What a run leaves in the [ranking] table.  The rows it found there,
    only those of its own block height when the [DELETE] succeeds, are
    followed by rows of the run, in ranking order, each with the run's
    block height and start time.  Turn by turn, the row of a validator is
    appended exactly when its [INSERT] succeeds on the table that the turns
    before have left, and the table is left as it is otherwise, whatever
    happened to the earlier rows: a failed [INSERT] loses that row only.
    So when the success of an [INSERT] depends on the row alone, the rows
    of the run are those of the validators whose [INSERT] succeeds, all of
    them and in order. *)
Theorem storeRanking_rows (accepted : list RankingRow -> RankingRow -> bool) (deleted : bool)
  (height startTime : Z) (table : list RankingRow) (ranking : list Ranked) :
  (exists kept,
     kept `sublist_of` ranking
     /\ insertRanking accepted height startTime table ranking
        = table ++ map (rowOf height startTime) kept
     /\ storeRanking accepted deleted height startTime table ranking
        = (if deleted
           then List.filter (fun row => row_block_height row =? height) table
           else table)
          ++ map (rowOf height startTime) kept)
  /\ (forall i validator,
        ranking !! i = Some validator ->
        insertRanking accepted height startTime table (take (S i) ranking)
        = (let before := insertRanking accepted height startTime table (take i ranking) in
           if accepted before (rowOf height startTime validator)
           then before ++ [rowOf height startTime validator]
           else before))
  /\ (forall ok,
        (forall t row, accepted t row = ok row) ->
        storeRanking accepted deleted height startTime table ranking
        = (if deleted
           then List.filter (fun row => row_block_height row =? height) table
           else table)
          ++ map (rowOf height startTime)
               (List.filter (fun validator => ok (rowOf height startTime validator))
                  ranking)).
Proof.
  split; [|split].
  - destruct (insertRanking_rows accepted height startTime ranking table)
      as (kept & Hsub & Heq).
    exists kept. split; [done|]. split; [done|].
    unfold storeRanking. rewrite Heq. apply cleanOldData_new_rows.
  - intros i validator. apply insertRanking_turn.
  - intros ok Hok. unfold storeRanking.
    rewrite (insertRanking_by_row accepted ok) by done.
    apply cleanOldData_new_rows.
Qed.

(** ** A run without performance *)

Lemma zero_performance_ratio (p top : Q) :
  (p == 0)%Q -> (top == 0)%Q ->
  JsNum.toFixed 6
    (JsNum.div (JsNum.sub (JsNum.Num p) (JsNum.Num 0))
               (JsNum.sub (JsNum.Num top) (JsNum.Num 0)))
  = JsNum.NaN.
Proof.
  intros Hp Htop. unfold JsNum.sub, JsNum.neg, JsNum.add, JsNum.div.
  assert (Qeq_bool (top + - 0) 0 = true) as -> by (apply Qeq_bool_iff; lra).
  assert (Qeq_bool (p + - 0) 0 = true) as -> by (apply Qeq_bool_iff; lra).
  done.
Qed.

(** When every performance is zero, as in a run whose validators earned no
    era points, every [relativePerformance] is stored as [NaN] and no
    validator is [dominated]. *)
Theorem no_performance_no_dominance (config : Config) (w : World) (ranking : list Ranked) :
  computeRanking config w = Some ranking ->
  (forall v : Ranked, v ∈ ranking ->
     exists p, performance v = JsNum.Num p /\ (p == 0)%Q) ->
  forall v : Ranked, v ∈ ranking ->
    relativePerformance v = JsNum.NaN /\ dominated v = false.
Proof.
  intros Hrun Hzero.
  destruct (computeRanking_lookup _ _ _ Hrun) as (st & ss & Hscore & _ & Hlookup).
  destruct (stored_performances _ _ _ _ _ Hrun Hscore) as [Hback Hrel].
  unfold scoreRun in Hscore.
  eapply (scoreAll_extremes _ _ _ _ _ _ _ _ _ _ _ _ _ 0%Q) in Hscore as
    (Hmin & top & Hmax & Htop0 & Hall & Hatt); [|..|reflexivity|reflexivity].
  2:{ intros s Hs. destruct (Hback s Hs) as (v & Hv & Hpv).
      rewrite <- Hpv. destruct (Hzero v Hv) as (p & Hp & Hp0).
      exists p. split; [done|]. lra. }
  assert (top == 0)%Q as Htop.
  { destruct Hatt as [->|(s & Hs & Hps)]; [lra|].
    destruct (Hback s Hs) as (v & Hv & Hpv).
    destruct (Hzero v Hv) as (p & Hp & Hp0).
    rewrite Hpv, Hps in Hp. by injection Hp as ->. }
  assert (forall v : Ranked, v ∈ ranking -> relativePerformance v = JsNum.NaN) as Hnan.
  { intros v Hv. destruct (Hzero v Hv) as (p & Hp & Hp0).
    rewrite (Hrel v Hv), Hp, Hmin, Hmax. by apply zero_performance_ratio. }
  intros v Hv. split; [by apply Hnan|].
  apply list_elem_of_lookup in Hv as Hi. destruct Hi as [i Hi].
  destruct (Hlookup i v Hi) as (v0 & Hv0 & [_ Hrv _] & Hdom).
  rewrite Hdom. apply not_true_iff_false.
  intros (j & o & _ & _ & Hwins)%isDominated_true.
  apply dominates_true in Hwins as (Hgeb & _).
  rewrite <- Hrv, (Hnan v Hv) in Hgeb.
  unfold JsNum.geb in Hgeb. simpl in Hgeb. done.
Qed.

Lemma no_performance_no_dominance_witness :
  exists ranking,
    computeRanking Sample.config Family.world = Some ranking
    /\ length ranking = 3%nat
    /\ Forall (fun v : Ranked => relativePerformance v = JsNum.NaN /\ dominated v = false)
         ranking.
Proof.
  eexists. split; [vm_compute; reflexivity|]. split; [reflexivity|].
  apply Forall_forall.
  apply (no_performance_no_dominance Sample.config Family.world); [vm_compute; reflexivity|].
  intros v Hv.
  repeat (apply elem_of_cons in Hv as [->|Hv]);
    [eexists; split; [reflexivity|by vm_compute]..|by apply elem_of_nil in Hv].
Defined.
